(** * VIREL AGI platform: the live-audio core, in Rocq

    A shallow embedding of the parts of the front-end that carry behaviour:

    - [LoadingContext]: the global active-request counter
      (src/contexts/LoadingContext.tsx);
    - [Base64]: the platform's [btoa] and [atob], which the PCM helpers call;
    - [GeminiService] and [VideoGeneration]: the service module, which
      src/components/LoadingBar.tsx holds after the loading bar itself: the
      PCM helpers [decode], [encode], [createPcmBlob], [decodeAudioData] and
      the two video-generation methods;
    - [LiveConversationFeature]: the controller of a live session
      (src/components/LiveConversationFeature.tsx);
    - [Binary64] and [PlaybackScheduler]: the scheduling steps of the
      controller once more, over binary64 times;
    - [BlobReader]: [blobToBase64] of the service module;
    - [GroundingFeature], [TTSFeature], [VideoGenerationFeature]: the request
      handlers of three pages, which call the service module and the loading
      counter (src/components/GroundingFeature.tsx, src/unnamed/part_003,
      src/unnamed/part_000).

    Numbers.  A JS number is a double.  Samples are modelled as rationals:
    every finite float32 is a dyadic rational, and the only arithmetic the
    helpers apply to a sample is a product with 32768 and a quotient by 32768,
    both exact in binary floating point.  NaN and the infinities are not
    samples of this model.  The controller keeps clock times and durations
    as rationals too, and adds them exactly.  The code's sum of a start time
    and a duration is a sum of doubles, which is rounded: the property that
    turns on it, the order of the playback intervals, is stated over
    [PlaybackScheduler], whose times are doubles and whose sum rounds to
    nearest, ties to even. *)

From Stdlib Require Import ZArith NArith QArith Qminmax Qabs.
From Stdlib Require Import List String Ascii Bool Lia.
From Stdlib.Strings Require Import Byte.
From Stdlib Require Import Decimal DecimalString.
From Stdlib Require SpecFloat.
From ITree Require ITree ITreeFacts Events.State Events.StateFacts.
Import ListNotations.

Close Scope Q_scope.

(* ===================================================================== *)
(** * Part I: the embedding                                               *)
(* ===================================================================== *)

(** ** src/contexts/LoadingContext.tsx *)

Module LoadingContext.

(** [useState<number>(0)] *)
Definition initialActiveRequests : Z := 0%Z.

(** [setActiveRequests((prev) => prev + 1)] *)
Definition incrementLoading (prev : Z) : Z := (prev + 1)%Z.

(** [setActiveRequests((prev) => Math.max(0, prev - 1))] *)
Definition decrementLoading (prev : Z) : Z := Z.max 0 (prev - 1).

(** [useMemo(() => activeRequests > 0, [activeRequests])] *)
Definition isLoading (activeRequests : Z) : bool := (0 <? activeRequests)%Z.

(** The two operations the context hands out. *)
Inductive Call : Type := Increment | Decrement.

Definition apply (c : Call) (n : Z) : Z :=
  match c with
  | Increment => incrementLoading n
  | Decrement => decrementLoading n
  end.

(** React applies queued functional updates in the order they were made. *)
Definition run (calls : list Call) (n : Z) : Z :=
  fold_left (fun acc c => apply c acc) calls n.

End LoadingContext.

(** ** The platform's base64 primitives

    [btoa] and [atob] are browser built-ins.  [btoa] follows RFC 4648 with
    padding; [atob] is the forgiving-base64 decode of the WHATWG Infra
    standard.  A binary string (every code unit below 256) is a [string]. *)

Module Base64.

Definition alphabet : list ascii :=
  list_ascii_of_string
    "ABCDEFGHIJKLMNOPQRSTUVWXYZabcdefghijklmnopqrstuvwxyz0123456789+/".

Definition pad : ascii := "="%char.

(** The character of a 6-bit group. *)
Definition sextet_char (n : N) : ascii := nth (N.to_nat n) alphabet pad.

(** The 6-bit group of a character of the alphabet. *)
Definition char_sextet (c : ascii) : option N :=
  let n := N_of_ascii c in
  if ((65 <=? n) && (n <=? 90))%N then Some (n - 65)%N
  else if ((97 <=? n) && (n <=? 122))%N then Some (n - 71)%N
  else if ((48 <=? n) && (n <=? 57))%N then Some (n + 4)%N
  else if (n =? 43)%N then Some 62%N
  else if (n =? 47)%N then Some 63%N
  else None.

(** Three bytes give four groups; a tail of one or two bytes gives two or
    three groups. *)
Fixpoint sextets_of_bytes (bs : list N) : list N :=
  match bs with
  | [] => []
  | [a] => [a / 4; (a mod 4) * 16]%N
  | [a; b] => [a / 4; (a mod 4) * 16 + b / 16; (b mod 16) * 4]%N
  | a :: b :: c :: rest =>
      (a / 4 :: (a mod 4) * 16 + b / 16 :: (b mod 16) * 4 + c / 64
         :: c mod 64 :: sextets_of_bytes rest)%N
  end.

(** Padding to a multiple of four characters. *)
Definition padding (n : nat) : list ascii :=
  match Nat.modulo n 4 with
  | 2%nat => [pad; pad]
  | 3%nat => [pad]
  | _ => []
  end.

Definition btoa (binary : string) : string :=
  let groups := sextets_of_bytes (map N_of_ascii (list_ascii_of_string binary)) in
  string_of_list_ascii (map sextet_char groups ++ padding (List.length groups)).

(** TAB, LF, FF, CR and SPACE. *)
Definition is_ascii_whitespace (c : ascii) : bool :=
  let n := N_of_ascii c in
  ((n =? 9) || (n =? 10) || (n =? 12) || (n =? 13) || (n =? 32))%N.

(** Removes one or two [=] at the very end. *)
Fixpoint strip_padding (cs : list ascii) : list ascii :=
  match cs with
  | [] => []
  | c :: rest =>
      if (Ascii.eqb c pad
          && match rest with
             | [] => true
             | [d] => Ascii.eqb d pad
             | _ => false
             end)%bool
      then []
      else c :: strip_padding rest
  end.

Fixpoint all_sextets (cs : list ascii) : option (list N) :=
  match cs with
  | [] => Some []
  | c :: rest =>
      match char_sextet c, all_sextets rest with
      | Some n, Some ns => Some (n :: ns)
      | _, _ => None
      end
  end.

(** Four groups give three bytes; three groups give two bytes (the last
    two bits are dropped); two groups give one byte (four bits dropped). *)
Fixpoint bytes_of_sextets (ss : list N) : list N :=
  match ss with
  | a :: b :: c :: d :: rest =>
      (a * 4 + b / 16 :: (b mod 16) * 16 + c / 4 :: (c mod 4) * 64 + d
         :: bytes_of_sextets rest)%N
  | [a; b; c] => [a * 4 + b / 16; (b mod 16) * 16 + c / 4]%N
  | [a; b] => [a * 4 + b / 16]%N
  | _ => []
  end.

(** [None] is the [InvalidCharacterError] exception. *)
Definition atob (data : string) : option string :=
  let cs := filter (fun c => negb (is_ascii_whitespace c))
                   (list_ascii_of_string data) in
  let cs := if Nat.eqb (Nat.modulo (List.length cs) 4) 0 then strip_padding cs else cs in
  if Nat.eqb (Nat.modulo (List.length cs) 4) 1 then None
  else match all_sextets cs with
       | None => None
       | Some ss => Some (string_of_list_ascii (map ascii_of_N (bytes_of_sextets ss)))
       end.

End Base64.

(** ** The service file: PCM helpers

    [Uint8Array], [Int16Array] and [Float32Array] are lists of their elements.
    A view of another array's buffer is the list of the same bytes read at the
    other width, least significant byte first. *)

Module GeminiService.

Definition Uint8Array : Type := list byte.
Definition Int16Array : Type := list Z.
Definition Float32Array : Type := list Q.

(** [types.ts]: [CustomBlob]. *)
Record CustomBlob : Type := mkCustomBlob {
  data : string;      (* base64 encoded string *)
  mimeType : string
}.

(** The integral part of a number, towards zero. *)
Definition truncate (x : Q) : Z := Z.quot (Qnum x) (Zpos (Qden x)).

(** Storing a number into an [Int16Array] element: the language's ToInt16.
    The integral part is reduced modulo 2^16 and read as two's complement. *)
Definition ToInt16 (x : Q) : Z :=
  let int16bit := (truncate x mod 65536)%Z in
  if (32768 <=? int16bit)%Z then (int16bit - 65536)%Z else int16bit.

Definition byte_of_Z (z : Z) : byte :=
  match Byte.of_N (Z.to_N (z mod 256)) with
  | Some b => b
  | None => x00
  end.

Definition Z_of_byte (b : byte) : Z := Z.of_N (Byte.to_N b).

(** [new Uint8Array(int16.buffer)] *)
Definition bytes_of_int16 (v : Z) : list byte :=
  [byte_of_Z v; byte_of_Z (v / 256)].

Definition Uint8Array_of_buffer (int16 : Int16Array) : Uint8Array :=
  flat_map bytes_of_int16 int16.

Definition int16_of_bytes (lo hi : byte) : Z :=
  let u := (Z_of_byte lo + 256 * Z_of_byte hi)%Z in
  if (32768 <=? u)%Z then (u - 65536)%Z else u.

(** [new Int16Array(data.buffer)]; [None] is the [RangeError] raised for a
    buffer of odd byte length. *)
Fixpoint Int16Array_of_buffer (bytes : Uint8Array) : option Int16Array :=
  match bytes with
  | [] => Some []
  | [_] => None
  | lo :: hi :: rest =>
      match Int16Array_of_buffer rest with
      | Some vs => Some (int16_of_bytes lo hi :: vs)
      | None => None
      end
  end.

(** [decode]: [atob], then one byte per code unit.  [None] is the exception
    [atob] raises. *)
Definition decode (base64 : string) : option Uint8Array :=
  match Base64.atob base64 with
  | None => None
  | Some binaryString =>
      Some (map byte_of_ascii (list_ascii_of_string binaryString))
  end.

(** [encode]: the loop appends [String.fromCharCode(bytes[i])] to [binary],
    then [btoa]. *)
Definition encode (bytes : Uint8Array) : string :=
  let binary :=
    fold_left (fun binary b => (binary ++ String (ascii_of_byte b) EmptyString)%string)
              bytes EmptyString in
  Base64.btoa binary.

(** The number in a template literal. *)
Definition string_of_pos (p : positive) : string :=
  NilZero.string_of_uint (Pos.to_uint p).

(** [createPcmBlob]; the capture rate is a constant of the constants
    module, taken as an argument. *)
Definition createPcmBlob (LIVE_API_INPUT_SAMPLE_RATE : positive)
    (data : Float32Array) : CustomBlob :=
  let int16 : Int16Array := map (fun x => ToInt16 (x * 32768)%Q) data in
  {| data := encode (Uint8Array_of_buffer int16);
     mimeType := "audio/pcm;rate=" ++ string_of_pos LIVE_API_INPUT_SAMPLE_RATE |}.

(** What [decodeAudioData] reads of an [AudioBuffer]. *)
Record AudioBuffer : Type := mkAudioBuffer {
  numberOfChannels : nat;
  length : nat;                      (* in sample frames *)
  sampleRate : positive;
  channelData : list Float32Array    (* one array per channel *)
}.

(** [AudioBuffer.duration], in seconds. *)
Definition duration (b : AudioBuffer) : Q :=
  (inject_Z (Z.of_nat (length b)) / inject_Z (Zpos (sampleRate b)))%Q.

(** [decodeAudioData].  [frameCount] is the quotient of the lengths; when
    the channel count does not divide the length the buffer gets the integral
    part and the loop's last round writes past the end of the channel, which
    a typed array ignores.  The buffer the context allocates is filled
    channel by channel from the interleaved samples.  A channel count is a
    positive integer.  The context's own checks of what it is asked to
    allocate are not part of this function. *)
Definition decodeAudioData (data : Uint8Array) (sampleRate : positive)
    (channels : positive) : option AudioBuffer :=
  let numChannels := Pos.to_nat channels in
  match Int16Array_of_buffer data with
  | None => None
  | Some dataInt16 =>
      let frameCount := Nat.div (List.length dataInt16) numChannels in
      Some {| numberOfChannels := numChannels;
              length := frameCount;
              sampleRate := sampleRate;
              channelData :=
                map (fun channel =>
                       map (fun i =>
                              (inject_Z (nth (i * numChannels + channel) dataInt16 0%Z)
                               / 32768)%Q)
                           (seq 0 frameCount))
                    (seq 0 numChannels) |}
  end.

End GeminiService.

(** ** The service file: video generation

    The two methods talk to the provider's SDK, to [fetch] and to the timer.
    They are interaction trees over the calls they make; an exception is the
    [Thrown] outcome of a call or of the method. *)

Module VideoGeneration.

Import ITree.ITree ITree.Events.State.
Import ITreeNotations.
Local Open Scope itree_scope.
Local Open Scope string_scope.

(** [types.ts] *)
Inductive AspectRatio : Type := AR_1_1 | AR_3_4 | AR_4_3 | AR_9_16 | AR_16_9.
Inductive Resolution : Type := Res_720p | Res_1080p.

Inductive Outcome (A : Type) : Type :=
| Returned (a : A)
| Thrown (message : string).
Arguments Returned {A} a.
Arguments Thrown {A} message.

(** What the methods read of the SDK's long-running operation:
    [operation.done], [operation.metadata?.state] and
    [operation.response?.generatedVideos?.[0]?.video?.uri]. *)
Record Operation : Type := mkOperation {
  done : bool;
  metadata_state : option string;
  video_uri : option string
}.

Record Image : Type := mkImage {
  imageBytes : string;
  image_mimeType : string
}.

(** The argument of [ai.models.generateVideos]. *)
Record GenerateVideosParameters : Type := mkParams {
  model : string;
  prompt : string;
  image : option Image;
  numberOfVideos : nat;
  resolution : Resolution;
  aspectRatio : AspectRatio
}.

Definition Blob : Type := nat.

Record Response : Type := mkResponse {
  ok : bool;
  statusText : string;
  response_id : nat
}.

(** The calls the methods make, with the type of what each gives back. *)
Variant videoE : Type -> Type :=
| OnProgress (message : string) : videoE unit
| GenerateVideos (params : GenerateVideosParameters) : videoE (Outcome Operation)
| SetTimeout (ms : Z) : videoE unit
| GetVideosOperation (operation : Operation) : videoE (Outcome Operation)
| Fetch (url : string) : videoE (Outcome Response)
| ResponseBlob (r : Response) : videoE (Outcome Blob)
| CreateObjectURL (b : Blob) : videoE string
| ConsoleError (label message : string) : videoE unit.

Definition Method : Type := itree videoE (Outcome string).

(** [await] of a call that may reject: an exception skips the rest. *)
Definition await {A B} (call : itree videoE (Outcome A))
    (rest : A -> itree videoE (Outcome B)) : itree videoE (Outcome B) :=
  r <- call ;;
  match r with
  | Returned a => rest a
  | Thrown e => Ret (Thrown e)
  end.

(** A string is falsy when it is missing or empty. *)
Definition truthy (s : option string) : option string :=
  match s with
  | Some EmptyString => None
  | other => other
  end.

(** [getAiInstance]: raises when [process.env.API_KEY] is not set. *)
Definition getAiInstance (API_KEY : option string) : Outcome string :=
  match truthy API_KEY with
  | Some key => Returned key
  | None =>
      Thrown "API_KEY is not defined. Please ensure it is set as an environment variable."
  end.

(** [while (!operation.done) { onProgress(...); await timeout(10000);
      operation = await getVideosOperation({operation}) }] *)
Definition pollUntilDone (progress : string) (first : Operation)
  : itree videoE (Outcome Operation) :=
  ITree.iter
    (fun operation : Operation =>
       if done operation then Ret (inr (Returned operation))
       else
         ITree.trigger
           (OnProgress
              (progress ++ " Waiting for 10 seconds. Status: "
               ++ match truthy (metadata_state operation) with
                  | Some state => state
                  | None => "UNKNOWN"
                  end)) ;;
         ITree.trigger (SetTimeout 10000) ;;
         r <- ITree.trigger (GetVideosOperation operation) ;;
         match r with
         | Returned operation' => Ret (inl operation')
         | Thrown e => Ret (inr (Thrown e))
         end)
    first.

(** [try { ... } catch (error) { console.error(label, error); throw error }] *)
Definition tryCatch (label : string) (body : Method) : Method :=
  r <- body ;;
  match r with
  | Returned url => Ret (Returned url)
  | Thrown e => ITree.trigger (ConsoleError label e) ;; Ret (Thrown e)
  end.

(** The text the two methods share; they differ in the request and in the
    messages only. *)
Definition generateVideo (API_KEY : option string)
    (params : GenerateVideosParameters)
    (initiating progress complete label : string) : Method :=
  match getAiInstance API_KEY with
  | Thrown e => Ret (Thrown e)
  | Returned key =>
      tryCatch label
        (ITree.trigger (OnProgress initiating) ;;
         await (ITree.trigger (GenerateVideos params)) (fun operation =>
         await (pollUntilDone progress operation) (fun operation =>
         match truthy (video_uri operation) with
         | None => Ret (Thrown "No video download link found.")
         | Some downloadLink =>
             ITree.trigger (OnProgress complete) ;;
             await (ITree.trigger (Fetch (downloadLink ++ "&key=" ++ key)))
               (fun videoResponse =>
             if ok videoResponse then
               await (ITree.trigger (ResponseBlob videoResponse)) (fun videoBlob =>
               url <- ITree.trigger (CreateObjectURL videoBlob) ;;
               Ret (Returned url))
             else
               Ret (Thrown ("Failed to fetch video: " ++ statusText videoResponse)))
         end)))
  end.

Definition generateVideoFromText (API_KEY : option string)
    (prompt : string) (aspectRatio : AspectRatio) (resolution : Resolution)
  : Method :=
  generateVideo API_KEY
    {| model := "veo-3.1-fast-generate-preview";
       prompt := prompt;
       image := None;
       numberOfVideos := 1;
       resolution := resolution;
       aspectRatio := aspectRatio |}
    "Initiating video generation..."
    "Video generation in progress..."
    "Video generation complete. Fetching video..."
    "Error generating video:".

Definition generateVideoFromImage (API_KEY : option string)
    (prompt imageBytes imageMimeType : string)
    (aspectRatio : AspectRatio) (resolution : Resolution) : Method :=
  generateVideo API_KEY
    {| model := "veo-3.1-fast-generate-preview";
       prompt := prompt;
       image := Some {| imageBytes := imageBytes; image_mimeType := imageMimeType |};
       numberOfVideos := 1;
       resolution := resolution;
       aspectRatio := aspectRatio |}
    "Initiating video generation from image..."
    "Video generation from image in progress..."
    "Video generation from image complete. Fetching video..."
    "Error generating video from image:".

(** *** A world to run the methods in

    The provider, the network and the page are scripted: the [k]-th call to
    the SDK (the request is call 0, every poll the next one) gets
    [sdk_answer k].  Running a method keeps the count of SDK calls and the
    log of every call made, oldest first. *)

Record World : Type := mkWorld {
  sdk_answer : nat -> Outcome Operation;
  fetch_answer : string -> Outcome Response;
  blob_answer : Response -> Outcome Blob;
  object_url : Blob -> string
}.

Inductive Entry : Type :=
| Progressed (message : string)
| Requested (params : GenerateVideosParameters)
| Slept (ms : Z)
| Polled (operation : Operation)
| Fetched (url : string)
| ReadBlob (r : Response)
| MadeURL (b : Blob)
| Logged (label message : string).

Record Run : Type := mkRun {
  sdk_calls : nat;
  log : list Entry
}.

Definition record (e : Entry) (r : Run) : Run :=
  {| sdk_calls := sdk_calls r; log := log r ++ [e] |}.

Definition answered (e : Entry) (r : Run) : Run :=
  {| sdk_calls := S (sdk_calls r); log := log r ++ [e] |}.

Definition handle (w : World) : videoE ~> Monads.stateT Run (itree void1) :=
  fun _ e r =>
    match e with
    | OnProgress m => Ret (record (Progressed m) r, tt)
    | GenerateVideos p => Ret (answered (Requested p) r, sdk_answer w (sdk_calls r))
    | SetTimeout ms => Ret (record (Slept ms) r, tt)
    | GetVideosOperation o => Ret (answered (Polled o) r, sdk_answer w (sdk_calls r))
    | Fetch url => Ret (record (Fetched url) r, fetch_answer w url)
    | ResponseBlob resp => Ret (record (ReadBlob resp) r, blob_answer w resp)
    | CreateObjectURL b => Ret (record (MadeURL b) r, object_url w b)
    | ConsoleError l m => Ret (record (Logged l m) r, tt)
    end.

Definition run (w : World) (m : Method) : itree void1 (Run * Outcome string) :=
  interp_state (handle w) m {| sdk_calls := 0; log := [] |}.

(** The calls of one round of the polling loop on [operation]. *)
Definition round (progress : string) (operation : Operation) : list Entry :=
  [ Progressed (progress ++ " Waiting for 10 seconds. Status: "
                ++ match truthy (metadata_state operation) with
                   | Some state => state
                   | None => "UNKNOWN"
                   end);
    Slept 10000;
    Polled operation ].

Definition is_request (e : Entry) : bool :=
  match e with Requested _ => true | _ => false end.

Definition is_fetch (e : Entry) : bool :=
  match e with Fetched _ => true | _ => false end.

End VideoGeneration.

(** ** src/components/LiveConversationFeature.tsx

    The component's [useState] cells, its [useRef] cells and the calls it
    makes on platform objects.  Handlers run to completion one at a time on
    the page's event loop, so each is a function from state to state. *)

Module LiveConversationFeature.

Import GeminiService.

(** [types.ts]: [ChatMessageType]. *)
Inductive ChatMessageType : Type := USER | MODEL | INFO | ERROR.

Record HistoryEntry : Type := mkEntry {
  type : ChatMessageType;
  text : string
}.

(** Platform objects are known by identity. *)
Definition LiveSession : Type := nat.
Definition MediaStream : Type := nat.
Definition AudioContext : Type := nat.
Definition ScriptProcessorNode : Type := nat.

Record AudioBufferSourceNode : Type := mkSource {
  node : nat;
  buffer : AudioBuffer
}.

(** The calls on platform objects that the handlers make. *)
Inductive Call : Type :=
| session_close (session : LiveSession)
| session_sendRealtimeInput (session : LiveSession) (media : CustomBlob)
| scriptProcessor_disconnect (n : ScriptProcessorNode)
| tracks_stop (stream : MediaStream)
| audioContext_close (ctx : AudioContext)
| source_start (source : AudioBufferSourceNode) (when : Q)
| source_stop (source : AudioBufferSourceNode).

Record State : Type := mkState {
  (* useState *)
  isRecording : bool;
  currentInputTranscription : string;
  currentOutputTranscription : string;
  transcriptionHistory : list HistoryEntry;
  statusMessage : string;
  error : option string;
  (* useRef *)
  sessionRef : option LiveSession;
  streamRef : option MediaStream;
  inputAudioContextRef : option AudioContext;
  outputAudioContextRef : option AudioContext;
  scriptProcessorRef : option ScriptProcessorNode;
  nextStartTimeRef : Q;
  sourcesRef : list AudioBufferSourceNode;   (* a Set, in insertion order *)
  (* the loading context *)
  activeRequests : Z;
  (* the platform: source nodes created so far, calls made so far *)
  created : nat;
  calls : list Call
}.

(** The first render. *)
Definition initial : State :=
  {| isRecording := false;
     currentInputTranscription := EmptyString;
     currentOutputTranscription := EmptyString;
     transcriptionHistory := [];
     statusMessage := "Click to start conversation";
     error := None;
     sessionRef := None;
     streamRef := None;
     inputAudioContextRef := None;
     outputAudioContextRef := None;
     scriptProcessorRef := None;
     nextStartTimeRef := 0%Q;
     sourcesRef := [];
     activeRequests := LoadingContext.initialActiveRequests;
     created := 0;
     calls := [] |}.

(** *** Assignments to one cell *)

Definition setIsRecording (v : bool) (s : State) : State :=
  let '(mkState rec cin cout hist status err session stream ictx octx node
                 next sources active n log) := s in
  mkState v cin cout hist status err session stream ictx octx node
          next sources active n log.

(** [setCurrentInputTranscription((prev) => f prev)] *)
Definition setCurrentInputTranscription (f : string -> string) (s : State) : State :=
  let '(mkState rec cin cout hist status err session stream ictx octx node
                 next sources active n log) := s in
  mkState rec (f cin) cout hist status err session stream ictx octx
          node next sources active n log.

Definition setCurrentOutputTranscription (f : string -> string) (s : State) : State :=
  let '(mkState rec cin cout hist status err session stream ictx octx node
                 next sources active n log) := s in
  mkState rec cin (f cout) hist status err session stream ictx octx
          node next sources active n log.

(** [setTranscriptionHistory((prev) => f prev)] *)
Definition setTranscriptionHistory (f : list HistoryEntry -> list HistoryEntry) (s : State) : State :=
  let '(mkState rec cin cout hist status err session stream ictx octx node
                 next sources active n log) := s in
  mkState rec cin cout (f hist) status err session stream ictx octx
          node next sources active n log.

Definition setStatusMessage (v : string) (s : State) : State :=
  let '(mkState rec cin cout hist status err session stream ictx octx node
                 next sources active n log) := s in
  mkState rec cin cout hist v err session stream ictx octx node next
          sources active n log.

Definition setError (v : option string) (s : State) : State :=
  let '(mkState rec cin cout hist status err session stream ictx octx node
                 next sources active n log) := s in
  mkState rec cin cout hist status v session stream ictx octx node
          next sources active n log.

Definition set_sessionRef (v : option LiveSession) (s : State) : State :=
  let '(mkState rec cin cout hist status err session stream ictx octx node
                 next sources active n log) := s in
  mkState rec cin cout hist status err v stream ictx octx node next
          sources active n log.

Definition set_streamRef (v : option MediaStream) (s : State) : State :=
  let '(mkState rec cin cout hist status err session stream ictx octx node
                 next sources active n log) := s in
  mkState rec cin cout hist status err session v ictx octx node next
          sources active n log.

Definition set_inputAudioContextRef (v : option AudioContext) (s : State) : State :=
  let '(mkState rec cin cout hist status err session stream ictx octx node
                 next sources active n log) := s in
  mkState rec cin cout hist status err session stream v octx node
          next sources active n log.

Definition set_outputAudioContextRef (v : option AudioContext) (s : State) : State :=
  let '(mkState rec cin cout hist status err session stream ictx octx node
                 next sources active n log) := s in
  mkState rec cin cout hist status err session stream ictx v node
          next sources active n log.

Definition set_scriptProcessorRef (v : option ScriptProcessorNode) (s : State) : State :=
  let '(mkState rec cin cout hist status err session stream ictx octx node
                 next sources active n log) := s in
  mkState rec cin cout hist status err session stream ictx octx v
          next sources active n log.

Definition set_nextStartTimeRef (v : Q) (s : State) : State :=
  let '(mkState rec cin cout hist status err session stream ictx octx node
                 next sources active n log) := s in
  mkState rec cin cout hist status err session stream ictx octx node
          v sources active n log.

Definition set_sourcesRef (v : list AudioBufferSourceNode) (s : State) : State :=
  let '(mkState rec cin cout hist status err session stream ictx octx node
                 next sources active n log) := s in
  mkState rec cin cout hist status err session stream ictx octx node
          next v active n log.

Definition setActiveRequests (f : Z -> Z) (s : State) : State :=
  let '(mkState rec cin cout hist status err session stream ictx octx node
                 next sources active n log) := s in
  mkState rec cin cout hist status err session stream ictx octx node
          next sources (f active) n log.

Definition set_created (v : nat) (s : State) : State :=
  let '(mkState rec cin cout hist status err session stream ictx octx node
                 next sources active n log) := s in
  mkState rec cin cout hist status err session stream ictx octx node
          next sources active v log.

(** A call on a platform object, added to the log (oldest first). *)
Definition call (c : Call) (s : State) : State :=
  let '(mkState rec cin cout hist status err session stream ictx octx node
                 next sources active n log) := s in
  mkState rec cin cout hist status err session stream ictx octx node
          next sources active n (log ++ [c]).

Definition incrementLoading : State -> State :=
  setActiveRequests LoadingContext.incrementLoading.

Definition decrementLoading : State -> State :=
  setActiveRequests LoadingContext.decrementLoading.

(** *** The server's message, as far as [onmessage] reads it *)

Record Transcription : Type := mkTranscription {
  transcription_text : option string
}.

Record InlineData : Type := mkInlineData {
  inline_data : option string
}.

Record Part : Type := mkPart {
  inlineData : option InlineData
}.

Record Content : Type := mkContent {
  parts : option (list Part)
}.

Record ServerContent : Type := mkServerContent {
  outputTranscription : option Transcription;
  inputTranscription : option Transcription;
  turnComplete : bool;
  modelTurn : option Content;
  interrupted : bool
}.

Record LiveServerMessage : Type := mkMessage {
  serverContent : option ServerContent
}.

(** A handler either completes or raises, in the state it had reached. *)
Inductive Completion : Type :=
| Normal (s : State)
| Abrupt (s : State) (exception : string).

Definition state_of (c : Completion) : State :=
  match c with
  | Normal s => s
  | Abrupt s _ => s
  end.

(** [prev + transcription.text]: a missing text prints as [undefined]. *)
Definition append_text (t : Transcription) (prev : string) : string :=
  (prev ++ match transcription_text t with
           | Some txt => txt
           | None => "undefined"
           end)%string.

(** An empty string is falsy. *)
Definition nonempty (s : string) : bool :=
  match s with
  | EmptyString => false
  | String _ _ => true
  end.

(** [message.serverContent?.modelTurn?.parts[0]?.inlineData?.data]: the
    chain stops at a missing [serverContent] or [modelTurn]; indexing a
    missing [parts] raises. *)
Definition audioData (message : LiveServerMessage) : option (option string) :=
  match serverContent message with
  | None => Some None
  | Some sc =>
      match modelTurn sc with
      | None => Some None
      | Some turn =>
          match parts turn with
          | None => None
          | Some [] => Some None
          | Some (part :: _) =>
              match inlineData part with
              | None => Some None
              | Some d => Some (inline_data d)
              end
          end
      end
  end.

(** [sourcesRef.current.delete(source)] *)
Definition same_node (a b : AudioBufferSourceNode) : bool :=
  Nat.eqb (node a) (node b).

Definition delete (source : AudioBufferSourceNode)
    (set : list AudioBufferSourceNode) : list AudioBufferSourceNode :=
  filter (fun other => negb (same_node source other)) set.

(** [sourcesRef.current.add(source)] *)
Definition add (source : AudioBufferSourceNode)
    (set : list AudioBufferSourceNode) : list AudioBufferSourceNode :=
  if existsb (same_node source) set then set else set ++ [source].

(** The listener of a source's [ended] event. *)
Definition onended (source : AudioBufferSourceNode) (s : State) : State :=
  set_sourcesRef (delete source (sourcesRef s)) s.

(** [for (const source of sourcesRef.current.values()) source.stop()] *)
Fixpoint stop_each (pending : list AudioBufferSourceNode) (s : State) : State :=
  match pending with
  | [] => s
  | source :: rest => stop_each rest (call (source_stop source) s)
  end.

(** [for (const source of sourcesRef.current.values())
      { source.stop(); sourcesRef.current.delete(source) }]:
    the members are visited in insertion order, and deleting the member
    being visited does not disturb the iteration. *)
Fixpoint stop_and_delete_each (pending : list AudioBufferSourceNode)
    (s : State) : State :=
  match pending with
  | [] => s
  | source :: rest =>
      let s := call (source_stop source) s in
      let s := set_sourcesRef (delete source (sourcesRef s)) s in
      stop_and_delete_each rest s
  end.

(** *** [stopRecording] *)

Definition stopRecording (resetError : bool) (s : State) : State :=
  let s := setIsRecording false s in
  let s := match sessionRef s with
           | Some session => set_sessionRef None (call (session_close session) s)
           | None => s
           end in
  let s := match scriptProcessorRef s with
           | Some n => set_scriptProcessorRef None (call (scriptProcessor_disconnect n) s)
           | None => s
           end in
  let s := match streamRef s with
           | Some stream => set_streamRef None (call (tracks_stop stream) s)
           | None => s
           end in
  let s := match inputAudioContextRef s with
           | Some ctx => set_inputAudioContextRef None (call (audioContext_close ctx) s)
           | None => s
           end in
  let s := match outputAudioContextRef s with
           | Some ctx => set_outputAudioContextRef None (call (audioContext_close ctx) s)
           | None => s
           end in
  let s := stop_each (sourcesRef s) s in
  let s := set_sourcesRef [] s in
  let s := set_nextStartTimeRef 0%Q s in
  let s := setCurrentInputTranscription (fun _ => EmptyString) s in
  let s := setCurrentOutputTranscription (fun _ => EmptyString) s in
  let s := if resetError then setError None s else s in
  setStatusMessage "Conversation ended." s.

(** The cleanup of the unmount effect: [stopRecording(false)]. *)
Definition cleanup : State -> State := stopRecording false.

Section Constants.

(** The values are those of the constants module; the handlers are
    parametric in them. *)
Variable LIVE_API_INPUT_SAMPLE_RATE : positive.
Variable LIVE_API_OUTPUT_SAMPLE_RATE : positive.
Variable LIVE_API_AUDIO_CHANNELS : positive.

(** *** The callbacks of one session

    [startRecording] builds the callbacks inside its own body, and the
    component builds [startRecording] anew for every render.  The
    callbacks of a session therefore see the two running transcripts as
    they were in the render whose [startRecording] was called. *)

Record Callbacks : Type := mkCallbacks {
  seen_currentInputTranscription : string;
  seen_currentOutputTranscription : string
}.

Definition callbacks_of (render : State) : Callbacks :=
  {| seen_currentInputTranscription := currentInputTranscription render;
     seen_currentOutputTranscription := currentOutputTranscription render |}.

(** [onaudioprocess], the capture node's callback. *)
Definition onaudioprocess (inputData : Float32Array) (s : State) : State :=
  let pcmBlob := createPcmBlob LIVE_API_INPUT_SAMPLE_RATE inputData in
  match sessionRef s with
  | Some session => call (session_sendRealtimeInput session pcmBlob) s
  | None => s
  end.

(** [onopen]; the callback is installed on [scriptProcessorRef.current!],
    and the node is connected to [inputAudioContextRef.current!.destination]. *)
Definition onopen (s : State) : Completion :=
  let s := setStatusMessage "Recording..." s in
  let s := setIsRecording true s in
  let s := decrementLoading s in
  match scriptProcessorRef s, inputAudioContextRef s with
  | Some _, Some _ => Normal s
  | _, _ => Abrupt s "TypeError"
  end.

(** Scheduling a decoded buffer: the part of [onmessage] after
    [decodeAudioData], with the floor already raised to the clock.  The sum
    is the exact one here; [PlaybackScheduler.play] has the rounded one. *)
Definition play (audioBuffer : AudioBuffer) (s : State) : State :=
  let source := {| node := created s; buffer := audioBuffer |} in
  let s := set_created (S (created s)) s in
  let s := call (source_start source (nextStartTimeRef s)) s in
  let s := set_nextStartTimeRef (nextStartTimeRef s + duration audioBuffer)%Q s in
  set_sourcesRef (add source (sourcesRef s)) s.

(** [nextStartTimeRef.current = Math.max(nextStartTimeRef.current,
      outputAudioContextRef.current.currentTime)] *)
Definition raise_floor (currentTime : Q) (s : State) : State :=
  set_nextStartTimeRef (Qmax (nextStartTimeRef s) currentTime) s.

(** [onmessage].  [currentTime] is what the playback clock reads when the
    message is handled. *)
Definition onmessage (cb : Callbacks) (message : LiveServerMessage)
    (currentTime : Q) (s : State) : Completion :=
  let sc := serverContent message in
  let s :=
    match option_map outputTranscription sc with
    | Some (Some t) => setCurrentOutputTranscription (append_text t) s
    | _ =>
        match option_map inputTranscription sc with
        | Some (Some t) => setCurrentInputTranscription (append_text t) s
        | _ => s
        end
    end in
  let s :=
    match option_map turnComplete sc with
    | Some true =>
        let s :=
          if nonempty (seen_currentInputTranscription cb)
          then setTranscriptionHistory
                 (fun prev => prev ++ [ {| type := USER;
                                           text := seen_currentInputTranscription cb |} ]) s
          else s in
        let s :=
          if nonempty (seen_currentOutputTranscription cb)
          then setTranscriptionHistory
                 (fun prev => prev ++ [ {| type := MODEL;
                                           text := seen_currentOutputTranscription cb |} ]) s
          else s in
        let s := setCurrentInputTranscription (fun _ => EmptyString) s in
        setCurrentOutputTranscription (fun _ => EmptyString) s
    | _ => s
    end in
  match audioData message with
  | None => Abrupt s "TypeError"
  | Some base64EncodedAudioString =>
      let scheduled :=
        match base64EncodedAudioString, outputAudioContextRef s with
        | Some (String c rest), Some _ =>
            let s := raise_floor currentTime s in
            match decode (String c rest) with
            | None => Abrupt s "InvalidCharacterError"
            | Some bytes =>
                match decodeAudioData bytes LIVE_API_OUTPUT_SAMPLE_RATE
                                      LIVE_API_AUDIO_CHANNELS with
                | None => Abrupt s "RangeError"
                | Some audioBuffer => Normal (play audioBuffer s)
                end
            end
        | _, _ => Normal s
        end in
      match scheduled with
      | Abrupt s e => Abrupt s e
      | Normal s =>
          match option_map interrupted sc with
          | Some true =>
              let s := stop_and_delete_each (sourcesRef s) s in
              let s := set_nextStartTimeRef 0%Q s in
              let s := setCurrentInputTranscription (fun _ => EmptyString) s in
              Normal (setCurrentOutputTranscription (fun _ => EmptyString) s)
          | _ => Normal s
          end
      end
  end.

(** [onerror]; [stopRecording()] takes the default [resetError = true]. *)
Definition onerror (e_type : string) (s : State) : State :=
  let s := setError (Some ("Live Session error: " ++ e_type)%string) s in
  let s := setStatusMessage "Error occurred." s in
  let s := decrementLoading s in
  stopRecording true s.

Definition string_of_N (n : N) : string :=
  NilZero.string_of_uint (N.to_uint n).

(** [onclose]; 1000 is the normal closure. *)
Definition onclose (code : N) (reason : string) (s : State) : State :=
  let s :=
    if negb (N.eqb code 1000)
    then
      let s := setError
                 (Some ("Live Session closed unexpectedly: "
                        ++ string_of_N code ++ " - " ++ reason)%string) s in
      setStatusMessage "Session closed due to error." s
    else setStatusMessage "Conversation ended." s in
  stopRecording false s.

(** *** [startRecording], between its [await]s *)

(** Up to [getUserMedia]. *)
Definition startRecording_begin (s : State) : State :=
  let s := setError None s in
  let s := setStatusMessage "Starting..." s in
  incrementLoading s.

(** The microphone was granted: the stream, the capture context and the
    capture node are stored, and the connection is requested. *)
Definition startRecording_capture (stream : MediaStream)
    (ctx : AudioContext) (n : ScriptProcessorNode) (s : State) : State :=
  let s := set_streamRef (Some stream) s in
  let s := set_inputAudioContextRef (Some ctx) s in
  set_scriptProcessorRef (Some n) s.

(** [connectLiveSession] resolved. *)
Definition startRecording_connected (session : LiveSession)
    (outputAudioContext : AudioContext) (s : State) : State :=
  let s := set_sessionRef (Some session) s in
  set_outputAudioContextRef (Some outputAudioContext) s.

(** The [catch] block: an [await] rejected with [err]. *)
Definition startRecording_catch (err_message : string) (s : State) : State :=
  let s := setError (Some ("Failed to start: " ++ err_message)%string) s in
  let s := setStatusMessage "Error starting conversation." s in
  let s := decrementLoading s in
  stopRecording false s.

End Constants.

End LiveConversationFeature.

(** ** The vocabulary of the properties *)

Module Properties.

Import GeminiService.

(** Every number of the list is below the bound. *)
Definition small (bound : N) (l : list N) : Prop :=
  Forall (fun n => (n < bound)%N) l.

(** A value an [Int16Array] element can hold. *)
Definition int16 (v : Z) : Prop := (-32768 <= v < 32768)%Z.

(** Encoding one channel and decoding the blob again, at one rate and as
    one channel. *)
Definition roundtrip (rate : positive) (samples : Float32Array)
  : option AudioBuffer :=
  match decode (data (createPcmBlob rate samples)) with
  | None => None
  | Some bytes => decodeAudioData bytes rate 1
  end.

Definition within (eps x y : Q) : Prop := (Qabs (x - y) <= eps)%Q.

(** The round trip gives back one channel of as many samples, each within
    1/32768 of the original. *)
Definition roundtrip_close (rate : positive) (samples : Float32Array) : Prop :=
  exists (buffer : AudioBuffer) (decoded : Float32Array),
    roundtrip rate samples = Some buffer
    /\ channelData buffer = [decoded]
    /\ List.length decoded = List.length samples
    /\ Forall2 (within (1 # 32768)) samples decoded.

(** The encoder in the words of the specification: scale by 32768, truncate,
    keep the low 16 bits as a signed value, write each value low byte first,
    base64 the bytes. *)
Definition wrap16 (z : Z) : Z := ((z + 32768) mod 65536 - 32768)%Z.

Definition little_endian (v : Z) : list Z := [v mod 256; (v / 256) mod 256]%Z.

Definition encodeFloatPCM (samples : list Q) : string :=
  let values := List.map (fun x => wrap16 (truncate (x * 32768)%Q)) samples in
  let bytes := flat_map little_endian values in
  Base64.btoa
    (string_of_list_ascii (List.map (fun b => ascii_of_N (Z.to_N b)) bytes)).

End Properties.

(** The vocabulary of the video-generation property. *)

Module VideoProperties.

Import VideoGeneration.

(** The world answers SDK call [k], [k+1], ... with [ops], in order. *)
Fixpoint scripted (w : World) (k : nat) (ops : list Operation) : Prop :=
  match ops with
  | [] => True
  | o :: rest => sdk_answer w k = Returned o /\ scripted w (S k) rest
  end.

(** The log of a run that requests once, polls through [pending] and ends
    on an operation without a link. *)
Definition no_link_log (params : GenerateVideosParameters)
    (initiating progress label : string) (pending : list Operation)
  : list Entry :=
  [Progressed initiating; Requested params]
    ++ flat_map (round progress) pending
    ++ [Logged label "No video download link found."].

Definition is_poll (e : Entry) : bool :=
  match e with Polled _ => true | _ => false end.

Definition is_sleep (e : Entry) : bool :=
  match e with Slept _ => true | _ => false end.

(** One request, no fetch, [polls] polls, and as many timers, each of ten
    seconds. *)
Definition paced (l : list Entry) (polls : nat) : Prop :=
  List.length (filter is_request l) = 1%nat
  /\ filter is_fetch l = []
  /\ List.length (filter is_poll l) = polls
  /\ filter is_sleep l = repeat (Slept 10000) polls.

Definition textParams (prompt : string) (aspectRatio : AspectRatio)
    (resolution : Resolution) : GenerateVideosParameters :=
  {| model := "veo-3.1-fast-generate-preview";
     prompt := prompt;
     image := None;
     numberOfVideos := 1;
     resolution := resolution;
     aspectRatio := aspectRatio |}.

Definition imageParams (prompt imageBytes imageMimeType : string)
    (aspectRatio : AspectRatio) (resolution : Resolution)
  : GenerateVideosParameters :=
  {| model := "veo-3.1-fast-generate-preview";
     prompt := prompt;
     image := Some {| imageBytes := imageBytes; image_mimeType := imageMimeType |};
     numberOfVideos := 1;
     resolution := resolution;
     aspectRatio := aspectRatio |}.

(** A world for the examples: two polls find the job running, the third
    finds it done, without a video. *)
Definition running : Operation :=
  {| done := false; metadata_state := Some "RUNNING"%string; video_uri := None |}.

Definition finished_empty : Operation :=
  {| done := true; metadata_state := None; video_uri := None |}.

Definition example_world : World :=
  {| sdk_answer := fun k => Returned (nth k [running; running] finished_empty);
     fetch_answer := fun _ => Thrown "unreachable"%string;
     blob_answer := fun _ => Thrown "unreachable"%string;
     object_url := fun _ => "blob:"%string |}.

End VideoProperties.

(** The vocabulary of the controller's properties. *)

Module LiveProperties.

Import GeminiService LiveConversationFeature.

(** Several calls, added to the log in order. *)
Definition logged (cs : list Call) (s : State) : State :=
  let '(mkState rec cin cout hist status err session stream ictx octx node
                 next sources active n log) := s in
  mkState rec cin cout hist status err session stream ictx octx node
          next sources active n (log ++ cs).

Definition when_some {A : Type} (f : A -> Call) (ref : option A) : list Call :=
  match ref with
  | Some a => [f a]
  | None => []
  end.

(** The calls one teardown makes, in order. *)
Definition released (s : State) : list Call :=
  when_some session_close (sessionRef s)
    ++ when_some scriptProcessor_disconnect (scriptProcessorRef s)
    ++ when_some tracks_stop (streamRef s)
    ++ when_some audioContext_close (inputAudioContextRef s)
    ++ when_some audioContext_close (outputAudioContextRef s)
    ++ List.map source_stop (sourcesRef s).

(** The state one teardown leaves. *)
Definition torn_down (resetError : bool) (s : State) : State :=
  {| isRecording := false;
     currentInputTranscription := EmptyString;
     currentOutputTranscription := EmptyString;
     transcriptionHistory := transcriptionHistory s;
     statusMessage := "Conversation ended.";
     error := if resetError then None else error s;
     sessionRef := None;
     streamRef := None;
     inputAudioContextRef := None;
     outputAudioContextRef := None;
     scriptProcessorRef := None;
     nextStartTimeRef := 0%Q;
     sourcesRef := [];
     activeRequests := activeRequests s;
     created := created s;
     calls := calls s ++ released s |}.

(** Messages that carry one thing. *)
Definition input_transcript (t : string) : LiveServerMessage :=
  {| serverContent :=
       Some {| outputTranscription := None;
               inputTranscription := Some {| transcription_text := Some t |};
               turnComplete := false;
               modelTurn := None;
               interrupted := false |} |}.

Definition output_transcript (t : string) : LiveServerMessage :=
  {| serverContent :=
       Some {| outputTranscription := Some {| transcription_text := Some t |};
               inputTranscription := None;
               turnComplete := false;
               modelTurn := None;
               interrupted := false |} |}.

Definition turn_complete : LiveServerMessage :=
  {| serverContent :=
       Some {| outputTranscription := None;
               inputTranscription := None;
               turnComplete := true;
               modelTurn := None;
               interrupted := false |} |}.

Definition interrupting : ServerContent :=
  {| outputTranscription := None;
     inputTranscription := None;
     turnComplete := false;
     modelTurn := None;
     interrupted := true |}.

Definition interruption : LiveServerMessage :=
  {| serverContent := Some interrupting |}.

(** The entries a turn's end adds to the history. *)
Definition committed (user model : string) : list HistoryEntry :=
  (if nonempty user then [ {| type := USER; text := user |} ] else [])
    ++ (if nonempty model then [ {| type := MODEL; text := model |} ] else []).

(** A session from the first render: the user starts, the microphone is
    granted, the connection opens and resolves, the user is heard saying
    "hello" and the model answering "hi there".  The callbacks are those of
    the render in which the user started. *)
Definition first_callbacks : Callbacks := callbacks_of initial.

Definition mid_turn (rate channels : positive) : State :=
  let s := startRecording_begin initial in
  let s := startRecording_capture 1 2 3 s in
  let s := state_of (onopen s) in
  let s := startRecording_connected 4 5 s in
  let s := state_of (onmessage rate channels first_callbacks
                               (input_transcript "hello") 0%Q s) in
  state_of (onmessage rate channels first_callbacks
                      (output_transcript "hi there") 0%Q s).

(** Scheduling buffers one after the other, each at the clock reading of
    its arrival. *)
Fixpoint schedule_all (chunks : list (Q * AudioBuffer)) (s : State) : State :=
  match chunks with
  | [] => s
  | (currentTime, audioBuffer) :: rest =>
      schedule_all rest (play audioBuffer (raise_floor currentTime s))
  end.

(** A message that carries audio only. *)
Definition audio_chunk (payload : string) : LiveServerMessage :=
  {| serverContent :=
       Some {| outputTranscription := None;
               inputTranscription := None;
               turnComplete := false;
               modelTurn :=
                 Some {| parts :=
                           Some [ {| inlineData :=
                                       Some {| inline_data := Some payload |} |} ] |};
               interrupted := false |} |}.

(** What an interruption leaves of the state [s] it arrives in: the sources
    of the active set stopped, in order, and nothing else called; the set
    empty; the floor at zero, so that the next buffer starts at the clock's
    reading; the running transcripts empty; the history as it was. *)
Definition interrupted_from (s s' : State) : Prop :=
  calls s' = calls s ++ List.map source_stop (sourcesRef s)
  /\ sourcesRef s' = []
  /\ nextStartTimeRef s' = 0%Q
  /\ currentInputTranscription s' = EmptyString
  /\ currentOutputTranscription s' = EmptyString
  /\ transcriptionHistory s' = transcriptionHistory s
  /\ forall (audioBuffer : AudioBuffer) (currentTime : Q),
       (0 <= currentTime)%Q ->
       exists source when,
         calls (play audioBuffer (raise_floor currentTime s'))
         = calls s' ++ [source_start source when]
         /\ buffer source = audioBuffer
         /\ (when == currentTime)%Q.

(** A state with two sources playing and a turn under way. *)
Definition tone : AudioBuffer :=
  {| numberOfChannels := 1; length := 2400; sampleRate := 24000;
     channelData := [[]] |}.

Definition playing : State :=
  let s := startRecording_connected 4 5 initial in
  let s := schedule_all [(0%Q, tone); (0%Q, tone)] s in
  let s := setCurrentInputTranscription (fun _ => "what is"%string) s in
  setCurrentOutputTranscription (fun _ => "The"%string) s.

End LiveProperties.

(* ------------------------------------------------------------------ *)
(** ** The playback clock in binary64

    [nextStartTimeRef.current], [currentTime] and [audioBuffer.duration] are
    doubles, and the sum that moves the floor is rounded.  The controller
    above keeps these times as rationals and adds them exactly; that is the
    code's arithmetic wherever no sum is rounded, and it is all the
    properties stated on the controller need.  The order of the playback
    intervals turns on the rounding, so the scheduling steps of [onmessage]
    are given here once more, over binary64 times.

    A time is a whole number of units of 2^-1074 seconds, the least positive
    double.  Every finite double that is not negative is such a number; the
    doubles are those of at most 53 significant bits below 2^1024 seconds.
    Neither the clock of an audio context nor the duration of a buffer is
    ever negative or NaN, so no other double comes up. *)

Module Binary64.

Local Open Scope N_scope.

Inductive time : Type :=
| finite (units : N)
| Infinity.

(** The whole number nearest to [a / b], the even one of two at the same
    distance; [b] is not 0. *)
Definition nearest_even (a b : N) : N :=
  let q := a / b in
  match 2 * (a mod b) ?= b with
  | Lt => q
  | Gt => q + 1
  | Eq => if N.even q then q else q + 1
  end.

(** The number of at most 53 significant bits nearest to [a / b] units,
    ties to even: below 2^53 units the doubles are one unit apart, from
    2^(52+s) units up to 2^(53+s) they are 2^s units apart. *)
Definition nearest_double (a b : N) : N :=
  let s := N.log2 (a / b) - 52 in
  nearest_even a (b * 2 ^ s) * 2 ^ s.

(** The double for [a / b] units, rounded to nearest, ties to even; a
    rounded value of 2^1024 seconds (2^2098 units) or more is [Infinity]. *)
Definition round (a b : N) : time :=
  let n := nearest_double a b in
  if n <? 2 ^ 2098 then finite n else Infinity.

(** [x + y] *)
Definition add (x y : time) : time :=
  match x, y with
  | finite a, finite b => round (a + b) 1
  | _, _ => Infinity
  end.

(** [Math.max(x, y)] *)
Definition max (x y : time) : time :=
  match x, y with
  | finite a, finite b => finite (N.max a b)
  | _, _ => Infinity
  end.

(** [n / d] seconds, for whole numbers [n] and [d] that doubles hold
    exactly. *)
Definition divide (n : N) (d : positive) : time :=
  round (n * 2 ^ 1074) (Npos d).

(** The time is a double. *)
Definition binary64 (x : time) : bool :=
  match x with
  | finite n => (n mod 2 ^ (N.log2 n - 52) =? 0) && (n <? 2 ^ 2098)
  | Infinity => true
  end.


End Binary64.

(** The scheduling steps of [onmessage], lines 169 and 179 to 188 of
    src/components/LiveConversationFeature.tsx, on the cells they touch. *)

Module PlaybackScheduler.

Import GeminiService.

Definition AudioBufferSourceNode : Type :=
  LiveConversationFeature.AudioBufferSourceNode.

(** [source.start(when)], with [when] in units. *)
Inductive Call : Type :=
| source_start (source : AudioBufferSourceNode) (when : N).

Record State : Type := mkState {
  nextStartTimeRef : Binary64.time;
  sourcesRef : list AudioBufferSourceNode;   (* a Set, in insertion order *)
  created : nat;
  calls : list Call
}.

(** Before the first buffer. *)
Definition initial : State :=
  {| nextStartTimeRef := Binary64.finite 0;
     sourcesRef := [];
     created := 0;
     calls := [] |}.

Inductive Completion : Type :=
| Normal (s : State)
| Abrupt (s : State) (exception : string).

Definition state_of (c : Completion) : State :=
  match c with
  | Normal s => s
  | Abrupt s _ => s
  end.

(** [audioBuffer.duration]: the platform's quotient of the length by the
    sample rate, a double. *)
Definition duration (audioBuffer : AudioBuffer) : Binary64.time :=
  Binary64.divide (N.of_nat (length audioBuffer)) (sampleRate audioBuffer).

(** [nextStartTimeRef.current = Math.max(nextStartTimeRef.current,
      outputAudioContextRef.current.currentTime)] *)
Definition raise_floor (currentTime : Binary64.time) (s : State) : State :=
  {| nextStartTimeRef := Binary64.max (nextStartTimeRef s) currentTime;
     sourcesRef := sourcesRef s;
     created := created s;
     calls := calls s |}.

(** From [createBufferSource] to [sourcesRef.current.add(source)].
    [source.start] raises a TypeError when its argument is not finite, and
    the two lines after it are not reached. *)
Definition play (audioBuffer : AudioBuffer) (s : State) : Completion :=
  let source : AudioBufferSourceNode :=
    {| LiveConversationFeature.node := created s;
       LiveConversationFeature.buffer := audioBuffer |} in
  match nextStartTimeRef s with
  | Binary64.Infinity =>
      Abrupt {| nextStartTimeRef := Binary64.Infinity;
                sourcesRef := sourcesRef s;
                created := S (created s);
                calls := calls s |}
             "TypeError"
  | Binary64.finite when =>
      Normal {| nextStartTimeRef :=
                  Binary64.add (Binary64.finite when) (duration audioBuffer);
                sourcesRef := LiveConversationFeature.add source (sourcesRef s);
                created := S (created s);
                calls := calls s ++ [source_start source when] |}
  end.

End PlaybackScheduler.

(** The vocabulary of the scheduling property. *)

Module PlaybackProperties.

Import GeminiService PlaybackScheduler.
Local Open Scope N_scope.

(** Buffers arriving one after the other, each with the clock's reading at
    its arrival; a message that raises leaves the state to the next one. *)
Fixpoint schedule_all (chunks : list (Binary64.time * AudioBuffer)) (s : State)
  : State :=
  match chunks with
  | [] => s
  | (currentTime, audioBuffer) :: rest =>
      schedule_all rest (state_of (play audioBuffer (raise_floor currentTime s)))
  end.

Definition when_of (c : Call) : N :=
  match c with source_start _ when => when end.

Definition buffer_of (c : Call) : AudioBuffer :=
  match c with
  | source_start source _ => LiveConversationFeature.buffer source
  end.

Definition duration_of (c : Call) : Binary64.time :=
  duration (buffer_of c).

Definition source_of (c : Call) : AudioBufferSourceNode :=
  match c with source_start source _ => source end.

(** The sources the controller starts, in the order of its calls. *)
Definition started_by_controller (cs : list LiveConversationFeature.Call)
  : list AudioBufferSourceNode :=
  flat_map
    (fun c =>
       match c with
       | LiveConversationFeature.source_start source _ => [source]
       | _ => []
       end)
    cs.


(** The end of the interval: the start plus the duration, not rounded. *)
Definition exact_end (c : Call) : Binary64.time :=
  match duration_of c with
  | Binary64.finite d => Binary64.finite (when_of c + d)
  | Binary64.Infinity => Binary64.Infinity
  end.


(** How far the earlier interval reaches into the later one, in units. *)
Definition overlap (earlier later : Call) : N :=
  match exact_end earlier with
  | Binary64.finite e => e - when_of later
  | Binary64.Infinity => 0
  end.


(** A tenth of a second at 24 kHz. *)
Definition tenth : AudioBuffer :=
  {| numberOfChannels := 1; length := 2400; sampleRate := 24000;
     channelData := [repeat 0%Q 2400] |}.

(** One second at 24 kHz. *)
Definition second : AudioBuffer :=
  {| numberOfChannels := 1; length := 240 * 100; sampleRate := 24000;
     channelData := [repeat 0%Q (240 * 100)] |}.

(** The double nearest to [n / d] seconds, in units. *)
Definition seconds (n : N) (d : positive) : N :=
  match Binary64.divide n d with
  | Binary64.finite units => units
  | Binary64.Infinity => 0
  end.

(** Five buffers of a tenth of a second, all arriving while the clock
    reads 0. *)
Definition five_tenths : list (Binary64.time * AudioBuffer) :=
  repeat (Binary64.finite 0, tenth) 5.

(** A double of the Standard Library's specification of IEEE 754, for the
    comparison of the two. *)
Definition to_spec (x : Binary64.time) : SpecFloat.spec_float :=
  match x with
  | Binary64.Infinity => SpecFloat.S754_infinity false
  | Binary64.finite 0 => SpecFloat.S754_zero false
  | Binary64.finite (Npos p) =>
      let s := N.log2 (Npos p) - 52 in
      match Npos p / 2 ^ s with
      | Npos m => SpecFloat.S754_finite false m (Z.of_N s - 1074)
      | 0 => SpecFloat.S754_nan
      end
  end.

Definition whole (n : N) : SpecFloat.spec_float :=
  SpecFloat.binary_normalize 53 1024 (Z.of_N n) 0 false.

Definition same (x y : SpecFloat.spec_float) : bool :=
  match x, y with
  | SpecFloat.S754_zero a, SpecFloat.S754_zero b => Bool.eqb a b
  | SpecFloat.S754_infinity a, SpecFloat.S754_infinity b => Bool.eqb a b
  | SpecFloat.S754_finite a m e, SpecFloat.S754_finite b m' e' =>
      Bool.eqb a b && Pos.eqb m m' && Z.eqb e e'
  | _, _ => false
  end.

(** Doubles of every kind: zero, subnormal, odd and even significands, the
    end of a binade, the times of the examples, one second, the greatest
    double, and [Infinity]. *)
Definition table : list Binary64.time :=
  List.map (fun p : N * N => Binary64.finite (fst p * 2 ^ snd p))
    [ (0, 0); (1, 0); (2 ^ 53 - 1, 0); (2 ^ 52 + 1, 1);
      (7205759403792794, 1018); (7205759403792794, 1019);
      (5404319552844596, 1020); (1, 1074); (2 ^ 53 - 1, 2045) ]
  ++ [Binary64.Infinity].

Definition quotients : list (N * positive) :=
  [ (2400, 24000%positive); (24000, 24000%positive); (4800, 16000%positive);
    (1, 3%positive); (2, 3%positive); (0, 5%positive) ].

End PlaybackProperties.

(* ------------------------------------------------------------------ *)
(** ** The request handlers of the other pages *)

(* ------------------------------------------------------------------ *)
(** ** Strings as the handlers test them *)

Module JsString.

Local Open Scope string_scope.

(** The code units [String.prototype.trim] strips, among those below 256:
    tab, line feed, vertical tab, form feed, carriage return, space and the
    no-break space. *)
Definition is_white_space (c : ascii) : bool :=
  let n := nat_of_ascii c in
  ((9 <=? n)%nat && (n <=? 13)%nat) || (n =? 32)%nat || (n =? 160)%nat.

Fixpoint trimStart (s : string) : string :=
  match s with
  | String c rest => if is_white_space c then trimStart rest else s
  | EmptyString => EmptyString
  end.

Definition reverse (s : string) : string :=
  string_of_list_ascii (List.rev (list_ascii_of_string s)).

(** [s.trim()] *)
Definition trim (s : string) : string :=
  reverse (trimStart (reverse (trimStart s))).

(** [s.includes(needle)] *)
Definition includes (needle s : string) : bool :=
  match index 0 needle s with
  | Some _ => true
  | None => false
  end.

(** [message || fallback]: the empty string is falsy. *)
Definition or_else (message fallback : string) : string :=
  match message with
  | EmptyString => fallback
  | _ => message
  end.

End JsString.

(* ------------------------------------------------------------------ *)
(** ** src/components/GroundingFeature.tsx: [handleGroundingSearch] *)

Module GroundingFeature.

Import JsString.
Import VideoGeneration.
Local Open Scope string_scope.

Inductive SearchType : Type := search | maps.

Record Location : Type := mkLocation {
  latitude : Q;
  longitude : Q
}.

(** [types.ts]: what a [GroundingChunk] links to. *)
Record Link : Type := mkLink {
  uri : option string;
  title : option string
}.

Record GroundingChunk : Type := mkChunk {
  chunk_web : option Link;
  chunk_maps : option Link
}.

(** What [searchGrounding] and [mapsGrounding] resolve to. *)
Record Result : Type := mkResult {
  text : string;
  result_groundingUrls : list GroundingChunk
}.

(** The calls the handler makes outside the component. *)
Inductive Call : Type :=
| searchGrounding (prompt : string)
| mapsGrounding (prompt : string) (latitude longitude : Q)
| console_error (label message : string).

Record State : Type := mkState {
  (* useState *)
  prompt : string;
  response : option string;
  groundingUrls : list GroundingChunk;
  isLoading : bool;
  error : option string;
  searchType : SearchType;
  userLocation : option Location;
  (* the loading context *)
  activeRequests : Z;
  (* calls made so far *)
  calls : list Call
}.

Definition setResponse (v : option string) (s : State) : State :=
  let '(mkState p r urls loading err type loc active log) := s in
  mkState p v urls loading err type loc active log.

Definition setGroundingUrls (v : list GroundingChunk) (s : State) : State :=
  let '(mkState p r urls loading err type loc active log) := s in
  mkState p r v loading err type loc active log.

Definition setIsLoading (v : bool) (s : State) : State :=
  let '(mkState p r urls loading err type loc active log) := s in
  mkState p r urls v err type loc active log.

Definition setError (v : option string) (s : State) : State :=
  let '(mkState p r urls loading err type loc active log) := s in
  mkState p r urls loading v type loc active log.

Definition incrementLoading (s : State) : State :=
  let '(mkState p r urls loading err type loc active log) := s in
  mkState p r urls loading err type loc
          (LoadingContext.incrementLoading active) log.

Definition decrementLoading (s : State) : State :=
  let '(mkState p r urls loading err type loc active log) := s in
  mkState p r urls loading err type loc
          (LoadingContext.decrementLoading active) log.

Definition call (c : Call) (s : State) : State :=
  let '(mkState p r urls loading err type loc active log) := s in
  mkState p r urls loading err type loc active (log ++ [c])%list.

(** What follows the awaited call: the two assignments when it resolves,
    the [catch] block when it rejects. *)
Definition settled (answer : Outcome Result) (s : State) : State :=
  match answer with
  | Returned result =>
      let s := setResponse (Some (text result)) s in
      setGroundingUrls (result_groundingUrls result) s
  | Thrown message =>
      let s := call (console_error "Grounding search failed:" message) s in
      setError
        (Some ("Failed to get grounding response: "
               ++ or_else message "Unknown error.")) s
  end.

(** The [finally] block; it also runs after the [return] inside [try]. *)
Definition finally (s : State) : State :=
  let s := setIsLoading false s in
  decrementLoading s.

(** [handleGroundingSearch]; [answer] is what the awaited service call
    settles to, when one is made. *)
Definition handleGroundingSearch (answer : Outcome Result) (s : State) : State :=
  if (trim (prompt s) =? EmptyString)%string then
    setError (Some "Please enter a query.") s
  else
    let s := setIsLoading true s in
    let s := setError None s in
    let s := setResponse None s in
    let s := setGroundingUrls [] s in
    let s := incrementLoading s in
    match searchType s with
    | search =>
        let s := call (searchGrounding (prompt s)) s in
        finally (settled answer s)
    | maps =>
        match userLocation s with
        | None =>
            let s :=
              setError
                (Some "Cannot perform Maps grounding without your location. Please enable geolocation or refresh.")
                s in
            let s := setIsLoading false s in
            let s := decrementLoading s in
            finally s
        | Some location =>
            let s :=
              call (mapsGrounding (prompt s) (latitude location) (longitude location)) s in
            finally (settled answer s)
        end
    end.

End GroundingFeature.

(* ------------------------------------------------------------------ *)
(** ** src/unnamed/part_003, the TTSFeature component:
       [handleGenerateAndPlaySpeech] *)

Module TTSFeature.

Import JsString.
Import GeminiService.
Local Open Scope string_scope.

(** Platform objects are known by identity. *)
Definition AudioContext : Type := nat.

Record AudioBufferSourceNode : Type := mkSource {
  node : nat;
  buffer : AudioBuffer
}.

(** The calls the handler makes outside the component. *)
Inductive Call : Type :=
| source_stop (source : AudioBufferSourceNode)
| audioContext_close (ctx : AudioContext)
| generateSpeech (text voiceName : string)
| new_AudioContext (ctx : AudioContext) (sampleRate : positive)
| source_connect (source : AudioBufferSourceNode) (ctx : AudioContext)
| source_start (source : AudioBufferSourceNode)
| console_error (label message : string).

Record State : Type := mkState {
  (* useState *)
  text : string;
  selectedVoice : string;
  isLoading : bool;
  error : option string;
  (* useRef *)
  audioContextRef : option AudioContext;
  audioSourceRef : option AudioBufferSourceNode;
  (* the platform: objects created so far, calls made so far *)
  created : nat;
  calls : list Call
}.

Definition setIsLoading (v : bool) (s : State) : State :=
  let '(mkState t voice loading err ctx source n log) := s in
  mkState t voice v err ctx source n log.

Definition setError (v : option string) (s : State) : State :=
  let '(mkState t voice loading err ctx source n log) := s in
  mkState t voice loading v ctx source n log.

Definition set_audioContextRef (v : option AudioContext) (s : State) : State :=
  let '(mkState t voice loading err ctx source n log) := s in
  mkState t voice loading err v source n log.

Definition set_audioSourceRef (v : option AudioBufferSourceNode) (s : State) : State :=
  let '(mkState t voice loading err ctx source n log) := s in
  mkState t voice loading err ctx v n log.

Definition set_created (v : nat) (s : State) : State :=
  let '(mkState t voice loading err ctx source n log) := s in
  mkState t voice loading err ctx source v log.

Definition call (c : Call) (s : State) : State :=
  let '(mkState t voice loading err ctx source n log) := s in
  mkState t voice loading err ctx source n (log ++ [c])%list.

(** The state a block ends in, and the message of the exception when it
    ends by one. *)
Inductive Completion : Type :=
| Normal (s : State)
| Abrupt (s : State) (message : string).

Section Constants.

(** [constants.ts] *)
Variable LIVE_API_OUTPUT_SAMPLE_RATE : positive.
Variable LIVE_API_AUDIO_CHANNELS : positive.

(** The messages the platform gives the exception of [atob] and the
    exception of [new Int16Array] on a buffer of odd length. *)
Variable InvalidCharacterError : string.
Variable RangeError : string.

(** The [try] block from the resolved [generateSpeech] on. *)
Definition playSpeech (base64Audio : string) (s : State) : Completion :=
  let ctx : AudioContext := created s in
  let s := set_created (S (created s)) s in
  let s := call (new_AudioContext ctx LIVE_API_OUTPUT_SAMPLE_RATE) s in
  let s := set_audioContextRef (Some ctx) s in
  match decode base64Audio with
  | None => Abrupt s InvalidCharacterError
  | Some bytes =>
      match decodeAudioData bytes LIVE_API_OUTPUT_SAMPLE_RATE
                            LIVE_API_AUDIO_CHANNELS with
      | None => Abrupt s RangeError
      | Some audioBuffer =>
          let source := {| node := created s; buffer := audioBuffer |} in
          let s := set_created (S (created s)) s in
          let s := call (source_connect source ctx) s in
          let s := call (source_start source) s in
          Normal (set_audioSourceRef (Some source) s)
      end
  end.

(** The [try] block; [answer] is what the awaited [generateSpeech] settles
    to. *)
Definition attempt (answer : VideoGeneration.Outcome string) (s : State) : Completion :=
  let s :=
    match audioSourceRef s with
    | Some source =>
        let s := call (source_stop source) s in
        set_audioSourceRef None s
    | None => s
    end in
  let s :=
    match audioContextRef s with
    | Some ctx => call (audioContext_close ctx) s
    | None => s
    end in
  let s := call (generateSpeech (text s) (selectedVoice s)) s in
  match answer with
  | VideoGeneration.Thrown message => Abrupt s message
  | VideoGeneration.Returned base64Audio => playSpeech base64Audio s
  end.

(** [handleGenerateAndPlaySpeech] *)
Definition handleGenerateAndPlaySpeech
    (answer : VideoGeneration.Outcome string) (s : State) : State :=
  if (trim (text s) =? EmptyString)%string then
    setError (Some "Please enter some text to convert to speech.") s
  else
    let s := setIsLoading true s in
    let s := setError None s in
    let s :=
      match attempt answer s with
      | Normal s => s
      | Abrupt s message =>
          let s := call (console_error "Text-to-Speech failed:" message) s in
          setError
            (Some ("Failed to generate speech: "
                   ++ or_else message "Unknown error.")) s
      end in
    setIsLoading false s.

End Constants.

End TTSFeature.

Module TTSProperties.

Import TTSFeature.

(** The calls of the handler's first two steps: stop what plays, close the
    context in the cell. *)
Definition released (s : State) : list Call :=
  match audioSourceRef s with
  | Some source => [source_stop source]
  | None => []
  end
  ++ match audioContextRef s with
     | Some ctx => [audioContext_close ctx]
     | None => []
     end.

(** A component with text to speak. *)
Definition speaking : State :=
  {| text := "hello";
     selectedVoice := "Zephyr";
     isLoading := false;
     error := None;
     audioContextRef := None;
     audioSourceRef := None;
     created := 0;
     calls := [] |}.

End TTSProperties.

(* ------------------------------------------------------------------ *)
(** ** src/components/LoadingBar.tsx, the service module: [blobToBase64] *)

Module BlobReader.

Local Open Scope string_scope.

(** [s.split(sep)] for a separator of one character: the pieces between the
    separators, never an empty list. *)
Fixpoint split (sep : ascii) (s : string) : list string :=
  match s with
  | EmptyString => [EmptyString]
  | String c rest =>
      if Ascii.eqb c sep then EmptyString :: split sep rest
      else
        match split sep rest with
        | piece :: pieces => String c piece :: pieces
        | [] => [String c EmptyString]
        end
  end.

(** What a [FileReader] has to show when [readAsDataURL] is over: whether
    its [error] event fired (it does before [loadend]), and [result]. *)
Record FileRead : Type := mkRead {
  onerror_fired : bool;
  result : option string
}.

(** What a promise is rejected with: an [Error] carrying a message, or a
    value with no [message] property: a plain string, an event. *)
Inductive Reason : Type :=
| Error (message : string)
| plain (value : string)
| event.

(** [err.message] *)
Definition message_of (err : Reason) : option string :=
  match err with
  | Error message => Some message
  | plain _ | event => None
  end.

Inductive Settled (A : Type) : Type :=
| Resolved (a : A)
| Rejected (err : Reason).
Arguments Resolved {A} a.
Arguments Rejected {A} err.

(** [blobToBase64]: the promise settles once; [onerror] rejects with the
    event, [onloadend] resolves with the piece after the first comma when
    that piece is not empty, and rejects with a string otherwise. *)
Definition blobToBase64 (read : FileRead) : Settled string :=
  if onerror_fired read then Rejected event
  else
    match result read with
    | Some dataURL =>
        match nth_error (split ","%char dataURL) 1 with
        | Some (String c rest) => Resolved (String c rest)
        | _ => Rejected (plain "Failed to convert blob to base64")
        end
    | None => Rejected (plain "Failed to convert blob to base64")
    end.

End BlobReader.

(* ------------------------------------------------------------------ *)
(** ** src/unnamed/part_000, the VideoGenerationFeature component:
       [handleGenerateVideo] *)

Module VideoGenerationFeature.

Import ITree.ITree.
Import JsString.
Import BlobReader.
Import VideoGeneration.
Local Open Scope string_scope.

(** What the handler reads of the selected file: its [type], and what a
    reader gets from it. *)
Record File : Type := mkFile {
  file_type : string;
  file_read : FileRead
}.

Record State : Type := mkState {
  (* useState *)
  prompt : string;
  selectedImageFile : option File;
  aspectRatio : AspectRatio;
  resolution : Resolution;
  generatedVideoUrl : option string;
  isLoading : bool;
  loadingMessage : string;
  error : option string;
  apiKeySelected : bool;
  (* the loading context *)
  activeRequests : Z;
  (* [console.error] of the handler: the label and the value's message *)
  console : list (string * option string)
}.

Definition setGeneratedVideoUrl (v : option string) (s : State) : State :=
  let '(mkState p file ratio res url loading msg err selected active log) := s in
  mkState p file ratio res v loading msg err selected active log.

Definition setIsLoading (v : bool) (s : State) : State :=
  let '(mkState p file ratio res url loading msg err selected active log) := s in
  mkState p file ratio res url v msg err selected active log.

Definition setLoadingMessage (v : string) (s : State) : State :=
  let '(mkState p file ratio res url loading msg err selected active log) := s in
  mkState p file ratio res url loading v err selected active log.

Definition setError (v : option string) (s : State) : State :=
  let '(mkState p file ratio res url loading msg err selected active log) := s in
  mkState p file ratio res url loading msg v selected active log.

Definition setApiKeySelected (v : bool) (s : State) : State :=
  let '(mkState p file ratio res url loading msg err selected active log) := s in
  mkState p file ratio res url loading msg err v active log.

Definition incrementLoading (s : State) : State :=
  let '(mkState p file ratio res url loading msg err selected active log) := s in
  mkState p file ratio res url loading msg err selected
          (LoadingContext.incrementLoading active) log.

Definition decrementLoading (s : State) : State :=
  let '(mkState p file ratio res url loading msg err selected active log) := s in
  mkState p file ratio res url loading msg err selected
          (LoadingContext.decrementLoading active) log.

Definition console_error (label : string) (err : Reason) (s : State) : State :=
  let '(mkState p file ratio res url loading msg err' selected active log) := s in
  mkState p file ratio res url loading msg err' selected active
          (log ++ [(label, message_of err)])%list.

(** A text between double quotes. *)
Definition quoted (s : string) : string :=
  String (ascii_of_nat 34) s ++ String (ascii_of_nat 34) EmptyString.

(** The service reports through [onProgress], which is [setLoadingMessage]:
    the messages of a run, applied in order. *)
Definition progressed (r : Run) (s : State) : State :=
  fold_left
    (fun s entry =>
       match entry with
       | Progressed message => setLoadingMessage message s
       | _ => s
       end)
    (log r) s.

(** The [catch] block. *)
Definition catch (err : Reason) (s : State) : State :=
  let s := console_error "Video generation failed:" err s in
  let s :=
    match message_of err with
    | Some (String c rest as message) =>
        if includes "Requested entity was not found." message then
          let s :=
            setError
              (Some "Video generation failed due to an API key issue. Please re-select your API key.")
              s in
          setApiKeySelected false s
        else
          setError (Some ("Failed to generate video: " ++ message)) s
    | _ => setError (Some ("Failed to generate video: " ++ "Unknown error.")) s
    end in
  setLoadingMessage "Video generation failed." s.

(** The [finally] block. *)
Definition finally (s : State) : State :=
  let s := setIsLoading false s in
  decrementLoading s.

(** The handler from the settled service call on. *)
Definition settled (finished : Run * Outcome string) (s : State) : State :=
  let s := progressed (fst finished) s in
  match snd finished with
  | Returned videoUrl =>
      let s := setGeneratedVideoUrl (Some videoUrl) s in
      let s := setLoadingMessage "Video generation complete!" s in
      finally s
  | Thrown message => finally (catch (Error message) s)
  end.

(** [handleGenerateVideo].  The service is run in the world [w] with the key
    of the environment; the handler goes on when the run is over. *)
Definition handleGenerateVideo (w : World) (API_KEY : option string)
    (s : State) : itree void1 State :=
  if negb (apiKeySelected s) then
    Ret (setError
           (Some ("An API key must be selected to generate videos. Please click "
                  ++ quoted "Select API Key" ++ "."))
           s)
  else if ((trim (prompt s) =? EmptyString)%string
           && match selectedImageFile s with Some _ => false | None => true end)%bool
  then
    Ret (setError
           (Some "Please enter a prompt or upload an image to generate a video.") s)
  else
    let s := setIsLoading true s in
    let s := setLoadingMessage "Starting video generation..." s in
    let s := setError None s in
    let s := setGeneratedVideoUrl None s in
    let s := incrementLoading s in
    match selectedImageFile s with
    | Some file =>
        match blobToBase64 (file_read file) with
        | Rejected err => Ret (finally (catch err s))
        | Resolved base64Image =>
            ITree.bind
              (run w (generateVideoFromImage API_KEY (prompt s) base64Image
                        (file_type file) (aspectRatio s) (resolution s)))
              (fun finished => Ret (settled finished s))
        end
    | None =>
        ITree.bind
          (run w (generateVideoFromText API_KEY (prompt s)
                    (aspectRatio s) (resolution s)))
          (fun finished => Ret (settled finished s))
    end.

End VideoGenerationFeature.

Module HandlerProperties.

Local Open Scope string_scope.

(** The string has the character. *)
Definition has (c : ascii) (s : string) : bool :=
  existsb (Ascii.eqb c) (list_ascii_of_string s).

(** A page ready to ask for a video from its prompt. *)
Definition asking : VideoGenerationFeature.State :=
  {| VideoGenerationFeature.prompt := "a cat";
     VideoGenerationFeature.selectedImageFile := None;
     VideoGenerationFeature.aspectRatio := VideoGeneration.AR_16_9;
     VideoGenerationFeature.resolution := VideoGeneration.Res_720p;
     VideoGenerationFeature.generatedVideoUrl := Some "blob:old";
     VideoGenerationFeature.isLoading := false;
     VideoGenerationFeature.loadingMessage := EmptyString;
     VideoGenerationFeature.error := None;
     VideoGenerationFeature.apiKeySelected := true;
     VideoGenerationFeature.activeRequests := 1;
     VideoGenerationFeature.console := [] |}.

(** What the handler reads before it calls the service: nothing stops it,
    and the image, when there is one, can be read. *)
Definition ready (s : VideoGenerationFeature.State) : Prop :=
  VideoGenerationFeature.apiKeySelected s = true
  /\ match VideoGenerationFeature.selectedImageFile s with
     | Some file =>
         exists base64Image,
           BlobReader.blobToBase64 (VideoGenerationFeature.file_read file)
           = BlobReader.Resolved base64Image
     | None => JsString.trim (VideoGenerationFeature.prompt s) <> EmptyString
     end.

(** The attempt fails with [err]: the image cannot be read, or the provider
    rejects the request or a poll after some reports of a job not done. *)
Inductive fails (w : VideoGeneration.World) (API_KEY : option string)
    (s : VideoGenerationFeature.State) : BlobReader.Reason -> Prop :=
| unreadable (file : VideoGenerationFeature.File) (err : BlobReader.Reason) :
    VideoGenerationFeature.selectedImageFile s = Some file ->
    BlobReader.blobToBase64 (VideoGenerationFeature.file_read file)
    = BlobReader.Rejected err ->
    fails w API_KEY s err
| rejected (key e : string) (pending : list VideoGeneration.Operation) :
    ready s ->
    VideoGeneration.truthy API_KEY = Some key ->
    VideoProperties.scripted w 0 pending ->
    Forall (fun o => VideoGeneration.done o = false) pending ->
    VideoGeneration.sdk_answer w (List.length pending) = VideoGeneration.Thrown e ->
    fails w API_KEY s (BlobReader.Error e).

(** The failure is read as a problem with the key. *)
Definition key_issue (err : BlobReader.Reason) : bool :=
  match BlobReader.message_of err with
  | Some message => JsString.includes "Requested entity was not found." message
  | None => false
  end.

(** What the page shows for a failure. *)
Definition shown (err : BlobReader.Reason) : string :=
  if key_issue err then
    "Video generation failed due to an API key issue. Please re-select your API key."
  else
    "Failed to generate video: "
    ++ match BlobReader.message_of err with
       | Some (String c rest) => String c rest
       | _ => "Unknown error."
       end.

End HandlerProperties.

(* ------------------------------------------------------------------ *)
(** ** More vocabulary *)

(** ** More vocabulary: the PCM helpers *)

Module CodecProperties.

Import GeminiService.

(** A sample of the range the decoder restores. *)
Definition unit_range (y : Q) : Prop := (-1 <= y)%Q /\ (y < 1)%Q.

(** The frames of a buffer, one after the other, each with its channels in
    order: the layout the decoder reads from. *)
Definition interleave (frameCount : nat) (channels : list Float32Array) : list Q :=
  flat_map (fun i => List.map (fun channel => nth i channel 0%Q) channels)
           (seq 0 frameCount).

(** The 16-bit values of a byte array, when its length is even. *)
Definition values_of (bytes : Uint8Array) : Int16Array :=
  match Int16Array_of_buffer bytes with
  | Some vs => vs
  | None => []
  end.

(** The characters [btoa] makes of bytes, padding included. *)
Definition sextets_of_bytes_padded (bs : list N) : list ascii :=
  let groups := Base64.sextets_of_bytes bs in
  List.map Base64.sextet_char groups ++ Base64.padding (List.length groups).

End CodecProperties.

(** ** More vocabulary: the loading counter *)

Module LoadingProperties.

Import LoadingContext.

(** Increments minus decrements. *)
Fixpoint net (calls : list Call) : Z :=
  match calls with
  | [] => 0%Z
  | Increment :: rest => (1 + net rest)%Z
  | Decrement :: rest => (-1 + net rest)%Z
  end.

End LoadingProperties.

(** ** More vocabulary: the controller *)

Module LiveMore.

Import GeminiService LiveConversationFeature LiveProperties.

(** The strings of a list, one after the other. *)
Definition joined (l : list string) : string :=
  fold_right String.append EmptyString l.

(** Messages handled one after the other, each at its clock reading; a
    handler that raises leaves the state it had reached. *)
Fixpoint receive_all (rate channels : positive) (cb : Callbacks)
    (events : list (LiveServerMessage * Q)) (s : State) : State :=
  match events with
  | [] => s
  | (message, currentTime) :: rest =>
      receive_all rate channels cb rest
        (state_of (onmessage rate channels cb message currentTime s))
  end.

(** The first two steps of [onmessage]: the transcript delta, then the end
    of the turn. *)
Definition after_transcripts (message : LiveServerMessage) (s : State) : State :=
  match option_map outputTranscription (serverContent message) with
  | Some (Some t) => setCurrentOutputTranscription (append_text t) s
  | _ =>
      match option_map inputTranscription (serverContent message) with
      | Some (Some t) => setCurrentInputTranscription (append_text t) s
      | _ => s
      end
  end.

Definition after_turn (cb : Callbacks) (message : LiveServerMessage)
    (s : State) : State :=
  match option_map turnComplete (serverContent message) with
  | Some true =>
      let s :=
        if nonempty (seen_currentInputTranscription cb)
        then setTranscriptionHistory
               (fun prev => prev ++ [ {| type := USER;
                                         text := seen_currentInputTranscription cb |} ]) s
        else s in
      let s :=
        if nonempty (seen_currentOutputTranscription cb)
        then setTranscriptionHistory
               (fun prev => prev ++ [ {| type := MODEL;
                                         text := seen_currentOutputTranscription cb |} ]) s
        else s in
      let s := setCurrentInputTranscription (fun _ => EmptyString) s in
      setCurrentOutputTranscription (fun _ => EmptyString) s
  | _ => s
  end.

(** A message with both transcript deltas. *)
Definition both_transcripts (out inp : string) : LiveServerMessage :=
  {| serverContent :=
       Some {| outputTranscription := Some {| transcription_text := Some out |};
               inputTranscription := Some {| transcription_text := Some inp |};
               turnComplete := false;
               modelTurn := None;
               interrupted := false |} |}.

(** A message with audio, which may interrupt as well. *)
Definition audio_with (payload : string) (interrupt : bool) : LiveServerMessage :=
  {| serverContent :=
       Some {| outputTranscription := None;
               inputTranscription := None;
               turnComplete := false;
               modelTurn :=
                 Some {| parts :=
                           Some [ {| inlineData :=
                                       Some {| inline_data := Some payload |} |} ] |};
               interrupted := interrupt |} |}.

(** A message whose model turn has no parts at all. *)
Definition without_parts (out inp : option Transcription)
    (complete interrupt : bool) : LiveServerMessage :=
  {| serverContent :=
       Some {| outputTranscription := out;
               inputTranscription := inp;
               turnComplete := complete;
               modelTurn := Some {| parts := None |};
               interrupted := interrupt |} |}.

(** The active set holds nodes that were created, each once. *)
Definition fresh (s : State) : Prop :=
  Forall (fun source => (node source < created s)%nat) (sourcesRef s)
  /\ NoDup (List.map node (sourcesRef s)).

(** The parts of the state that playback lives in. *)
Definition playback_untouched (s s' : State) : Prop :=
  calls s' = calls s
  /\ sourcesRef s' = sourcesRef s
  /\ created s' = created s.

(** A session up to [onopen]. *)
Definition opened (stream : MediaStream) (ctx : AudioContext)
    (n : ScriptProcessorNode) (s : State) : State :=
  state_of (onopen (startRecording_capture stream ctx n (startRecording_begin s))).

End LiveMore.

(** ** More vocabulary: video generation *)

Module VideoMore.

Import ITree.ITree.
Import ITreeNotations.
Import VideoGeneration VideoProperties.
Local Open Scope itree_scope.
Local Open Scope string_scope.

(** What the methods do with the operation the polling ended on. *)
Definition after_polling (key complete : string) (operation : Operation)
  : Method :=
  match truthy (video_uri operation) with
  | None => Ret (Thrown "No video download link found.")
  | Some downloadLink =>
      ITree.trigger (OnProgress complete) ;;
      await (ITree.trigger (Fetch (downloadLink ++ "&key=" ++ key)))
        (fun videoResponse =>
      if ok videoResponse then
        await (ITree.trigger (ResponseBlob videoResponse)) (fun videoBlob =>
        url <- ITree.trigger (CreateObjectURL videoBlob) ;;
        Ret (Returned url))
      else
        Ret (Thrown ("Failed to fetch video: " ++ statusText videoResponse)))
  end.

(** The log up to the end of the polling. *)
Definition polled_log (params : GenerateVideosParameters)
    (initiating progress : string) (pending : list Operation) : list Entry :=
  [Progressed initiating; Requested params] ++ flat_map (round progress) pending.

(** The messages of the two methods. *)
Record Wording : Type := mkWording {
  initiating : string;
  progress : string;
  complete : string;
  label : string
}.

Definition text_wording : Wording :=
  {| initiating := "Initiating video generation...";
     progress := "Video generation in progress...";
     complete := "Video generation complete. Fetching video...";
     label := "Error generating video:" |}.

Definition image_wording : Wording :=
  {| initiating := "Initiating video generation from image...";
     progress := "Video generation from image in progress...";
     complete := "Video generation from image complete. Fetching video...";
     label := "Error generating video from image:" |}.

(** Both methods end in the same run, each with its request and wording. *)
Definition both_end (w : World) (API_KEY : option string)
    (prompt imageBytes imageMimeType : string)
    (aspectRatio : AspectRatio) (resolution : Resolution)
    (calls : nat) (outcome : Outcome string)
    (log_of : GenerateVideosParameters -> Wording -> list Entry) : Prop :=
  ITree.Eq.Eqit.eutt eq
    (run w (generateVideoFromText API_KEY prompt aspectRatio resolution))
    (Ret ({| sdk_calls := calls;
             log := log_of (textParams prompt aspectRatio resolution) text_wording |},
          outcome))
  /\ ITree.Eq.Eqit.eutt eq
       (run w (generateVideoFromImage API_KEY prompt imageBytes imageMimeType
                 aspectRatio resolution))
       (Ret ({| sdk_calls := calls;
                log := log_of (imageParams prompt imageBytes imageMimeType
                                 aspectRatio resolution) image_wording |},
             outcome)).

(** Worlds for the examples. *)
Definition finished_with_link : Operation :=
  {| done := true; metadata_state := None; video_uri := Some "https://v/1?x=1" |}.

Definition good_response : Response :=
  {| ok := true; statusText := "OK"; response_id := 7 |}.

Definition bad_response : Response :=
  {| ok := false; statusText := "Forbidden"; response_id := 8 |}.

Definition serving (r : Response) : World :=
  {| sdk_answer := fun k => Returned (nth k [running] finished_with_link);
     fetch_answer := fun _ => Returned r;
     blob_answer := fun _ => Returned 42%nat;
     object_url := fun _ => "blob:video" |}.

Definition failing_after (n : nat) : World :=
  {| sdk_answer := fun k => if Nat.ltb k n then Returned running
                            else Thrown "Requested entity was not found.";
     fetch_answer := fun _ => Thrown "unreachable";
     blob_answer := fun _ => Thrown "unreachable";
     object_url := fun _ => "blob:" |}.

End VideoMore.

(* ===================================================================== *)
(** * Part II: what the code guarantees                                   *)
(* ===================================================================== *)

(** ** Tactics *)

(** Linear arithmetic with quotients and remainders by constants. *)
Ltac divlia := zify; Z.to_euclidean_division_equations; lia.

(** Runs the assignments to single cells and the reads of cells, sharing
    the state they are applied to. *)
Ltac cells :=
  lazy beta iota zeta delta
    [ LiveConversationFeature.setIsRecording
       LiveConversationFeature.setCurrentInputTranscription
       LiveConversationFeature.setCurrentOutputTranscription
       LiveConversationFeature.setTranscriptionHistory
       LiveConversationFeature.setStatusMessage
       LiveConversationFeature.setError LiveConversationFeature.set_sessionRef
       LiveConversationFeature.set_streamRef
       LiveConversationFeature.set_inputAudioContextRef
       LiveConversationFeature.set_outputAudioContextRef
       LiveConversationFeature.set_scriptProcessorRef
       LiveConversationFeature.set_nextStartTimeRef
       LiveConversationFeature.set_sourcesRef
       LiveConversationFeature.setActiveRequests
       LiveConversationFeature.set_created LiveConversationFeature.call
       LiveConversationFeature.incrementLoading
       LiveConversationFeature.decrementLoading
       LiveConversationFeature.isRecording
       LiveConversationFeature.currentInputTranscription
       LiveConversationFeature.currentOutputTranscription
       LiveConversationFeature.transcriptionHistory
       LiveConversationFeature.statusMessage LiveConversationFeature.error
       LiveConversationFeature.sessionRef LiveConversationFeature.streamRef
       LiveConversationFeature.inputAudioContextRef
       LiveConversationFeature.outputAudioContextRef
       LiveConversationFeature.scriptProcessorRef
       LiveConversationFeature.nextStartTimeRef
       LiveConversationFeature.sourcesRef
       LiveConversationFeature.activeRequests LiveConversationFeature.created
       LiveConversationFeature.calls LiveConversationFeature.state_of
       LiveProperties.logged ].

(** ** The loading counter *)

Lemma run_snoc calls c n :
  LoadingContext.run (calls ++ [c]) n
  = LoadingContext.apply c (LoadingContext.run calls n).
Proof.
  unfold LoadingContext.run. rewrite fold_left_app. reflexivity.
Qed.

Lemma apply_nonneg c n : (0 <= n)%Z -> (0 <= LoadingContext.apply c n)%Z.
Proof.
  destruct c; cbn;
    unfold LoadingContext.incrementLoading, LoadingContext.decrementLoading; lia.
Qed.

Lemma run_nonneg calls : forall n, (0 <= n)%Z -> (0 <= LoadingContext.run calls n)%Z.
Proof.
  induction calls as [|c calls IH] using rev_ind; intros n Hn.
  - exact Hn.
  - rewrite run_snoc. apply apply_nonneg, IH, Hn.
Qed.

(** C10.  Whatever calls are made and however many of them have been applied,
    the counter is not negative; a decrement at zero leaves zero; and the
    loading flag is on exactly when the counter is positive. *)
Theorem C10_counter_never_negative :
  forall (calls : list LoadingContext.Call) (k : nat),
    let n := LoadingContext.run (firstn k calls)
                                LoadingContext.initialActiveRequests in
    (0 <= n)%Z
    /\ LoadingContext.decrementLoading 0 = 0%Z
    /\ (LoadingContext.isLoading n = true <-> (0 < n)%Z).
Proof.
  intros calls k n. split; [|split].
  - apply run_nonneg. unfold LoadingContext.initialActiveRequests. lia.
  - reflexivity.
  - unfold LoadingContext.isLoading. apply Z.ltb_lt.
Qed.

(** ** Base64: decoding undoes encoding *)

Section Base64Facts.

Import Base64 Properties.

(** Lists three elements at a time. *)
Lemma list_ind3 (A : Type) (P : list A -> Prop) :
  P [] ->
  (forall a, P [a]) ->
  (forall a b, P [a; b]) ->
  (forall a b c rest, P rest -> P (a :: b :: c :: rest)) ->
  forall l, P l.
Proof.
  intros H0 H1 H2 H3.
  assert (forall l, P l /\ (forall a, P (a :: l)) /\ (forall a b, P (a :: b :: l)))
    as Hall.
  { induction l as [|x l (Hl & Hl1 & Hl2)].
    - auto.
    - repeat split; auto. }
  intros l. apply Hall.
Qed.

Lemma sextet_table :
  forallb (fun k =>
             match char_sextet (sextet_char (N.of_nat k)) with
             | Some m => (N.eqb m (N.of_nat k)
                          && negb (is_ascii_whitespace (sextet_char (N.of_nat k)))
                          && negb (Ascii.eqb (sextet_char (N.of_nat k)) pad))%bool
             | None => false
             end)
          (seq 0 64) = true.
Proof. vm_compute. reflexivity. Qed.

Lemma sextet_char_facts n :
  (n < 64)%N ->
  char_sextet (sextet_char n) = Some n
  /\ is_ascii_whitespace (sextet_char n) = false
  /\ Ascii.eqb (sextet_char n) pad = false.
Proof.
  intros Hn.
  pose proof (proj1 (forallb_forall _ _) sextet_table (N.to_nat n)) as H.
  assert (In (N.to_nat n) (seq 0 64)) as Hin by (apply in_seq; lia).
  specialize (H Hin). cbv beta in H. rewrite N2Nat.id in H.
  destruct (char_sextet (sextet_char n)) as [m|]; [|discriminate].
  apply andb_prop in H. destruct H as [H Hpad].
  apply andb_prop in H. destruct H as [Hm Hws].
  apply N.eqb_eq in Hm. subst m.
  repeat split.
  - now apply negb_true_iff in Hws.
  - now apply negb_true_iff in Hpad.
Qed.

Lemma sextets_small bs : small 256 bs -> small 64 (sextets_of_bytes bs).
Proof.
  unfold small. induction bs as [| a | a b | a b c rest IH] using list_ind3;
    intros H; cbn [sextets_of_bytes].
  - constructor.
  - inversion H; subst. repeat (apply Forall_cons; [divlia|]). apply Forall_nil.
  - inversion H as [|? ? Ha H']; subst. inversion H'; subst.
    repeat (apply Forall_cons; [divlia|]). apply Forall_nil.
  - inversion H as [|? ? Ha H1]; subst.
    inversion H1 as [|? ? Hb H2]; subst.
    inversion H2 as [|? ? Hc H3]; subst.
    repeat (apply Forall_cons; [divlia|]). auto.
Qed.

Lemma bytes_of_sextets_of_bytes bs :
  small 256 bs -> bytes_of_sextets (sextets_of_bytes bs) = bs.
Proof.
  unfold small. induction bs as [| a | a b | a b c rest IH] using list_ind3;
    intros H; cbn [sextets_of_bytes bytes_of_sextets].
  - reflexivity.
  - inversion H; subst. f_equal. divlia.
  - inversion H as [|? ? Ha H']; subst. inversion H'; subst.
    f_equal; [divlia|]. f_equal. divlia.
  - inversion H as [|? ? Ha H1]; subst.
    inversion H1 as [|? ? Hb H2]; subst.
    inversion H2 as [|? ? Hc H3]; subst.
    rewrite IH by assumption.
    f_equal; [divlia|]. f_equal; [divlia|]. f_equal. divlia.
Qed.

Lemma sextets_length_mod bs :
  let r := Nat.modulo (List.length (sextets_of_bytes bs)) 4 in
  r = 0%nat \/ r = 2%nat \/ r = 3%nat.
Proof.
  induction bs as [| a | a b | a b c rest IH] using list_ind3;
    cbn [sextets_of_bytes List.length]; auto.
  cbv zeta in IH |- *.
  replace (S (S (S (S (List.length (sextets_of_bytes rest))))))
    with (List.length (sextets_of_bytes rest) + 1 * 4)%nat by lia.
  rewrite Nat.Div0.mod_add. exact IH.
Qed.

Lemma padded_length n :
  let r := Nat.modulo n 4 in
  r = 0%nat \/ r = 2%nat \/ r = 3%nat ->
  Nat.modulo (n + List.length (padding n)) 4 = 0%nat.
Proof.
  intros r Hr. unfold padding. fold r.
  pose proof (Nat.div_mod_eq n 4) as Hn. fold r in Hn.
  destruct Hr as [Hr | [Hr | Hr]]; rewrite Hr in *; cbn [List.length].
  - rewrite Nat.add_0_r. exact Hr.
  - replace (n + 2)%nat with (0 + (S (n / 4)) * 4)%nat by lia.
    apply Nat.Div0.mod_add.
  - replace (n + 1)%nat with (0 + (S (n / 4)) * 4)%nat by lia.
    apply Nat.Div0.mod_add.
Qed.

Lemma padding_cases n :
  padding n = [] \/ padding n = [pad] \/ padding n = [pad; pad].
Proof.
  unfold padding.
  destruct (Nat.modulo n 4) as [|[|[|[|?]]]]; auto.
Qed.

Lemma strip_padding_app cs p :
  Forall (fun c => Ascii.eqb c pad = false) cs ->
  p = [] \/ p = [pad] \/ p = [pad; pad] ->
  strip_padding (cs ++ p) = cs.
Proof.
  intros Hcs Hp. induction Hcs as [|c cs Hc _ IH].
  - destruct Hp as [-> | [-> | ->]]; reflexivity.
  - rewrite <- app_comm_cons. cbn [strip_padding]. rewrite Hc. cbn [andb]. now rewrite IH.
Qed.

Lemma filter_all (A : Type) (f : A -> bool) l :
  Forall (fun x => f x = true) l -> filter f l = l.
Proof.
  induction 1 as [|x l Hx _ IH]; cbn; [reflexivity|].
  now rewrite Hx, IH.
Qed.

Lemma all_sextets_chars ss :
  small 64 ss -> all_sextets (List.map sextet_char ss) = Some ss.
Proof.
  induction 1 as [|n ss Hn _ IH]; cbn [List.map all_sextets]; [reflexivity|].
  destruct (sextet_char_facts _ Hn) as (-> & _ & _). now rewrite IH.
Qed.

Lemma chars_not_pad ss :
  small 64 ss ->
  Forall (fun c => Ascii.eqb c pad = false) (List.map sextet_char ss).
Proof.
  induction 1 as [|n ss Hn _ IH]; cbn [List.map]; constructor; auto.
  apply (sextet_char_facts _ Hn).
Qed.

Lemma chars_not_whitespace ss p :
  small 64 ss ->
  p = [] \/ p = [pad] \/ p = [pad; pad] ->
  Forall (fun c => negb (is_ascii_whitespace c) = true)
         (List.map sextet_char ss ++ p).
Proof.
  intros Hss Hp. apply Forall_app. split.
  - induction Hss as [|n ss Hn _ IH]; cbn [List.map]; constructor; auto.
    destruct (sextet_char_facts _ Hn) as (_ & -> & _). reflexivity.
  - destruct Hp as [-> | [-> | ->]]; repeat constructor.
Qed.

Lemma codes_small cs : small 256 (List.map N_of_ascii cs).
Proof.
  unfold small. apply Forall_forall. intros n Hn.
  apply in_map_iff in Hn. destruct Hn as (c & <- & _).
  apply N_ascii_bounded.
Qed.

Lemma chars_of_codes cs : List.map ascii_of_N (List.map N_of_ascii cs) = cs.
Proof.
  induction cs as [|c cs IH]; cbn; [reflexivity|].
  now rewrite ascii_N_embedding, IH.
Qed.

Example btoa_Man : btoa "Man" = "TWFu"%string.
Proof. reflexivity. Qed.

Example btoa_hello : btoa "hello" = "aGVsbG8="%string.
Proof. reflexivity. Qed.

Example atob_hello_spaced : atob "aGVs bG8" = Some "hello"%string.
Proof. reflexivity. Qed.

Example atob_bad_length : atob "aGVsbG8==" = None.
Proof. reflexivity. Qed.

(** Decoding what [btoa] produced gives the binary string back. *)
Lemma atob_btoa (binary : string) : atob (btoa binary) = Some binary.
Proof.
  unfold atob, btoa.
  rewrite list_ascii_of_string_of_list_ascii.
  set (bs := List.map N_of_ascii (list_ascii_of_string binary)).
  assert (small 256 bs) as Hbs by apply codes_small.
  pose proof (sextets_small _ Hbs) as Hss.
  pose proof (sextets_length_mod bs) as Hmod. cbv zeta in Hmod.
  set (ss := sextets_of_bytes bs) in *.
  pose proof (padding_cases (List.length ss)) as Hpad.
  rewrite (filter_all _ _ _ (chars_not_whitespace _ _ Hss Hpad)).
  rewrite length_app, length_map, (padded_length _ Hmod).
  cbn [Nat.eqb].
  rewrite (strip_padding_app _ _ (chars_not_pad _ Hss) Hpad).
  rewrite length_map.
  destruct Hmod as [Hr | [Hr | Hr]]; rewrite Hr; cbn [Nat.eqb];
    rewrite (all_sextets_chars _ Hss); unfold ss;
    rewrite (bytes_of_sextets_of_bytes _ Hbs); unfold bs;
    now rewrite chars_of_codes, string_of_list_ascii_of_string.
Qed.

End Base64Facts.

(** ** The PCM helpers *)

Section PcmFacts.

Import GeminiService Properties.

Lemma fold_binary bytes : forall acc,
  fold_left (fun binary b => (binary ++ String (ascii_of_byte b) EmptyString)%string)
            bytes acc
  = (acc ++ string_of_list_ascii (List.map ascii_of_byte bytes))%string.
Proof.
  induction bytes as [|b bytes IH]; intros acc; cbn [fold_left List.map string_of_list_ascii].
  - clear. induction acc as [|c acc IH]; cbn; [reflexivity | now rewrite <- IH].
  - rewrite IH. clear.
    induction acc as [|c acc IH]; cbn; [reflexivity | now rewrite IH].
Qed.

Lemma encode_btoa bytes :
  encode bytes = Base64.btoa (string_of_list_ascii (List.map ascii_of_byte bytes)).
Proof. unfold encode. now rewrite fold_binary. Qed.

(** [decode] undoes [encode]. *)
Lemma decode_encode bytes : decode (encode bytes) = Some bytes.
Proof.
  unfold decode. rewrite encode_btoa, atob_btoa.
  rewrite list_ascii_of_string_of_list_ascii, map_map.
  apply (f_equal Some).
  induction bytes as [|b bytes IH]; cbn [List.map]; [reflexivity|].
  now rewrite byte_of_ascii_of_byte, IH.
Qed.

Lemma Z_of_byte_of_Z z : Z_of_byte (byte_of_Z z) = (z mod 256)%Z.
Proof.
  unfold Z_of_byte, byte_of_Z.
  destruct (Byte.of_N (Z.to_N (z mod 256))) as [b|] eqn:E.
  - apply Byte.to_of_N in E. rewrite E. divlia.
  - apply Byte.of_N_None_iff in E. divlia.
Qed.

Lemma int16_of_bytes_of_int16 v :
  int16 v -> int16_of_bytes (byte_of_Z v) (byte_of_Z (v / 256)) = v.
Proof.
  unfold int16, int16_of_bytes. intros Hv. rewrite !Z_of_byte_of_Z.
  destruct (Z.leb_spec 32768 (v mod 256 + 256 * ((v / 256) mod 256))); divlia.
Qed.

Lemma Int16Array_of_Uint8Array vs :
  Forall int16 vs -> Int16Array_of_buffer (Uint8Array_of_buffer vs) = Some vs.
Proof.
  induction 1 as [|v vs Hv _ IH]; cbn; [reflexivity|].
  unfold Uint8Array_of_buffer in IH. rewrite IH.
  now rewrite int16_of_bytes_of_int16.
Qed.

Lemma ToInt16_int16 x : int16 (ToInt16 x).
Proof.
  unfold int16, ToInt16.
  destruct (Z.leb_spec 32768 (truncate x mod 65536)); divlia.
Qed.

Lemma ToInt16_wrap16 x : ToInt16 x = wrap16 (truncate x).
Proof.
  unfold ToInt16, wrap16.
  destruct (Z.leb_spec 32768 (truncate x mod 65536)); divlia.
Qed.

Lemma ToInt16_exact x : int16 (truncate x) -> ToInt16 x = truncate x.
Proof.
  unfold int16, ToInt16. intros H.
  destruct (Z.leb_spec 32768 (truncate x mod 65536)); divlia.
Qed.

Lemma map_nth_all (vs : list Z) (d : Z) :
  List.map (fun i => nth i vs d) (seq 0 (List.length vs)) = vs.
Proof.
  induction vs as [|v vs IH]; [reflexivity|].
  cbn [List.length seq List.map nth]. f_equal.
  rewrite <- seq_shift, map_map. exact IH.
Qed.

(** One channel: the buffer holds every element divided by 32768. *)
Lemma decodeAudioData_mono vs rate :
  Forall int16 vs ->
  decodeAudioData (Uint8Array_of_buffer vs) rate 1
  = Some {| numberOfChannels := 1;
            length := List.length vs;
            sampleRate := rate;
            channelData := [List.map (fun v => (inject_Z v / 32768)%Q) vs] |}.
Proof.
  intros Hvs. unfold decodeAudioData. rewrite (Int16Array_of_Uint8Array _ Hvs).
  change (Pos.to_nat 1) with 1%nat. rewrite Nat.div_1_r.
  cbn [seq List.map]. do 3 f_equal.
  rewrite <- (map_nth_all vs 0%Z) at 2. rewrite map_map.
  apply map_ext. intros i. now rewrite Nat.mul_1_r, Nat.add_0_r.
Qed.

End PcmFacts.

Section PcmNumbers.

Import GeminiService Properties.

Lemma truncate_times_32768 n d :
  truncate ((n # d) * 32768)%Q = Z.quot (n * 32768) (Zpos d).
Proof.
  unfold truncate. cbn [Qmult Qnum Qden]. now rewrite Pos.mul_1_r.
Qed.

(** A sample of [-1, 1) scales into the 16-bit range, and scaling back
    misses it by less than one step. *)
Lemma scaled_sample_close x :
  (-1 <= x)%Q -> (x < 1)%Q ->
  int16 (truncate (x * 32768)%Q)
  /\ within (1 # 32768) x (inject_Z (truncate (x * 32768)%Q) / 32768)%Q.
Proof.
  destruct x as [n d]. unfold Qle, Qlt. cbn [Qnum Qden]. intros Hlo Hhi.
  rewrite truncate_times_32768.
  pose proof (Z.quot_rem' (n * 32768) (Zpos d)) as Hqr.
  pose proof (Z.rem_bound_pos_pos (n * 32768) (Zpos d)) as Hpos.
  pose proof (Z.rem_bound_pos_neg (n * 32768) (Zpos d)) as Hneg.
  set (q := Z.quot (n * 32768) (Zpos d)) in *.
  set (r := Z.rem (n * 32768) (Zpos d)) in *.
  assert ((0 <= n /\ 0 <= r < Zpos d) \/ (n <= 0 /\ - Zpos d < r <= 0))%Z as Hr.
  { destruct (Z.le_gt_cases 0 n);
      [ left; split; [lia | apply Hpos; lia]
      | right; split; [lia | apply Hneg; lia] ]. }
  clear Hpos Hneg.
  split.
  - unfold int16. nia.
  - unfold within. apply Qabs_Qle_condition.
    unfold Qle, Qminus, Qplus, Qopp, Qdiv, Qmult, Qinv, inject_Z.
    cbn [Qnum Qden]. nia.
Qed.

End PcmNumbers.

Section PcmClaims.

Import GeminiService Properties.

Lemma createPcmBlob_data rate samples :
  data (createPcmBlob rate samples)
  = encode (Uint8Array_of_buffer
              (List.map (fun x => ToInt16 (x * 32768)%Q) samples)).
Proof. reflexivity. Qed.

Lemma stored_int16 samples :
  Forall int16 (List.map (fun x => ToInt16 (x * 32768)%Q) samples).
Proof.
  apply Forall_forall. intros v Hv. apply in_map_iff in Hv.
  destruct Hv as (x & <- & _). apply ToInt16_int16.
Qed.

(** What the round trip computes, for any samples at all. *)
Lemma roundtrip_value rate samples :
  roundtrip rate samples
  = Some {| numberOfChannels := 1;
            length := List.length samples;
            sampleRate := rate;
            channelData :=
              [List.map (fun x => (inject_Z (ToInt16 (x * 32768)%Q) / 32768)%Q)
                        samples] |}.
Proof.
  unfold roundtrip. rewrite createPcmBlob_data, decode_encode.
  rewrite (decodeAudioData_mono _ rate (stored_int16 samples)).
  now rewrite length_map, map_map.
Qed.

Lemma byte_char z : ascii_of_byte (byte_of_Z z) = ascii_of_N (Z.to_N (z mod 256)).
Proof.
  rewrite ascii_of_byte_via_N. f_equal.
  pose proof (Z_of_byte_of_Z z) as H. unfold Z_of_byte in H.
  rewrite <- H. now rewrite N2Z.id.
Qed.

Lemma bytes_chars vs :
  List.map ascii_of_byte (Uint8Array_of_buffer vs)
  = List.map (fun b => ascii_of_N (Z.to_N b)) (flat_map little_endian vs).
Proof.
  unfold Uint8Array_of_buffer.
  induction vs as [|v vs IH]; [reflexivity|].
  simpl. now rewrite !byte_char, IH.
Qed.

End PcmClaims.

(** C4, as the code has it.  For samples from -1 up to, but not including, 1,
    decoding the encoded samples gives one channel of the same length whose
    every sample is within 1/32768 of the original. *)
Theorem C4_roundtrip_below_full_scale :
  forall (rate : positive) (samples : GeminiService.Float32Array),
    Forall (fun x => (-1 <= x)%Q /\ (x < 1)%Q) samples ->
    Properties.roundtrip_close rate samples.
Proof.
  intros rate samples Hrange. unfold Properties.roundtrip_close.
  eexists. eexists. split; [apply roundtrip_value|].
  split; [reflexivity|]. split; [apply length_map|].
  induction Hrange as [|x samples [Hlo Hhi] _ IH]; cbn [List.map]; constructor.
  - destruct (scaled_sample_close x Hlo Hhi) as [Hint Hclose].
    now rewrite (ToInt16_exact _ Hint).
  - exact IH.
Qed.

(** C4, witness: four samples of the range. *)
Lemma C4_roundtrip_witness :
  Properties.roundtrip_close 16000 [(1 # 2)%Q; (-1)%Q; 0%Q; (32767 # 32768)%Q].
Proof.
  apply C4_roundtrip_below_full_scale.
  repeat (apply Forall_cons; [split; [discriminate | reflexivity]|]).
  apply Forall_nil.
Defined.

(** C4, as stated, fails at the sample 1: it lies in [-1, 1], is stored as
    -32768 and comes back as -1. *)
Lemma C4_full_scale_counterexample :
  Forall (fun x => (-1 <= x)%Q /\ (x <= 1)%Q) [1%Q]
  /\ ~ Properties.roundtrip_close 16000 [1%Q].
Proof.
  split.
  - repeat constructor; discriminate.
  - intros (buffer & decoded & Hrt & Hch & _ & Hclose).
    rewrite roundtrip_value in Hrt. injection Hrt as <-.
    cbn in Hch. injection Hch as <-.
    inversion Hclose as [|? ? ? ? Hw _]; subst.
    unfold Properties.within in Hw. vm_compute in Hw. apply Hw. reflexivity.
Qed.

(** C5.  The blob's data is the base64 text of the little-endian bytes of the
    samples scaled by 32768, truncated and reduced to 16 bits; nothing clamps:
    the sample 3/2 is stored as 49152 - 65536, not as 32767, and the encoder
    still returns a blob. *)
Theorem C5_encoder_truncates_and_wraps :
  (forall (rate : positive) (samples : GeminiService.Float32Array),
     GeminiService.data (GeminiService.createPcmBlob rate samples)
     = Properties.encodeFloatPCM samples)
  /\ (exists x : Q,
        (1 < x)%Q
        /\ GeminiService.truncate (x * 32768)%Q = 49152%Z
        /\ GeminiService.ToInt16 (x * 32768)%Q = (49152 - 65536)%Z
        /\ GeminiService.ToInt16 (x * 32768)%Q <> 32767%Z
        /\ forall rate : positive,
             GeminiService.data (GeminiService.createPcmBlob rate [x])
             = "AMA="%string).
Proof.
  split.
  - intros rate samples. rewrite createPcmBlob_data, encode_btoa.
    unfold Properties.encodeFloatPCM. rewrite bytes_chars.
    do 4 f_equal. apply map_ext. intros x. apply ToInt16_wrap16.
  - exists (3 # 2)%Q. repeat split; try reflexivity. discriminate.
Qed.

(** ** Video generation *)

Section VideoFacts.

Import ITree.ITree ITree.ITreeFacts ITree.Events.State ITree.Events.StateFacts.
Import ITreeNotations.
Import VideoGeneration VideoProperties.
Local Open Scope itree_scope.

(** Running a call and then the rest. *)
Lemma run_call w {T R} (e : videoE T) (k : T -> itree videoE R) r :
  interp_state (handle w) (ITree.bind (ITree.trigger e) k) r
  ≈ ITree.bind (handle w T e r)
      (fun sx => interp_state (handle w) (k (snd sx)) (fst sx)).
Proof.
  rewrite interp_state_bind, interp_state_trigger. reflexivity.
Qed.

(** The loop polls once for every operation that is not done, sleeping ten
    seconds before each poll, and stops on the first that is done. *)
Lemma pollUntilDone_run w progress final :
  done final = true ->
  forall pending r,
    Forall (fun o => done o = false) pending ->
    scripted w (sdk_calls r) (tl (pending ++ [final])) ->
    interp_state (handle w)
      (pollUntilDone progress (hd final (pending ++ [final]))) r
    ≈ Ret ({| sdk_calls := sdk_calls r + List.length pending;
              log := log r ++ flat_map (round progress) pending |},
           Returned final).
Proof.
  intros Hfinal pending.
  induction pending as [|o pending IH]; intros r Hpending Hscript.
  - cbn. unfold pollUntilDone. rewrite unfold_iter. rewrite Hfinal.
    rewrite bind_ret_l, interp_state_ret.
    rewrite Nat.add_0_r, app_nil_r. destruct r; reflexivity.
  - inversion Hpending as [|? ? Ho Hrest]; subst.
    change (hd final ((o :: pending) ++ [final])) with o.
    change (tl ((o :: pending) ++ [final])) with (pending ++ [final]) in Hscript.
    unfold pollUntilDone. rewrite unfold_iter. cbv beta. rewrite Ho.
    rewrite !bind_bind.
    rewrite run_call. cbn. rewrite bind_ret_l. cbn.
    rewrite bind_bind, run_call. cbn. rewrite bind_ret_l. cbn.
    rewrite bind_bind, run_call. cbn. rewrite bind_ret_l. cbn.
    destruct (pending ++ [final]) as [|nxt rest] eqn:E.
    { destruct pending; discriminate. }
    cbn in Hscript. destruct Hscript as [Hans Hscript].
    rewrite Hans. rewrite bind_ret_l.
    rewrite interp_state_tau, tau_eutt.
    fold (pollUntilDone progress nxt).
    cbn [hd tl] in IH. rewrite IH; auto.
    cbn. rewrite <- !app_assoc. cbn.
    replace (S (sdk_calls r + List.length pending))
      with (sdk_calls r + S (List.length pending)) by lia.
    reflexivity.
Qed.

(** A job that ends without a link: one request, the polls, the error. *)
Lemma generateVideo_no_link w API_KEY key params initiating progress complete label
    pending final :
  truthy API_KEY = Some key ->
  scripted w 0 (pending ++ [final]) ->
  Forall (fun o => done o = false) pending ->
  done final = true ->
  truthy (video_uri final) = None ->
  run w (generateVideo API_KEY params initiating progress complete label)
  ≈ Ret ({| sdk_calls := S (List.length pending);
            log := no_link_log params initiating progress label pending |},
         Thrown "No video download link found.").
Proof.
  intros Hkey Hscript Hpending Hdone Hlink.
  unfold run, generateVideo, getAiInstance. rewrite Hkey.
  unfold tryCatch, await.
  rewrite !bind_bind.
  rewrite run_call. cbn. rewrite bind_ret_l. cbn.
  rewrite bind_bind, run_call. cbn. rewrite bind_ret_l. cbn.
  destruct (pending ++ [final]) as [|first rest] eqn:E.
  { destruct pending; discriminate. }
  cbn in Hscript. destruct Hscript as [Hans Hscript]. rewrite Hans.
  rewrite bind_bind, interp_state_bind.
  assert (first = hd final (pending ++ [final])) as -> by now rewrite E.
  rewrite (pollUntilDone_run w progress final Hdone pending); auto.
  2:{ cbn. now rewrite E. }
  rewrite bind_ret_l. cbn. rewrite Hlink.
  rewrite bind_ret_l, run_call. cbn. rewrite bind_ret_l, interp_state_ret.
  unfold no_link_log, record. cbn. reflexivity.
Qed.

Lemma rounds_counts progress pending :
  let l := flat_map (round progress) pending in
  filter is_request l = []
  /\ filter is_fetch l = []
  /\ List.length (filter is_poll l) = List.length pending
  /\ filter is_sleep l = repeat (Slept 10000) (List.length pending).
Proof.
  induction pending as [|o pending (IH1 & IH2 & IH3 & IH4)]; cbn.
  - repeat split.
  - cbn in IH1, IH2, IH3, IH4. repeat split; auto.
    now rewrite IH4.
Qed.

Lemma no_link_log_paced params initiating progress label pending :
  paced (no_link_log params initiating progress label pending)
        (List.length pending).
Proof.
  destruct (rounds_counts progress pending) as (H1 & H2 & H3 & H4).
  unfold paced, no_link_log.
  rewrite !filter_app, H1, H2, H4, !length_app, H3. cbn.
  rewrite !app_nil_r. repeat split. lia.
Qed.

(** C9.  When the provider reports the job not done for a number of polls
    and then done without a video link, each of the two methods makes one
    request, polls once per unfinished report with a ten second timer before
    each poll, fetches nothing, does not request again, and raises
    "No video download link found.". *)
Theorem C9_polls_then_raises_without_link :
  forall (w : World) (API_KEY : option string) (key : string)
         (prompt imageBytes imageMimeType : string)
         (aspectRatio : AspectRatio) (resolution : Resolution)
         (pending : list Operation) (final : Operation),
    truthy API_KEY = Some key ->
    scripted w 0 (pending ++ [final]) ->
    Forall (fun o => done o = false) pending ->
    done final = true ->
    truthy (video_uri final) = None ->
    let text_log :=
      no_link_log (textParams prompt aspectRatio resolution)
        "Initiating video generation..." "Video generation in progress..."
        "Error generating video:" pending in
    let image_log :=
      no_link_log (imageParams prompt imageBytes imageMimeType aspectRatio resolution)
        "Initiating video generation from image..."
        "Video generation from image in progress..."
        "Error generating video from image:" pending in
    run w (generateVideoFromText API_KEY prompt aspectRatio resolution)
    ≈ Ret ({| sdk_calls := S (List.length pending); log := text_log |},
           Thrown "No video download link found.")
    /\ run w (generateVideoFromImage API_KEY prompt imageBytes imageMimeType
                aspectRatio resolution)
       ≈ Ret ({| sdk_calls := S (List.length pending); log := image_log |},
              Thrown "No video download link found.")
    /\ paced text_log (List.length pending)
    /\ paced image_log (List.length pending).
Proof.
  intros w API_KEY key prompt imageBytes imageMimeType aspectRatio resolution
         pending final Hkey Hscript Hpending Hdone Hlink text_log image_log.
  split; [|split; [|split]]; try apply no_link_log_paced.
  - apply generateVideo_no_link with (key := key) (final := final); assumption.
  - apply generateVideo_no_link with (key := key) (final := final); assumption.
Qed.

(** C9, witness: two polls find the job running, the third finds it done
    without a video. *)
Lemma C9_witness :
  run example_world
      (generateVideoFromText (Some "secret"%string) "a cat"%string AR_16_9 Res_720p)
  ≈ Ret ({| sdk_calls := 3;
            log := no_link_log (textParams "a cat"%string AR_16_9 Res_720p)
                     "Initiating video generation..."
                     "Video generation in progress..."
                     "Error generating video:" [running; running] |},
         Thrown "No video download link found.").
Proof.
  apply (C9_polls_then_raises_without_link
           example_world (Some "secret"%string) "secret"%string
           "a cat"%string "image"%string "image/png"%string AR_16_9 Res_720p
           [running; running] finished_empty).
  - reflexivity.
  - cbn. repeat split.
  - repeat constructor.
  - reflexivity.
  - reflexivity.
Defined.

End VideoFacts.

(** ** The controller *)

Section LiveFacts.

Import GeminiService LiveConversationFeature LiveProperties.

Lemma call_logged c s : call c s = logged [c] s.
Proof. reflexivity. Qed.

Lemma logged_logged l1 l2 s : logged l2 (logged l1 s) = logged (l1 ++ l2) s.
Proof. destruct s. cells. now rewrite app_assoc. Qed.

Lemma logged_nil s : logged [] s = s.
Proof. destruct s. cells. now rewrite app_nil_r. Qed.

Lemma stop_each_logged pending : forall s,
  stop_each pending s = logged (List.map source_stop pending) s.
Proof.
  induction pending as [|source rest IH]; intros s; cbn [stop_each List.map].
  - now rewrite logged_nil.
  - now rewrite IH, call_logged, logged_logged.
Qed.

(** One teardown, in closed form. *)
Lemma stopRecording_torn_down resetError s :
  stopRecording resetError s = torn_down resetError s.
Proof.
  destruct s as [rec cin cout hist status err session stream ictx octx node
                 next sources active n log].
  unfold stopRecording, torn_down, released.
  destruct session, node, stream, ictx, octx; cells;
    rewrite stop_each_logged; destruct resetError; cells;
    cbn [when_some app]; rewrite <- ?app_assoc; reflexivity.
Qed.

Lemma released_torn_down resetError s : released (torn_down resetError s) = [].
Proof. reflexivity. Qed.

End LiveFacts.

(** C7.  Two teardowns in a row leave what one leaves: every handle null, the
    active set empty, the floor at zero; the second one makes no call at all.
    Whatever the two flags, the pair acts as one teardown that resets the
    error when either does. *)
Theorem C7_teardown_twice_is_teardown_once :
  forall (r1 r2 : bool) (s : LiveConversationFeature.State),
    let once := LiveConversationFeature.stopRecording r1 s in
    let twice := LiveConversationFeature.stopRecording r2 once in
    LiveConversationFeature.stopRecording r1 once = once
    /\ twice = LiveConversationFeature.stopRecording (r1 || r2) s
    /\ LiveConversationFeature.calls twice = LiveConversationFeature.calls once
    /\ LiveConversationFeature.sessionRef twice = None
    /\ LiveConversationFeature.scriptProcessorRef twice = None
    /\ LiveConversationFeature.streamRef twice = None
    /\ LiveConversationFeature.inputAudioContextRef twice = None
    /\ LiveConversationFeature.outputAudioContextRef twice = None
    /\ LiveConversationFeature.sourcesRef twice = []
    /\ LiveConversationFeature.nextStartTimeRef twice = 0%Q.
Proof.
  intros r1 r2 s once twice. subst once twice.
  rewrite !stopRecording_torn_down.
  unfold LiveProperties.torn_down. cbn. rewrite !app_nil_r.
  destruct r1, r2; cbn; repeat split; reflexivity.
Qed.

Section LiveClaims.

Import GeminiService LiveConversationFeature LiveProperties.

(** The other paths into teardown keep the error. *)
Lemma onclose_keeps_error code reason s :
  error (onclose code reason s)
  = if N.eqb code 1000 then error s
    else Some ("Live Session closed unexpectedly: "
               ++ string_of_N code ++ " - " ++ reason)%string.
Proof.
  unfold onclose. rewrite stopRecording_torn_down.
  destruct s, (N.eqb code 1000); reflexivity.
Qed.

Lemma cleanup_keeps_error s : error (cleanup s) = error s.
Proof. unfold cleanup. rewrite stopRecording_torn_down. now destruct s. Qed.

Lemma startRecording_catch_keeps_error message s :
  error (startRecording_catch message s)
  = Some ("Failed to start: " ++ message)%string.
Proof.
  unfold startRecording_catch. rewrite stopRecording_torn_down. now destruct s.
Qed.

(** What a turn's end commits is what the callbacks saw at the start. *)
Lemma turn_complete_commits rate channels cb currentTime s :
  onmessage rate channels cb turn_complete currentTime s
  = Normal
      (setCurrentOutputTranscription (fun _ => EmptyString)
         (setCurrentInputTranscription (fun _ => EmptyString)
            (setTranscriptionHistory
               (fun prev =>
                  prev ++ committed (seen_currentInputTranscription cb)
                                    (seen_currentOutputTranscription cb))
               s))).
Proof.
  unfold onmessage, committed.
  cbn [turn_complete serverContent option_map outputTranscription
       inputTranscription turnComplete audioData modelTurn interrupted].
  destruct s,
           (nonempty (seen_currentInputTranscription cb)),
           (nonempty (seen_currentOutputTranscription cb));
    cells; cbn [app]; rewrite <- ?app_assoc, ?app_nil_r; reflexivity.
Qed.

(** Deleting every member of a set, one after the other, empties it. *)
Lemma delete_all pending : forall set,
  (forall x, In x set -> exists y, In y pending /\ same_node y x = true) ->
  fold_left (fun set source => delete source set) pending set = [].
Proof.
  induction pending as [|p rest IH]; intros set Hcover; cbn [fold_left].
  - destruct set as [|x set]; [reflexivity|].
    destruct (Hcover x (or_introl eq_refl)) as (y & [] & _).
  - apply IH. intros x Hx. unfold delete in Hx. apply filter_In in Hx.
    destruct Hx as [Hx Hp]. apply negb_true_iff in Hp.
    destruct (Hcover x Hx) as (y & [<- | Hy] & Hsame).
    + congruence.
    + eauto.
Qed.

Lemma stop_and_delete_each_logged pending : forall s,
  stop_and_delete_each pending s
  = set_sourcesRef
      (fold_left (fun set source => delete source set) pending (sourcesRef s))
      (logged (List.map source_stop pending) s).
Proof.
  induction pending as [|source rest IH]; intros s;
    cbn [stop_and_delete_each List.map fold_left].
  - destruct s; cells. now rewrite app_nil_r.
  - rewrite IH. destruct s. cells. now rewrite <- app_assoc.
Qed.

Lemma stop_and_delete_all s :
  stop_and_delete_each (sourcesRef s) s
  = set_sourcesRef [] (logged (List.map source_stop (sourcesRef s)) s).
Proof.
  rewrite stop_and_delete_each_logged, delete_all; [reflexivity|].
  intros x Hx. exists x. split; [exact Hx|]. apply Nat.eqb_refl.
Qed.

Lemma duration_nonneg audioBuffer : (0 <= duration audioBuffer)%Q.
Proof.
  unfold duration, Qle, Qdiv, Qmult, Qinv, inject_Z. cbn. lia.
Qed.

(** An audio message whose payload decodes is scheduled by [play] at the
    raised floor. *)
Lemma onmessage_audio_chunk rate channels cb c payload currentTime s
    ctx bytes audioBuffer :
  outputAudioContextRef s = Some ctx ->
  decode (String c payload) = Some bytes ->
  decodeAudioData bytes rate channels = Some audioBuffer ->
  onmessage rate channels cb (audio_chunk (String c payload)) currentTime s
  = Normal (play audioBuffer (raise_floor currentTime s)).
Proof.
  intros Hctx Hbytes Hbuffer. unfold onmessage.
  cbn [audio_chunk serverContent option_map outputTranscription
       inputTranscription turnComplete audioData modelTurn parts inlineData
       inline_data interrupted].
  rewrite Hctx, Hbytes, Hbuffer. reflexivity.
Qed.

End LiveClaims.

(** C2, at the failing path.  After [onerror] has run, no error message is
    set: the handler sets one and its own teardown, called with the default
    flag, clears it.  The other paths into teardown, [onclose] and the unmount
    cleanup, keep the error, and so does a teardown whose flag is false. *)
Theorem C2_onerror_loses_its_error :
  forall (e_type reason : string) (code : N) (s : LiveConversationFeature.State),
    LiveConversationFeature.error (LiveConversationFeature.onerror e_type s) = None
    /\ LiveConversationFeature.error (LiveConversationFeature.onclose code reason s)
       = (if N.eqb code 1000 then LiveConversationFeature.error s
          else Some ("Live Session closed unexpectedly: "
                     ++ LiveConversationFeature.string_of_N code
                     ++ " - " ++ reason)%string)
    /\ LiveConversationFeature.error (LiveConversationFeature.cleanup s)
       = LiveConversationFeature.error s
    /\ LiveConversationFeature.error (LiveConversationFeature.stopRecording false s)
       = LiveConversationFeature.error s
    /\ LiveConversationFeature.error (LiveConversationFeature.stopRecording true s)
       = None.
Proof.
  intros e_type reason code s. repeat split.
  - unfold LiveConversationFeature.onerror. now rewrite stopRecording_torn_down.
  - apply onclose_keeps_error.
  - apply cleanup_keeps_error.
  - rewrite stopRecording_torn_down. now destruct s.
  - now rewrite stopRecording_torn_down.
Qed.

(** C1, at the scenario.  In a session started from the first render, with
    "hello" and "hi there" as the running transcripts, a turn's end clears the
    two transcripts and adds nothing to the history: the callbacks still see
    the empty transcripts of the render in which the session was started. *)
Theorem C1_turn_complete_commits_nothing :
  forall (rate channels : positive) (currentTime : Q),
    let before := LiveProperties.mid_turn rate channels in
    LiveConversationFeature.isRecording before = true
    /\ LiveConversationFeature.currentInputTranscription before = "hello"%string
    /\ LiveConversationFeature.currentOutputTranscription before = "hi there"%string
    /\ LiveConversationFeature.transcriptionHistory before = []
    /\ exists after,
         LiveConversationFeature.onmessage rate channels
           LiveProperties.first_callbacks LiveProperties.turn_complete
           currentTime before
         = LiveConversationFeature.Normal after
         /\ LiveConversationFeature.transcriptionHistory after = []
         /\ LiveConversationFeature.currentInputTranscription after = EmptyString
         /\ LiveConversationFeature.currentOutputTranscription after = EmptyString.
Proof.
  intros rate channels currentTime before.
  repeat split.
  eexists. split; [apply turn_complete_commits|]. repeat split.
Qed.

(** C8.  After a teardown the capture callback changes nothing; in any state
    it forwards the encoded frame when the session handle is set and makes no
    call when it is null. *)
Theorem C8_capture_callback_needs_the_handle :
  forall (rate : positive) (inputData : GeminiService.Float32Array)
         (resetError : bool) (s : LiveConversationFeature.State),
    let stopped := LiveConversationFeature.stopRecording resetError s in
    LiveConversationFeature.onaudioprocess rate inputData stopped = stopped
    /\ LiveConversationFeature.onaudioprocess rate inputData
         (LiveConversationFeature.set_sessionRef None s)
       = LiveConversationFeature.set_sessionRef None s
    /\ LiveConversationFeature.onaudioprocess rate inputData s
       = LiveProperties.logged
           (LiveProperties.when_some
              (fun session =>
                 LiveConversationFeature.session_sendRealtimeInput session
                   (GeminiService.createPcmBlob rate inputData))
              (LiveConversationFeature.sessionRef s))
           s.
Proof.
  intros rate inputData resetError s stopped. subst stopped.
  rewrite stopRecording_torn_down.
  split; [reflexivity|]. split; [now destruct s|].
  unfold LiveConversationFeature.onaudioprocess.
  destruct (LiveConversationFeature.sessionRef s); cbn [LiveProperties.when_some].
  - reflexivity.
  - now rewrite logged_nil.
Qed.

(* ------------------------------------------------------------------ *)
(** ** Sums of doubles *)

Section Binary64Facts.

Import Binary64.
Local Open Scope N_scope.





















End Binary64Facts.

(* ------------------------------------------------------------------ *)
(** ** The playback clock *)

Section PlaybackFacts.

Import GeminiService PlaybackScheduler PlaybackProperties.

(** Once the floor is [Infinity] no source is started any more. *)
Lemma schedule_all_overflowed chunks : forall s,
  nextStartTimeRef s = Binary64.Infinity ->
  nextStartTimeRef (schedule_all chunks s) = Binary64.Infinity
  /\ calls (schedule_all chunks s) = calls s.
Proof.
  induction chunks as [|[currentTime audioBuffer] rest IH]; intros s Hs;
    cbn [schedule_all].
  - now split.
  - unfold play, raise_floor. cbn [nextStartTimeRef]. rewrite Hs.
    cbn [Binary64.max state_of].
    destruct (IH {| nextStartTimeRef := Binary64.Infinity;
                    sourcesRef := sourcesRef s;
                    created := S (created s);
                    calls := calls s |} eq_refl) as [Hfloor Hcalls].
    split; assumption.
Qed.


(** The controller's steps over rationals and the steps over doubles start
    the same sources in the same order, as long as the floor of the doubles
    is finite: the two differ in the times only. *)
Lemma same_sources (chunks : list (Q * Binary64.time * AudioBuffer)) :
  forall (controller : LiveConversationFeature.State) (s : State),
    created s = LiveConversationFeature.created controller ->
    nextStartTimeRef
      (schedule_all (List.map (fun c => (snd (fst c), snd c)) chunks) s)
    <> Binary64.Infinity ->
    exists started started',
      calls (schedule_all (List.map (fun c => (snd (fst c), snd c)) chunks) s)
      = calls s ++ started
      /\ LiveConversationFeature.calls
           (LiveProperties.schedule_all
              (List.map (fun c => (fst (fst c), snd c)) chunks) controller)
         = LiveConversationFeature.calls controller ++ started'
      /\ List.map source_of started = started_by_controller started'.
Proof.
  induction chunks as [|[[currentTime currentTime'] audioBuffer] rest IH];
    intros controller s Hcreated Hfinite.
  - exists [], []. cbn. now rewrite !app_nil_r.
  - cbn [List.map fst snd schedule_all LiveProperties.schedule_all] in Hfinite |- *.
    revert Hfinite. unfold play, raise_floor.
    cbn [nextStartTimeRef sourcesRef created calls].
    destruct (Binary64.max (nextStartTimeRef s) currentTime') as [when|];
      cbn [state_of]; intros Hfinite.
    + assert (Hnext : S (created s)
                      = LiveConversationFeature.created
                          (LiveConversationFeature.play audioBuffer
                             (LiveConversationFeature.raise_floor currentTime
                                controller))).
      { rewrite Hcreated. now destruct controller. }
      match type of Hfinite with
      | context [schedule_all _ ?s'] =>
          destruct (IH _ s' Hnext Hfinite)
            as (started & started' & Hcalls & Hcalls' & Hsame)
      end.
      cbn [calls] in Hcalls.
      exists (source_start
                {| LiveConversationFeature.node := created s;
                   LiveConversationFeature.buffer := audioBuffer |} when
              :: started).
      exists (LiveConversationFeature.source_start
                {| LiveConversationFeature.node :=
                     LiveConversationFeature.created controller;
                   LiveConversationFeature.buffer := audioBuffer |}
                (Qmax (LiveConversationFeature.nextStartTimeRef controller)
                      currentTime)
              :: started').
      split; [| split].
      * rewrite Hcalls, <- app_assoc. reflexivity.
      * rewrite Hcalls'. destruct controller. cbn.
        rewrite <- app_assoc. reflexivity.
      * cbn [List.map source_of started_by_controller flat_map app].
        rewrite Hcreated. change ([?x] ++ ?l) with (x :: l).
        f_equal. exact Hsame.
    + exfalso. apply Hfinite.
      match goal with
      | |- context [schedule_all _ ?s'] =>
          exact (proj1 (schedule_all_overflowed _ s' eq_refl))
      end.
Qed.

End PlaybackFacts.

(** The sums and the quotients of the clock agree with the Standard
    Library's specification of IEEE 754 binary64 arithmetic on a table of
    doubles of every kind (100 sums, 6 quotients), and the table holds
    doubles only. *)
Example binary64_as_specified :
  forallb
    (fun x =>
       Binary64.binary64 x
       && forallb
            (fun y =>
               PlaybackProperties.same
                 (SpecFloat.SFadd 53 1024 (PlaybackProperties.to_spec x)
                                  (PlaybackProperties.to_spec y))
                 (PlaybackProperties.to_spec (Binary64.add x y)))
            PlaybackProperties.table)
    PlaybackProperties.table
  && forallb
       (fun q : N * positive =>
          PlaybackProperties.same
            (SpecFloat.SFdiv 53 1024 (PlaybackProperties.whole (fst q))
                             (PlaybackProperties.whole (Npos (snd q))))
            (PlaybackProperties.to_spec (Binary64.divide (fst q) (snd q))))
       PlaybackProperties.quotients
  = true.
Proof. vm_compute. reflexivity. Qed.

(** Three buffers of one second each, all arriving while the clock reads 0,
    start at 0, 1 and 2 seconds. *)
Example three_seconds :
  List.map PlaybackProperties.when_of
    (PlaybackScheduler.calls
       (PlaybackProperties.schedule_all
          (repeat (Binary64.finite 0, PlaybackProperties.second) 3)
          PlaybackScheduler.initial))
  = [PlaybackProperties.seconds 0 1; PlaybackProperties.seconds 1 1;
     PlaybackProperties.seconds 2 1].
Proof. vm_compute. reflexivity. Qed.

(** Five buffers of a tenth of a second, all arriving while the clock reads
    0, start at the doubles that print as 0, 0.1, 0.2, 0.30000000000000004
    and 0.4. *)
Example five_tenths_starts :
  List.map PlaybackProperties.when_of
    (PlaybackScheduler.calls
       (PlaybackProperties.schedule_all PlaybackProperties.five_tenths
          PlaybackScheduler.initial))
  = [PlaybackProperties.seconds 0 1;
     PlaybackProperties.seconds 1 10;
     PlaybackProperties.seconds 2 10;
     PlaybackProperties.seconds 30000000000000004 100000000000000000;
     PlaybackProperties.seconds 4 10].
Proof. vm_compute. reflexivity. Qed.

(** In that run the fourth interval reaches 2^-55 seconds (2^1019 units)
    into the fifth, and no other interval reaches into a later one. *)
Example five_tenths_overlaps :
  let log :=
    PlaybackScheduler.calls
      (PlaybackProperties.schedule_all PlaybackProperties.five_tenths
         PlaybackScheduler.initial) in
  List.map
    (fun earlier =>
       List.map (fun later => PlaybackProperties.overlap (fst earlier) later)
                (skipn (S (snd earlier)) log))
    (combine log (seq 0 5))
  = [[0; 0; 0; 0]; [0; 0; 0]; [0; 0]; [2 ^ 1019]; []]%N.
Proof. vm_compute. reflexivity. Qed.




(** C6.  A message that interrupts, without ending the turn and without
    audio, stops every source of the active set and empties the set, puts the
    floor at zero, so that the next buffer starts at the clock's reading,
    clears the two running transcripts and leaves the history alone. *)
Theorem C6_interruption_stops_playback :
  forall (rate channels : positive) (cb : LiveConversationFeature.Callbacks)
         (message : LiveConversationFeature.LiveServerMessage)
         (sc : LiveConversationFeature.ServerContent)
         (currentTime : Q) (s : LiveConversationFeature.State),
    LiveConversationFeature.serverContent message = Some sc ->
    LiveConversationFeature.interrupted sc = true ->
    LiveConversationFeature.turnComplete sc = false ->
    LiveConversationFeature.modelTurn sc = None ->
    exists s',
      LiveConversationFeature.onmessage rate channels cb message currentTime s
      = LiveConversationFeature.Normal s'
      /\ LiveProperties.interrupted_from s s'.
Proof.
  intros rate channels cb [content] sc currentTime s Hsc Hint Hturn Haudio.
  cbn in Hsc. subst content.
  unfold LiveConversationFeature.onmessage, LiveConversationFeature.audioData.
  cbn [LiveConversationFeature.serverContent option_map].
  rewrite Hint, Hturn, Haudio.
  eexists. split; [reflexivity|].
  rewrite stop_and_delete_all.
  unfold LiveProperties.interrupted_from.
  destruct s,
           (LiveConversationFeature.outputTranscription sc) as [t|];
    [|destruct (LiveConversationFeature.inputTranscription sc) as [t|]];
    cells; (repeat split; [..|
      intros audioBuffer now Hnow; eexists; eexists;
      split; [reflexivity|]; split; [reflexivity|];
      apply Q.max_r; exact Hnow]).
Qed.

(** C6, witness: the interruption arrives while two sources play and both
    running transcripts are non-empty. *)
Lemma C6_witness :
  exists s',
    LiveConversationFeature.onmessage 24000 1 LiveProperties.first_callbacks
      LiveProperties.interruption (1 # 2)%Q LiveProperties.playing
    = LiveConversationFeature.Normal s'
    /\ LiveProperties.interrupted_from LiveProperties.playing s'.
Proof.
  apply (C6_interruption_stops_playback 24000 1 LiveProperties.first_callbacks
           LiveProperties.interruption LiveProperties.interrupting
           (1 # 2)%Q LiveProperties.playing); reflexivity.
Defined.

(* ===================================================================== *)
(** * Part III: more of what the code guarantees                          *)
(* ===================================================================== *)

(** ** More on the PCM helpers *)

Section CodecFacts.

Import GeminiService Properties CodecProperties.

Lemma list_ind2 (A : Type) (P : list A -> Prop) :
  P [] ->
  (forall a, P [a]) ->
  (forall a b rest, P rest -> P (a :: b :: rest)) ->
  forall l, P l.
Proof.
  intros H0 H1 H2.
  assert (forall l, P l /\ (forall a, P (a :: l))) as Hall.
  { induction l as [|x l (Hl & Hl1)]; split; auto. }
  intros l. apply Hall.
Qed.

Lemma Int16Array_of_buffer_parity bytes :
  match Int16Array_of_buffer bytes with
  | Some vs => Nat.odd (List.length bytes) = false
               /\ List.length bytes = (2 * List.length vs)%nat
               /\ Forall int16 vs
  | None => Nat.odd (List.length bytes) = true
  end.
Proof.
  induction bytes as [| a | lo hi rest IH] using list_ind2.
  - cbn. repeat split. constructor.
  - reflexivity.
  - cbn [Int16Array_of_buffer].
    destruct (Int16Array_of_buffer rest) as [vs|].
    + destruct IH as (Hodd & Hlen & Hvs).
      change (Nat.odd (List.length (lo :: hi :: rest)))
        with (Nat.odd (List.length rest)).
      repeat split; [exact Hodd | cbn [List.length]; lia |].
      constructor; [|exact Hvs].
      unfold int16, int16_of_bytes, Z_of_byte.
      pose proof (Byte.to_N_bounded lo). pose proof (Byte.to_N_bounded hi).
      destruct (Z.leb_spec 32768
                  (Z.of_N (Byte.to_N lo) + 256 * Z.of_N (Byte.to_N hi))); lia.
    + exact IH.
Qed.

Lemma length_string_of_list_ascii cs :
  String.length (string_of_list_ascii cs) = List.length cs.
Proof. induction cs as [|c cs IH]; cbn; [reflexivity | now rewrite IH]. Qed.

Lemma padded_sextets_length bs :
  (List.length (sextets_of_bytes_padded bs) = 4 * ((List.length bs + 2) / 3))%nat.
Proof.
  unfold sextets_of_bytes_padded.
  rewrite length_app, length_map.
  induction bs as [| a | a b | a b c rest IH] using list_ind3; try reflexivity.
  cbn [Base64.sextets_of_bytes List.length].
  replace (S (S (S (List.length rest))) + 2)%nat
    with (List.length rest + 2 + 1 * 3)%nat by lia.
  rewrite Nat.div_add by lia.
  set (n := List.length (Base64.sextets_of_bytes rest)) in *.
  assert (Base64.padding (S (S (S (S n)))) = Base64.padding n) as ->.
  { unfold Base64.padding.
    replace (S (S (S (S n)))) with (n + 1 * 4)%nat by lia.
    now rewrite Nat.Div0.mod_add. }
  lia.
Qed.

Lemma flat_bytes_length vs :
  List.length (Uint8Array_of_buffer vs) = (2 * List.length vs)%nat.
Proof.
  unfold Uint8Array_of_buffer.
  induction vs as [|v vs IH]; [reflexivity|].
  change (flat_map bytes_of_int16 (v :: vs))
    with (byte_of_Z v :: byte_of_Z (v / 256) :: flat_map bytes_of_int16 vs).
  cbn [List.length]. lia.
Qed.

Lemma nth_map_seq (A : Type) (g : nat -> A) (d : A) n i :
  (i < n)%nat -> nth i (List.map g (seq 0 n)) d = g i.
Proof.
  intros Hi. rewrite (nth_indep _ d (g 0%nat)) by (now rewrite length_map, length_seq).
  rewrite (map_nth g (seq 0 n) 0%nat i), seq_nth by exact Hi. reflexivity.
Qed.

Lemma seq_from n : forall a,
  seq a n = List.map (fun c => (a + c)%nat) (seq 0 n).
Proof.
  induction n as [|n IH]; intros a; [reflexivity|].
  cbn [seq List.map]. f_equal; [lia|].
  rewrite <- (seq_shift n 0), map_map, (IH (S a)).
  apply map_ext. intros c. lia.
Qed.

(** Reading a table row by row is reading it through. *)
Lemma rows_through (A : Type) (g : nat -> A) n : forall rows,
  flat_map (fun i => List.map (fun c => g (i * n + c)%nat) (seq 0 n)) (seq 0 rows)
  = List.map g (seq 0 (rows * n)).
Proof.
  induction rows as [|rows IH]; [reflexivity|].
  rewrite seq_S, flat_map_app, IH. cbn [flat_map]. rewrite app_nil_r.
  replace (S rows * n)%nat with (rows * n + n)%nat by lia.
  rewrite seq_app, map_app. f_equal. cbn [Nat.add].
  rewrite (seq_from n (rows * n)). now rewrite map_map.
Qed.

Lemma map_nth_firstn (vs : list Z) (g : Z -> Q) k :
  (k <= List.length vs)%nat ->
  List.map (fun i => g (nth i vs 0%Z)) (seq 0 k) = List.map g (firstn k vs).
Proof.
  revert vs. induction k as [|k IH]; intros vs Hk; [reflexivity|].
  destruct vs as [|v vs]; [cbn in Hk; lia|].
  cbn [firstn List.map seq nth]. f_equal.
  rewrite <- seq_shift, map_map. apply IH. cbn in Hk. lia.
Qed.

Lemma scaled_int16 v : int16 v -> unit_range (inject_Z v / 32768)%Q.
Proof.
  unfold int16, unit_range, Qle, Qlt, Qdiv, Qmult, Qinv, inject_Z.
  cbn [Qnum Qden]. lia.
Qed.

Lemma ToInt16_of_scaled v :
  int16 v -> ToInt16 ((inject_Z v / 32768) * 32768)%Q = v.
Proof.
  intros Hv. rewrite ToInt16_exact.
  - unfold truncate, Qdiv, Qmult, Qinv, inject_Z. cbn [Qnum Qden].
    change (Z.pos (1 * 32768 * 1)) with 32768%Z.
    replace (v * 1 * 32768)%Z with (v * 32768)%Z by lia.
    apply Z.quot_mul. lia.
  - unfold truncate, Qdiv, Qmult, Qinv, inject_Z. cbn [Qnum Qden].
    change (Z.pos (1 * 32768 * 1)) with 32768%Z.
    replace (v * 1 * 32768)%Z with (v * 32768)%Z by lia.
    rewrite Z.quot_mul by lia. exact Hv.
Qed.

End CodecFacts.

(** X1.  Whatever the bytes, decoding the text that [encode] made of them
    gives the same bytes back. *)
Theorem X1_decode_undoes_encode :
  forall bytes : GeminiService.Uint8Array,
    GeminiService.decode (GeminiService.encode bytes) = Some bytes.
Proof. exact decode_encode. Qed.

(** X2.  [decodeAudioData] raises exactly when the byte array has an odd
    length, whatever the rate and the channel count. *)
Theorem X2_decodeAudioData_raises_on_odd_length :
  forall (data : GeminiService.Uint8Array) (rate channels : positive),
    GeminiService.decodeAudioData data rate channels = None
    <-> Nat.odd (List.length data) = true.
Proof.
  intros data rate channels. unfold GeminiService.decodeAudioData.
  pose proof (Int16Array_of_buffer_parity data) as H.
  destruct (GeminiService.Int16Array_of_buffer data) as [vs|].
  - destruct H as (Hodd & _). rewrite Hodd. split; discriminate.
  - split; [intros _; exact H | reflexivity].
Qed.

(** X3.  From a byte array of even length [decodeAudioData] makes a buffer of
    the asked rate and channel count, with as many frames as whole groups of
    [channels] 16-bit values fit, every channel that long, and every sample
    at least -1 and below 1. *)
Theorem X3_decodeAudioData_shape_and_range :
  forall (data : GeminiService.Uint8Array) (rate channels : positive),
    Nat.odd (List.length data) = false ->
    exists buffer,
      GeminiService.decodeAudioData data rate channels = Some buffer
      /\ GeminiService.sampleRate buffer = rate
      /\ GeminiService.numberOfChannels buffer = Pos.to_nat channels
      /\ GeminiService.length buffer
         = Nat.div (Nat.div (List.length data) 2) (Pos.to_nat channels)
      /\ List.length (GeminiService.channelData buffer) = Pos.to_nat channels
      /\ Forall (fun channel =>
                   List.length channel = GeminiService.length buffer
                   /\ Forall CodecProperties.unit_range channel)
                (GeminiService.channelData buffer).
Proof.
  intros data rate channels Heven. unfold GeminiService.decodeAudioData.
  pose proof (Int16Array_of_buffer_parity data) as H.
  destruct (GeminiService.Int16Array_of_buffer data) as [vs|];
    [|congruence].
  destruct H as (_ & Hlen & Hvs).
  assert (Nat.div (List.length data) 2 = List.length vs) as Hhalf.
  { rewrite Hlen, Nat.mul_comm. apply Nat.div_mul. lia. }
  eexists. split; [reflexivity|].
  cbn [GeminiService.sampleRate GeminiService.numberOfChannels
       GeminiService.length GeminiService.channelData].
  rewrite Hhalf. repeat split.
  - now rewrite length_map, length_seq.
  - apply Forall_forall. intros channel Hin. apply in_map_iff in Hin.
    destruct Hin as (c & <- & _). split.
    + now rewrite length_map, length_seq.
    + apply Forall_forall. intros y Hy. apply in_map_iff in Hy.
      destruct Hy as (i & <- & _). apply scaled_int16.
      destruct (Nat.lt_ge_cases (i * Pos.to_nat channels + c) (List.length vs))
        as [Hin | Hout].
      * eapply Forall_forall; [exact Hvs|]. now apply nth_In.
      * rewrite nth_overflow by exact Hout. unfold Properties.int16. lia.
Qed.

(** X3, witness: four bytes read as two channels. *)
Lemma X3_witness :
  exists buffer,
    GeminiService.decodeAudioData [x00; x40; x00; xc0] 24000 2 = Some buffer
    /\ GeminiService.sampleRate buffer = 24000%positive
    /\ GeminiService.numberOfChannels buffer = Pos.to_nat 2
    /\ GeminiService.length buffer = Nat.div (Nat.div 4 2) (Pos.to_nat 2)
    /\ List.length (GeminiService.channelData buffer) = Pos.to_nat 2
    /\ Forall (fun channel =>
                 List.length channel = GeminiService.length buffer
                 /\ Forall CodecProperties.unit_range channel)
              (GeminiService.channelData buffer).
Proof.
  apply (X3_decodeAudioData_shape_and_range [x00; x40; x00; xc0] 24000 2).
  reflexivity.
Defined.

(** X4.  The blob of [n] samples holds the base64 text of exactly [2 n]
    bytes; the text is 4 characters for every 3 bytes or part of 3 bytes. *)
Theorem X4_blob_holds_two_bytes_per_sample :
  forall (rate : positive) (samples : GeminiService.Float32Array),
    let blob := GeminiService.createPcmBlob rate samples in
    (exists bytes,
       GeminiService.decode (GeminiService.data blob) = Some bytes
       /\ List.length bytes = (2 * List.length samples)%nat)
    /\ String.length (GeminiService.data blob)
       = (4 * ((2 * List.length samples + 2) / 3))%nat.
Proof.
  intros rate samples blob. subst blob. rewrite createPcmBlob_data. split.
  - eexists. split; [apply decode_encode|].
    now rewrite flat_bytes_length, length_map.
  - rewrite encode_btoa. unfold Base64.btoa.
    rewrite list_ascii_of_string_of_list_ascii, length_string_of_list_ascii.
    fold (CodecProperties.sextets_of_bytes_padded
            (List.map N_of_ascii
               (List.map ascii_of_byte
                  (GeminiService.Uint8Array_of_buffer
                     (List.map (fun x => GeminiService.ToInt16 (x * 32768)%Q)
                               samples))))).
    rewrite padded_sextets_length.
    now rewrite !length_map, flat_bytes_length, length_map.
Qed.

(** X5.  Encoding what the decoder gave back makes the same blob again:
    a second trip through the codec loses nothing more, whatever the
    samples were. *)
Theorem X5_second_trip_loses_nothing :
  forall (rate : positive) (samples : GeminiService.Float32Array),
    exists buffer decoded,
      Properties.roundtrip rate samples = Some buffer
      /\ GeminiService.channelData buffer = [decoded]
      /\ GeminiService.createPcmBlob rate decoded
         = GeminiService.createPcmBlob rate samples.
Proof.
  intros rate samples. eexists. eexists.
  split; [apply roundtrip_value|]. split; [reflexivity|].
  unfold GeminiService.createPcmBlob. do 3 f_equal.
  rewrite map_map. apply map_ext. intros x.
  apply ToInt16_of_scaled, ToInt16_int16.
Qed.

(** X8.  Putting the channels of the decoded buffer back frame by frame
    gives the 16-bit values of the whole frames, in their order, each divided
    by 32768: values beyond the last whole frame are dropped, none is moved. *)
Theorem X8_channels_interleave_back :
  forall (data : GeminiService.Uint8Array) (rate channels : positive),
    Nat.odd (List.length data) = false ->
    exists buffer,
      GeminiService.decodeAudioData data rate channels = Some buffer
      /\ CodecProperties.interleave (GeminiService.length buffer)
           (GeminiService.channelData buffer)
         = List.map (fun v => (inject_Z v / 32768)%Q)
             (firstn (GeminiService.length buffer * Pos.to_nat channels)
                     (CodecProperties.values_of data)).
Proof.
  intros data rate channels Heven.
  unfold GeminiService.decodeAudioData, CodecProperties.values_of.
  pose proof (Int16Array_of_buffer_parity data) as H.
  destruct (GeminiService.Int16Array_of_buffer data) as [vs|]; [|congruence].
  clear H. eexists. split; [reflexivity|].
  cbn [GeminiService.length GeminiService.channelData].
  set (n := Pos.to_nat channels).
  set (F := Nat.div (List.length vs) n).
  unfold CodecProperties.interleave.
  rewrite <- (map_nth_firstn vs (fun v => (inject_Z v / 32768)%Q))
    by (unfold F; rewrite Nat.mul_comm; apply Nat.Div0.mul_div_le).
  rewrite <- (rows_through _ (fun k => (inject_Z (nth k vs 0%Z) / 32768)%Q) n F).
  rewrite !flat_map_concat_map. f_equal.
  apply map_ext_in. intros i Hi. apply in_seq in Hi.
  rewrite map_map. apply map_ext. intros c.
  apply nth_map_seq. lia.
Qed.

(** X8, witness: six bytes as two channels give one frame and drop the
    third value. *)
Lemma X8_witness :
  exists buffer,
    GeminiService.decodeAudioData [x00; x40; x00; xc0; xff; x7f] 24000 2
    = Some buffer
    /\ CodecProperties.interleave (GeminiService.length buffer)
         (GeminiService.channelData buffer)
       = List.map (fun v => (inject_Z v / 32768)%Q)
           (firstn (GeminiService.length buffer * Pos.to_nat 2)
                   (CodecProperties.values_of [x00; x40; x00; xc0; xff; x7f])).
Proof.
  apply (X8_channels_interleave_back [x00; x40; x00; xc0; xff; x7f] 24000 2).
  reflexivity.
Defined.

(** ** More on the loading counter *)

Section LoadingFacts.

Import LoadingContext LoadingProperties.

Lemma net_one c : net [c] = match c with Increment => 1%Z | Decrement => (-1)%Z end.
Proof. destruct c; reflexivity. Qed.

Lemma net_cons c rest : net (c :: rest) = (net [c] + net rest)%Z.
Proof. destruct c; cbn [net]; lia. Qed.

End LoadingFacts.

(** X6.  As long as no decrement comes while the counter is at zero (from the
    start value, the increments so far never fall behind the decrements), the
    counter is the start value plus increments minus decrements; so the flag
    goes off exactly when every request that was begun has ended. *)
Theorem X6_counter_counts_open_requests :
  forall (calls : list LoadingContext.Call) (n : Z),
    (forall k, 0 <= n + LoadingProperties.net (firstn k calls))%Z ->
    LoadingContext.run calls n = (n + LoadingProperties.net calls)%Z.
Proof.
  induction calls as [|c rest IH]; intros n Hprefix.
  - cbn. lia.
  - pose proof (Hprefix 1%nat) as H1. cbn [firstn] in H1.
    rewrite net_cons. change (LoadingContext.run (c :: rest) n)
      with (LoadingContext.run rest (LoadingContext.apply c n)).
    assert (LoadingContext.apply c n = n + LoadingProperties.net [c])%Z as ->.
    { destruct c; cbn in H1 |- *;
        unfold LoadingContext.incrementLoading, LoadingContext.decrementLoading; lia. }
    rewrite IH; [lia|].
    intros k. specialize (Hprefix (S k)). cbn [firstn] in Hprefix.
    rewrite net_cons in Hprefix. lia.
Qed.

(** X6, witness: two requests overlap. *)
Lemma X6_witness :
  LoadingContext.run
    [LoadingContext.Increment; LoadingContext.Increment;
     LoadingContext.Decrement; LoadingContext.Decrement] 0
  = (0 + LoadingProperties.net
           [LoadingContext.Increment; LoadingContext.Increment;
            LoadingContext.Decrement; LoadingContext.Decrement])%Z.
Proof.
  apply X6_counter_counts_open_requests.
  intros [|[|[|[|[|k]]]]]; cbn; lia.
Defined.

(** X7.  Whatever the calls, the counter is never below the start value plus
    increments minus decrements: the clamp at zero can only raise it. *)
Theorem X7_clamp_only_raises :
  forall (calls : list LoadingContext.Call) (n : Z),
    (n + LoadingProperties.net calls <= LoadingContext.run calls n)%Z.
Proof.
  induction calls as [|c rest IH]; intros n.
  - cbn. lia.
  - rewrite net_cons. change (LoadingContext.run (c :: rest) n)
      with (LoadingContext.run rest (LoadingContext.apply c n)).
    specialize (IH (LoadingContext.apply c n)).
    assert (n + LoadingProperties.net [c] <= LoadingContext.apply c n)%Z.
    { destruct c; cbn;
        unfold LoadingContext.incrementLoading, LoadingContext.decrementLoading; lia. }
    lia.
Qed.

(** ** More on the controller *)

Section LiveMoreFacts.

Import GeminiService LiveConversationFeature LiveProperties LiveMore.

Lemma append_assoc (a b c : string) : ((a ++ b) ++ c = a ++ (b ++ c))%string.
Proof. induction a as [|x a IH]; cbn; [reflexivity | now rewrite IH]. Qed.

Lemma append_empty (a : string) : (a ++ EmptyString = a)%string.
Proof. induction a as [|x a IH]; cbn; [reflexivity | now rewrite IH]. Qed.

(** [onmessage] by its steps. *)
Lemma onmessage_steps rate channels cb message currentTime s :
  onmessage rate channels cb message currentTime s
  = let s := after_turn cb message (after_transcripts message s) in
    match audioData message with
    | None => Abrupt s "TypeError"
    | Some base64EncodedAudioString =>
        let scheduled :=
          match base64EncodedAudioString, outputAudioContextRef s with
          | Some (String c rest), Some _ =>
              let s := raise_floor currentTime s in
              match decode (String c rest) with
              | None => Abrupt s "InvalidCharacterError"
              | Some bytes =>
                  match decodeAudioData bytes rate channels with
                  | None => Abrupt s "RangeError"
                  | Some audioBuffer => Normal (play audioBuffer s)
                  end
              end
          | _, _ => Normal s
          end in
        match scheduled with
        | Abrupt s e => Abrupt s e
        | Normal s =>
            match option_map interrupted (serverContent message) with
            | Some true =>
                let s := stop_and_delete_each (sourcesRef s) s in
                let s := set_nextStartTimeRef 0%Q s in
                let s := setCurrentInputTranscription (fun _ => EmptyString) s in
                Normal (setCurrentOutputTranscription (fun _ => EmptyString) s)
            | _ => Normal s
            end
        end
    end.
Proof. reflexivity. Qed.

(** The first two steps leave the refs, the set, the log and the counters
    alone. *)
Lemma steps_keep cb message s :
  let s' := after_turn cb message (after_transcripts message s) in
  calls s' = calls s
  /\ sourcesRef s' = sourcesRef s
  /\ created s' = created s
  /\ nextStartTimeRef s' = nextStartTimeRef s
  /\ outputAudioContextRef s' = outputAudioContextRef s
  /\ sessionRef s' = sessionRef s
  /\ activeRequests s' = activeRequests s
  /\ error s' = error s.
Proof.
  unfold after_turn, after_transcripts.
  destruct s, message as [[sc|]]; cbn [serverContent option_map];
    [|repeat split].
  destruct (outputTranscription sc), (inputTranscription sc), (turnComplete sc),
           (nonempty (seen_currentInputTranscription cb)),
           (nonempty (seen_currentOutputTranscription cb));
    repeat split.
Qed.

Lemma input_delta rate channels cb delta currentTime s :
  onmessage rate channels cb (input_transcript delta) currentTime s
  = Normal (setCurrentInputTranscription (fun prev => (prev ++ delta)%string) s).
Proof. destruct s. reflexivity. Qed.

Lemma output_delta rate channels cb delta currentTime s :
  onmessage rate channels cb (output_transcript delta) currentTime s
  = Normal (setCurrentOutputTranscription (fun prev => (prev ++ delta)%string) s).
Proof. destruct s. reflexivity. Qed.

Lemma input_deltas rate channels cb deltas : forall s,
  receive_all rate channels cb
    (List.map (fun d => (input_transcript (fst d), snd d)) deltas) s
  = setCurrentInputTranscription
      (fun prev => (prev ++ joined (List.map fst deltas))%string) s.
Proof.
  induction deltas as [|[delta t] deltas IH]; intros s;
    cbn [List.map receive_all fst snd joined fold_right].
  - destruct s. cells. now rewrite append_empty.
  - rewrite input_delta. cbn [state_of]. rewrite IH.
    destruct s. cells. now rewrite append_assoc.
Qed.

Lemma output_deltas rate channels cb deltas : forall s,
  receive_all rate channels cb
    (List.map (fun d => (output_transcript (fst d), snd d)) deltas) s
  = setCurrentOutputTranscription
      (fun prev => (prev ++ joined (List.map fst deltas))%string) s.
Proof.
  induction deltas as [|[delta t] deltas IH]; intros s;
    cbn [List.map receive_all fst snd joined fold_right].
  - destruct s. cells. now rewrite append_empty.
  - rewrite output_delta. cbn [state_of]. rewrite IH.
    destruct s. cells. now rewrite append_assoc.
Qed.

Lemma add_new source set :
  existsb (same_node source) set = false -> add source set = set ++ [source].
Proof. unfold add. now intros ->. Qed.

Lemma not_among source set bound :
  Forall (fun other => (node other < bound)%nat) set ->
  (bound <= node source)%nat ->
  existsb (same_node source) set = false
  /\ delete source set = set.
Proof.
  intros Hset Hnew. induction Hset as [|other set Hother _ [IHe IHd]].
  - split; reflexivity.
  - assert (same_node source other = false) as Hdiff.
    { unfold same_node. apply Nat.eqb_neq. lia. }
    split.
    + cbn [existsb]. now rewrite Hdiff, IHe.
    + unfold delete in *. cbn [filter]. now rewrite Hdiff, IHd.
Qed.

Lemma delete_keeps_fresh source set bound :
  Forall (fun other => (node other < bound)%nat) set ->
  NoDup (List.map node set) ->
  Forall (fun other => (node other < bound)%nat) (delete source set)
  /\ NoDup (List.map node (delete source set)).
Proof.
  intros Hset Hnodup. unfold delete. split.
  - apply Forall_forall. intros x Hx. apply filter_In in Hx.
    exact (proj1 (Forall_forall _ _) Hset x (proj1 Hx)).
  - induction set as [|other set IH]; [constructor|].
    cbn [List.map] in Hnodup. inversion Hnodup as [|? ? Hnotin Hrest]; subst.
    inversion Hset as [|? ? _ Hset']; subst.
    cbn [filter]. destruct (negb (same_node source other)).
    + cbn [List.map]. constructor; [|auto].
      intros Hin. apply Hnotin. apply in_map_iff in Hin.
      destruct Hin as (x & Hx & Hxin). apply filter_In in Hxin.
      apply in_map_iff. exists x. tauto.
    + auto.
Qed.

(** What [play] does to the set and the log. *)
Lemma play_effect audioBuffer s :
  let source := {| node := created s; buffer := audioBuffer |} in
  calls (play audioBuffer s) = calls s ++ [source_start source (nextStartTimeRef s)]
  /\ sourcesRef (play audioBuffer s) = add source (sourcesRef s)
  /\ created (play audioBuffer s) = S (created s)
  /\ nextStartTimeRef (play audioBuffer s)
     = (nextStartTimeRef s + duration audioBuffer)%Q.
Proof. destruct s. repeat split. Qed.

Lemma raise_floor_effect currentTime s :
  calls (raise_floor currentTime s) = calls s
  /\ sourcesRef (raise_floor currentTime s) = sourcesRef s
  /\ created (raise_floor currentTime s) = created s
  /\ nextStartTimeRef (raise_floor currentTime s)
     = Qmax (nextStartTimeRef s) currentTime
  /\ currentInputTranscription (raise_floor currentTime s)
     = currentInputTranscription s
  /\ currentOutputTranscription (raise_floor currentTime s)
     = currentOutputTranscription s.
Proof. destruct s. repeat split. Qed.

Lemma play_keeps_fresh audioBuffer s : fresh s -> fresh (play audioBuffer s).
Proof.
  intros [Hbound Hnodup]. unfold fresh.
  destruct (play_effect audioBuffer s) as (_ & -> & -> & _).
  destruct (not_among {| node := created s; buffer := audioBuffer |}
              (sourcesRef s) (created s) Hbound (Nat.le_refl _)) as [Hnew _].
  rewrite (add_new _ _ Hnew). split.
  - apply Forall_app. split.
    + eapply Forall_impl; [|exact Hbound]. cbv beta. intros; lia.
    + constructor; [cbn; lia | constructor].
  - rewrite map_app. cbn [List.map node].
    apply NoDup_app; [exact Hnodup | repeat constructor; intros [] |].
    intros n Hn [<- | []]. apply in_map_iff in Hn.
    destruct Hn as (x & Hx & Hin).
    pose proof (proj1 (Forall_forall _ _) Hbound x Hin) as Hlt. cbn in Hlt. lia.
Qed.

End LiveMoreFacts.

Section LiveMoreLemmas.

Import GeminiService LiveConversationFeature LiveProperties LiveMore.

Lemma fresh_same s s' :
  sourcesRef s' = sourcesRef s -> created s' = created s -> fresh s -> fresh s'.
Proof. unfold fresh. now intros -> ->. Qed.

Lemma fresh_empty s : sourcesRef s = [] -> fresh s.
Proof. unfold fresh. intros ->. split; constructor. Qed.

Lemma onended_sources source s :
  sourcesRef (onended source s) = delete source (sourcesRef s)
  /\ created (onended source s) = created s.
Proof. destruct s. split; reflexivity. Qed.

Lemma interrupted_sources s :
  sourcesRef
    (setCurrentOutputTranscription (fun _ => EmptyString)
       (setCurrentInputTranscription (fun _ => EmptyString)
          (set_nextStartTimeRef 0%Q (stop_and_delete_each (sourcesRef s) s))))
  = [].
Proof. rewrite stop_and_delete_all. destruct s. reflexivity. Qed.

Lemma Qle_plus_nonneg a d : (0 <= d)%Q -> (a <= a + d)%Q.
Proof.
  intros Hd. rewrite <- (Qplus_0_r a) at 1. apply Qplus_le_r. exact Hd.
Qed.

End LiveMoreLemmas.

(** X9.  Transcript deltas that arrive one after the other are appended in
    arrival order, the user's to the running user transcript and the model's
    to the running model transcript, and change nothing else. *)
Theorem X9_deltas_append_in_arrival_order :
  forall (rate channels : positive) (cb : LiveConversationFeature.Callbacks)
         (deltas : list (string * Q)) (s : LiveConversationFeature.State),
    LiveMore.receive_all rate channels cb
      (List.map (fun d => (LiveProperties.input_transcript (fst d), snd d)) deltas) s
    = LiveConversationFeature.setCurrentInputTranscription
        (fun prev => (prev ++ LiveMore.joined (List.map fst deltas))%string) s
    /\ LiveMore.receive_all rate channels cb
         (List.map (fun d => (LiveProperties.output_transcript (fst d), snd d)) deltas) s
       = LiveConversationFeature.setCurrentOutputTranscription
           (fun prev => (prev ++ LiveMore.joined (List.map fst deltas))%string) s.
Proof.
  intros. split; [apply input_deltas | apply output_deltas].
Qed.

(** X10.  When one message carries a delta for both transcripts, only the
    model's is appended; the user's is dropped and everything else stays. *)
Theorem X10_model_delta_wins :
  forall (rate channels : positive) (cb : LiveConversationFeature.Callbacks)
         (out inp : string) (currentTime : Q) (s : LiveConversationFeature.State),
    LiveConversationFeature.onmessage rate channels cb
      (LiveMore.both_transcripts out inp) currentTime s
    = LiveConversationFeature.Normal
        (LiveConversationFeature.setCurrentOutputTranscription
           (fun prev => (prev ++ out)%string) s).
Proof. intros. destruct s. reflexivity. Qed.

(** X11.  A message that ends the turn (no audio, no interruption) adds to
    the history the transcripts the callbacks saw when the session was
    started, the user's first, then the model's, leaving out an empty one; it
    empties both running transcripts, whatever they held and whatever delta
    came in the same message, and leaves playback alone. *)
Theorem X11_turn_end_commits_what_was_seen :
  forall (rate channels : positive) (cb : LiveConversationFeature.Callbacks)
         (out inp : option LiveConversationFeature.Transcription)
         (currentTime : Q) (s : LiveConversationFeature.State),
    exists s',
      LiveConversationFeature.onmessage rate channels cb
        {| LiveConversationFeature.serverContent :=
             Some {| LiveConversationFeature.outputTranscription := out;
                     LiveConversationFeature.inputTranscription := inp;
                     LiveConversationFeature.turnComplete := true;
                     LiveConversationFeature.modelTurn := None;
                     LiveConversationFeature.interrupted := false |} |}
        currentTime s
      = LiveConversationFeature.Normal s'
      /\ LiveConversationFeature.transcriptionHistory s'
         = LiveConversationFeature.transcriptionHistory s
           ++ LiveProperties.committed
                (LiveConversationFeature.seen_currentInputTranscription cb)
                (LiveConversationFeature.seen_currentOutputTranscription cb)
      /\ LiveConversationFeature.currentInputTranscription s' = EmptyString
      /\ LiveConversationFeature.currentOutputTranscription s' = EmptyString
      /\ LiveMore.playback_untouched s s'
      /\ LiveConversationFeature.nextStartTimeRef s'
         = LiveConversationFeature.nextStartTimeRef s.
Proof.
  intros rate channels cb out inp currentTime s.
  eexists. split; [reflexivity|].
  unfold LiveConversationFeature.onmessage.
  unfold LiveProperties.committed, LiveMore.playback_untouched.
  destruct s, out, inp,
           (LiveConversationFeature.nonempty
              (LiveConversationFeature.seen_currentInputTranscription cb)),
           (LiveConversationFeature.nonempty
              (LiveConversationFeature.seen_currentOutputTranscription cb));
    cbn [LiveConversationFeature.serverContent option_map
         LiveConversationFeature.outputTranscription
         LiveConversationFeature.inputTranscription
         LiveConversationFeature.turnComplete
         LiveConversationFeature.audioData LiveConversationFeature.modelTurn
         LiveConversationFeature.interrupted];
    cells; cbn [app]; rewrite <- ?app_assoc, ?app_nil_r; repeat split.
Qed.

(** X12.  After a teardown, a message with audio schedules nothing and
    changes nothing; a transcript delta, though, still lands in the running
    transcript. *)
Theorem X12_after_teardown_audio_is_ignored :
  forall (rate channels : positive) (cb : LiveConversationFeature.Callbacks)
         (payload delta : string) (resetError : bool) (currentTime : Q)
         (s : LiveConversationFeature.State),
    let stopped := LiveConversationFeature.stopRecording resetError s in
    LiveConversationFeature.onmessage rate channels cb
      (LiveProperties.audio_chunk payload) currentTime stopped
    = LiveConversationFeature.Normal stopped
    /\ LiveConversationFeature.onmessage rate channels cb
         (LiveProperties.input_transcript delta) currentTime stopped
       = LiveConversationFeature.Normal
           (LiveConversationFeature.setCurrentInputTranscription
              (fun _ => delta) stopped).
Proof.
  intros rate channels cb payload delta resetError currentTime s stopped.
  subst stopped. rewrite stopRecording_torn_down. split.
  - unfold LiveProperties.torn_down. destruct payload; reflexivity.
  - reflexivity.
Qed.

(** X13.  Audio that cannot be decoded, because the text is not base64 or
    because it holds an odd number of bytes, makes the handler raise after
    it has raised the floor to the clock and done nothing else: no source is
    created or started, and an interruption in the same message is not
    carried out. *)
Theorem X13_undecodable_audio_raises :
  forall (rate channels : positive) (cb : LiveConversationFeature.Callbacks)
         (c : ascii) (payload : string) (interrupt : bool) (currentTime : Q)
         (s : LiveConversationFeature.State) (ctx : LiveConversationFeature.AudioContext),
    LiveConversationFeature.outputAudioContextRef s = Some ctx ->
    (match GeminiService.decode (String c payload) with
     | None => True
     | Some bytes => GeminiService.decodeAudioData bytes rate channels = None
     end) ->
    exists exception,
      LiveConversationFeature.onmessage rate channels cb
        (LiveMore.audio_with (String c payload) interrupt) currentTime s
      = LiveConversationFeature.Abrupt
          (LiveConversationFeature.raise_floor currentTime s) exception.
Proof.
  intros rate channels cb c payload interrupt currentTime s ctx Hctx Hbad.
  rewrite onmessage_steps.
  cbn [LiveMore.audio_with LiveMore.after_turn LiveMore.after_transcripts
       LiveConversationFeature.serverContent option_map
       LiveConversationFeature.outputTranscription
       LiveConversationFeature.inputTranscription
       LiveConversationFeature.turnComplete
       LiveConversationFeature.audioData LiveConversationFeature.modelTurn
       LiveConversationFeature.parts LiveConversationFeature.inlineData
       LiveConversationFeature.inline_data].
  cbv zeta. rewrite Hctx.
  destruct (GeminiService.decode (String c payload)) as [bytes|].
  - rewrite Hbad. eexists. reflexivity.
  - eexists. reflexivity.
Qed.

(** X13, witness: one character is not base64; the state has a playback
    context. *)
Lemma X13_witness :
  exists exception,
    LiveConversationFeature.onmessage 24000 1 LiveProperties.first_callbacks
      (LiveMore.audio_with "A" true) (1 # 2)%Q LiveProperties.playing
    = LiveConversationFeature.Abrupt
        (LiveConversationFeature.raise_floor (1 # 2)%Q LiveProperties.playing)
        exception.
Proof.
  apply (X13_undecodable_audio_raises 24000 1 LiveProperties.first_callbacks
           "A"%char EmptyString true (1 # 2)%Q LiveProperties.playing 5%nat).
  - reflexivity.
  - exact I.
Defined.

(** X14.  A message whose model turn has no parts makes the handler raise
    after the transcript and turn steps and before anything is scheduled or
    stopped: the log, the active set and the floor are as before, also when
    the message interrupts. *)
Theorem X14_missing_parts_raises_before_playback :
  forall (rate channels : positive) (cb : LiveConversationFeature.Callbacks)
         (out inp : option LiveConversationFeature.Transcription)
         (complete interrupt : bool) (currentTime : Q)
         (s : LiveConversationFeature.State),
    let message := LiveMore.without_parts out inp complete interrupt in
    let s' := LiveMore.after_turn cb message (LiveMore.after_transcripts message s) in
    LiveConversationFeature.onmessage rate channels cb message currentTime s
    = LiveConversationFeature.Abrupt s' "TypeError"
    /\ LiveMore.playback_untouched s s'
    /\ LiveConversationFeature.nextStartTimeRef s'
       = LiveConversationFeature.nextStartTimeRef s.
Proof.
  intros rate channels cb out inp complete interrupt currentTime s message s'.
  split; [reflexivity|].
  destruct (steps_keep cb message s) as (H1 & H2 & H3 & H4 & _).
  unfold LiveMore.playback_untouched. subst s'. now rewrite H1, H2, H3, H4.
Qed.

(** X15.  A message that does not interrupt never lowers the floor of the
    next start time, whether it completes or raises. *)
Theorem X15_floor_never_falls_without_interruption :
  forall (rate channels : positive) (cb : LiveConversationFeature.Callbacks)
         (message : LiveConversationFeature.LiveServerMessage)
         (currentTime : Q) (s : LiveConversationFeature.State),
    option_map LiveConversationFeature.interrupted
      (LiveConversationFeature.serverContent message) <> Some true ->
    (LiveConversationFeature.nextStartTimeRef s
     <= LiveConversationFeature.nextStartTimeRef
          (LiveConversationFeature.state_of
             (LiveConversationFeature.onmessage rate channels cb message
                currentTime s)))%Q.
Proof.
  intros rate channels cb message currentTime s Hint.
  rewrite onmessage_steps. cbv zeta.
  destruct (steps_keep cb message s) as (_ & _ & _ & Hnext & _).
  cbv zeta in Hnext.
  set (s1 := LiveMore.after_turn cb message (LiveMore.after_transcripts message s)) in *.
  rewrite <- Hnext.
  assert (forall x,
            (LiveConversationFeature.nextStartTimeRef s1
             <= LiveConversationFeature.nextStartTimeRef x)%Q ->
            (LiveConversationFeature.nextStartTimeRef s1
             <= LiveConversationFeature.nextStartTimeRef
                  (LiveConversationFeature.state_of
                     match option_map LiveConversationFeature.interrupted
                             (LiveConversationFeature.serverContent message) with
                     | Some true =>
                         LiveConversationFeature.Normal
                           (LiveConversationFeature.setCurrentOutputTranscription
                              (fun _ => EmptyString)
                              (LiveConversationFeature.setCurrentInputTranscription
                                 (fun _ => EmptyString)
                                 (LiveConversationFeature.set_nextStartTimeRef 0%Q
                                    (LiveConversationFeature.stop_and_delete_each
                                       (LiveConversationFeature.sourcesRef x) x))))
                     | _ => LiveConversationFeature.Normal x
                     end))%Q) as Hlast.
  { intros x Hx.
    destruct (option_map LiveConversationFeature.interrupted
                (LiveConversationFeature.serverContent message)) as [[|]|];
      [congruence | exact Hx | exact Hx]. }
  assert (LiveConversationFeature.nextStartTimeRef s1
          <= LiveConversationFeature.nextStartTimeRef
               (LiveConversationFeature.raise_floor currentTime s1))%Q as Hraise.
  { destruct (raise_floor_effect currentTime s1) as (_ & _ & _ & -> & _).
    apply Q.le_max_l. }
  destruct (LiveConversationFeature.audioData message) as [[[|c rest]|]|];
    cbn [LiveConversationFeature.state_of];
    try (apply Hlast; apply Qle_refl); try apply Qle_refl.
  destruct (LiveConversationFeature.outputAudioContextRef s1);
    [|apply Hlast; apply Qle_refl].
  destruct (GeminiService.decode (String c rest)) as [bytes|];
    [|exact Hraise].
  destruct (GeminiService.decodeAudioData bytes rate channels) as [audioBuffer|];
    [|exact Hraise].
  apply Hlast.
  destruct (play_effect audioBuffer
              (LiveConversationFeature.raise_floor currentTime s1))
    as (_ & _ & _ & ->).
  eapply Qle_trans; [exact Hraise|]. apply Qle_plus_nonneg, duration_nonneg.
Qed.

(** X15, witness: a transcript delta. *)
Lemma X15_witness :
  (LiveConversationFeature.nextStartTimeRef LiveProperties.playing
   <= LiveConversationFeature.nextStartTimeRef
        (LiveConversationFeature.state_of
           (LiveConversationFeature.onmessage 24000 1 LiveProperties.first_callbacks
              (LiveProperties.input_transcript "so") 0%Q LiveProperties.playing)))%Q.
Proof.
  apply X15_floor_never_falls_without_interruption. discriminate.
Defined.

(** X16.  The handlers keep the active set well formed: if every member is a
    node that was created and no node is in it twice, the same holds after a
    message (handled to the end or raised), after a source has ended and
    after a teardown. *)
Theorem X16_active_set_stays_well_formed :
  forall (rate channels : positive) (cb : LiveConversationFeature.Callbacks)
         (message : LiveConversationFeature.LiveServerMessage) (currentTime : Q)
         (source : LiveConversationFeature.AudioBufferSourceNode)
         (resetError : bool) (s : LiveConversationFeature.State),
    LiveMore.fresh s ->
    LiveMore.fresh
      (LiveConversationFeature.state_of
         (LiveConversationFeature.onmessage rate channels cb message currentTime s))
    /\ LiveMore.fresh (LiveConversationFeature.onended source s)
    /\ LiveMore.fresh (LiveConversationFeature.stopRecording resetError s).
Proof.
  intros rate channels cb message currentTime source resetError s Hfresh.
  split; [|split].
  - rewrite onmessage_steps. cbv zeta.
    destruct (steps_keep cb message s) as (_ & Hset & Hcreated & _).
    cbv zeta in Hset, Hcreated.
    set (s1 := LiveMore.after_turn cb message
                 (LiveMore.after_transcripts message s)) in *.
    assert (LiveMore.fresh s1) as H1 by (now apply (fresh_same s)).
    assert (forall x,
              LiveMore.fresh x ->
              LiveMore.fresh
                (LiveConversationFeature.state_of
                   match option_map LiveConversationFeature.interrupted
                           (LiveConversationFeature.serverContent message) with
                   | Some true =>
                       LiveConversationFeature.Normal
                         (LiveConversationFeature.setCurrentOutputTranscription
                            (fun _ => EmptyString)
                            (LiveConversationFeature.setCurrentInputTranscription
                               (fun _ => EmptyString)
                               (LiveConversationFeature.set_nextStartTimeRef 0%Q
                                  (LiveConversationFeature.stop_and_delete_each
                                     (LiveConversationFeature.sourcesRef x) x))))
                   | _ => LiveConversationFeature.Normal x
                   end)) as Hlast.
    { intros x Hx.
      destruct (option_map LiveConversationFeature.interrupted
                  (LiveConversationFeature.serverContent message)) as [[|]|];
        cbn [LiveConversationFeature.state_of]; try exact Hx.
      apply fresh_empty, interrupted_sources. }
    assert (LiveMore.fresh (LiveConversationFeature.raise_floor currentTime s1))
      as Hraise.
    { destruct (raise_floor_effect currentTime s1) as (_ & Hs & Hc & _).
      now apply (fresh_same s1). }
    destruct (LiveConversationFeature.audioData message) as [[[|c rest]|]|];
      cbn [LiveConversationFeature.state_of];
      try (apply Hlast; exact H1); try exact H1.
    destruct (LiveConversationFeature.outputAudioContextRef s1);
      [|apply Hlast; exact H1].
    destruct (GeminiService.decode (String c rest)) as [bytes|];
      [|exact Hraise].
    destruct (GeminiService.decodeAudioData bytes rate channels) as [audioBuffer|];
      [|exact Hraise].
    apply Hlast, play_keeps_fresh, Hraise.
  - destruct Hfresh as [Hbound Hnodup]. unfold LiveMore.fresh.
    destruct (onended_sources source s) as [-> ->].
    now apply delete_keeps_fresh.
  - apply fresh_empty. now rewrite stopRecording_torn_down.
Qed.

(** X16, witness: the state with two sources playing. *)
Lemma X16_witness :
  LiveMore.fresh
    (LiveConversationFeature.state_of
       (LiveConversationFeature.onmessage 24000 1 LiveProperties.first_callbacks
          LiveProperties.interruption 0%Q LiveProperties.playing))
  /\ LiveMore.fresh
       (LiveConversationFeature.onended
          {| LiveConversationFeature.node := 0; LiveConversationFeature.buffer := LiveProperties.tone |}
          LiveProperties.playing)
  /\ LiveMore.fresh (LiveConversationFeature.stopRecording true LiveProperties.playing).
Proof.
  apply X16_active_set_stays_well_formed.
  split.
  - repeat (apply Forall_cons; [cbn; lia|]). apply Forall_nil.
  - cbn. repeat constructor; cbn; intuition lia.
Defined.

(** X17.  In a well-formed state, playing a buffer adds exactly one new
    source at the end of the active set, and when that source ends the set is
    what it was before. *)
Theorem X17_ended_source_leaves_the_set :
  forall (audioBuffer : GeminiService.AudioBuffer)
         (s : LiveConversationFeature.State),
    LiveMore.fresh s ->
    let source := {| LiveConversationFeature.node := LiveConversationFeature.created s;
                     LiveConversationFeature.buffer := audioBuffer |} in
    LiveConversationFeature.sourcesRef (LiveConversationFeature.play audioBuffer s)
    = LiveConversationFeature.sourcesRef s ++ [source]
    /\ LiveConversationFeature.sourcesRef
         (LiveConversationFeature.onended source
            (LiveConversationFeature.play audioBuffer s))
       = LiveConversationFeature.sourcesRef s.
Proof.
  intros audioBuffer s [Hbound _] source.
  destruct (not_among source (LiveConversationFeature.sourcesRef s)
              (LiveConversationFeature.created s) Hbound (Nat.le_refl _))
    as [Hnew Hdelete].
  destruct (play_effect audioBuffer s) as (_ & Hset & _).
  cbv zeta in Hset. fold source in Hset.
  rewrite (add_new _ _ Hnew) in Hset. split; [exact Hset|].
  destruct (onended_sources source (LiveConversationFeature.play audioBuffer s))
    as [-> _].
  rewrite Hset. unfold LiveConversationFeature.delete in *.
  rewrite filter_app, Hdelete. cbn [filter].
  unfold LiveConversationFeature.same_node. rewrite Nat.eqb_refl.
  cbn [negb]. apply app_nil_r.
Qed.

(** X17, witness: a third buffer on top of the two that play. *)
Lemma X17_witness :
  let source := {| LiveConversationFeature.node :=
                     LiveConversationFeature.created LiveProperties.playing;
                   LiveConversationFeature.buffer := LiveProperties.tone |} in
  LiveConversationFeature.sourcesRef
    (LiveConversationFeature.play LiveProperties.tone LiveProperties.playing)
  = LiveConversationFeature.sourcesRef LiveProperties.playing ++ [source]
  /\ LiveConversationFeature.sourcesRef
       (LiveConversationFeature.onended source
          (LiveConversationFeature.play LiveProperties.tone LiveProperties.playing))
     = LiveConversationFeature.sourcesRef LiveProperties.playing.
Proof.
  apply (X17_ended_source_leaves_the_set LiveProperties.tone LiveProperties.playing).
  split.
  - repeat (apply Forall_cons; [cbn; lia|]). apply Forall_nil.
  - cbn. repeat constructor; cbn; intuition lia.
Defined.

(** X18.  A teardown makes, after what was logged before, the release calls
    for what the state holds and no other call: the session closed, the
    capture node disconnected, the tracks stopped, the capture context and
    then the playback context closed, every source of the active set stopped,
    each only if it is there.  It leaves the history, the loading counter and
    the count of created nodes as they were. *)
Theorem X18_teardown_releases_what_is_held :
  forall (resetError : bool) (s : LiveConversationFeature.State),
    let stopped := LiveConversationFeature.stopRecording resetError s in
    LiveConversationFeature.calls stopped
    = LiveConversationFeature.calls s ++ LiveProperties.released s
    /\ LiveConversationFeature.transcriptionHistory stopped
       = LiveConversationFeature.transcriptionHistory s
    /\ LiveConversationFeature.activeRequests stopped
       = LiveConversationFeature.activeRequests s
    /\ LiveConversationFeature.created stopped = LiveConversationFeature.created s
    /\ LiveConversationFeature.isRecording stopped = false.
Proof.
  intros resetError s stopped. subst stopped.
  rewrite stopRecording_torn_down. repeat split.
Qed.

(** X19.  Whatever status text a failure path sets, the teardown that follows
    in the same handler replaces it: after [onerror], after [onclose] with any
    code and after the catch block of [startRecording] the status reads
    "Conversation ended." and recording is off. *)
Theorem X19_failure_status_is_overwritten :
  forall (e_type reason err_message : string) (code : N)
         (s : LiveConversationFeature.State),
    let ended := "Conversation ended."%string in
    LiveConversationFeature.statusMessage (LiveConversationFeature.onerror e_type s)
    = ended
    /\ LiveConversationFeature.statusMessage
         (LiveConversationFeature.onclose code reason s) = ended
    /\ LiveConversationFeature.statusMessage
         (LiveConversationFeature.startRecording_catch err_message s) = ended
    /\ LiveConversationFeature.isRecording (LiveConversationFeature.onerror e_type s)
       = false
    /\ LiveConversationFeature.isRecording
         (LiveConversationFeature.onclose code reason s) = false
    /\ LiveConversationFeature.isRecording
         (LiveConversationFeature.startRecording_catch err_message s) = false.
Proof.
  intros e_type reason err_message code s ended.
  unfold LiveConversationFeature.onerror, LiveConversationFeature.onclose,
    LiveConversationFeature.startRecording_catch.
  rewrite !stopRecording_torn_down. repeat split.
Qed.

(** X20.  With a loading counter that is not negative, a start that reaches
    [onopen] and a start that fails into the catch block both leave the
    counter where it was; an [onerror] after [onopen] takes one more off it,
    down to zero at most; [onclose] does not touch it. *)
Theorem X20_session_and_the_loading_counter :
  forall (stream : LiveConversationFeature.MediaStream)
         (ctx : LiveConversationFeature.AudioContext)
         (n : LiveConversationFeature.ScriptProcessorNode)
         (e_type reason err_message : string) (code : N)
         (s : LiveConversationFeature.State),
    (0 <= LiveConversationFeature.activeRequests s)%Z ->
    LiveConversationFeature.activeRequests (LiveMore.opened stream ctx n s)
    = LiveConversationFeature.activeRequests s
    /\ LiveConversationFeature.activeRequests
         (LiveConversationFeature.startRecording_catch err_message
            (LiveConversationFeature.startRecording_begin s))
       = LiveConversationFeature.activeRequests s
    /\ LiveConversationFeature.activeRequests
         (LiveConversationFeature.onerror e_type (LiveMore.opened stream ctx n s))
       = Z.max 0 (LiveConversationFeature.activeRequests s - 1)
    /\ LiveConversationFeature.activeRequests
         (LiveConversationFeature.onclose code reason s)
       = LiveConversationFeature.activeRequests s.
Proof.
  intros stream ctx n e_type reason err_message code s Hn.
  unfold LiveMore.opened, LiveConversationFeature.onerror,
    LiveConversationFeature.onclose, LiveConversationFeature.startRecording_catch.
  rewrite !stopRecording_torn_down.
  destruct s. cbn in Hn.
  unfold LiveProperties.torn_down.
  unfold LiveConversationFeature.onopen,
    LiveConversationFeature.startRecording_capture,
    LiveConversationFeature.startRecording_begin.
  destruct (N.eqb code 1000); cells;
    unfold LoadingContext.incrementLoading, LoadingContext.decrementLoading;
    repeat split; lia.
Qed.

(** X20, witness: the first render. *)
Lemma X20_witness :
  LiveConversationFeature.activeRequests
    (LiveMore.opened 1 2 3 LiveConversationFeature.initial)
  = LiveConversationFeature.activeRequests LiveConversationFeature.initial
  /\ LiveConversationFeature.activeRequests
       (LiveConversationFeature.startRecording_catch "denied"
          (LiveConversationFeature.startRecording_begin LiveConversationFeature.initial))
     = LiveConversationFeature.activeRequests LiveConversationFeature.initial
  /\ LiveConversationFeature.activeRequests
       (LiveConversationFeature.onerror "error"
          (LiveMore.opened 1 2 3 LiveConversationFeature.initial))
     = Z.max 0 (LiveConversationFeature.activeRequests LiveConversationFeature.initial - 1)
  /\ LiveConversationFeature.activeRequests
       (LiveConversationFeature.onclose 1006 "gone" LiveConversationFeature.initial)
     = LiveConversationFeature.activeRequests LiveConversationFeature.initial.
Proof.
  apply (X20_session_and_the_loading_counter 1%nat 2%nat 3%nat
           "error" "gone" "denied" 1006%N LiveConversationFeature.initial).
  cbn. unfold LoadingContext.initialActiveRequests. lia.
Defined.

(** ** More on video generation *)

Section VideoMoreFacts.

Import ITree.ITree ITree.ITreeFacts ITree.Events.State ITree.Events.StateFacts.
Import ITreeNotations.
Import VideoGeneration VideoProperties VideoMore.
Local Open Scope itree_scope.

(** Up to the end of the polling: one request and the rounds; then the rest
    runs inside the same [try]. *)
Lemma generateVideo_polls w API_KEY key params wd pending final :
  truthy API_KEY = Some key ->
  scripted w 0 (pending ++ [final]) ->
  Forall (fun o => done o = false) pending ->
  done final = true ->
  run w (generateVideo API_KEY params (initiating wd) (progress wd)
           (complete wd) (label wd))
  ≈ interp_state (handle w)
      (tryCatch (label wd) (after_polling key (complete wd) final))
      {| sdk_calls := S (List.length pending);
         log := polled_log params (initiating wd) (progress wd) pending |}.
Proof.
  intros Hkey Hscript Hpending Hdone.
  unfold run, generateVideo, getAiInstance. rewrite Hkey.
  unfold tryCatch, await.
  rewrite !bind_bind.
  rewrite run_call. cbn. rewrite bind_ret_l. cbn.
  rewrite bind_bind, run_call. cbn. rewrite bind_ret_l. cbn.
  destruct (pending ++ [final]) as [|first rest] eqn:E.
  { destruct pending; discriminate. }
  cbn in Hscript. destruct Hscript as [Hans Hscript]. rewrite Hans.
  rewrite bind_bind, interp_state_bind.
  assert (first = hd final (pending ++ [final])) as -> by now rewrite E.
  rewrite (pollUntilDone_run w (progress wd) final Hdone pending); auto.
  2:{ cbn. now rewrite E. }
  rewrite bind_ret_l. cbn. reflexivity.
Qed.

(** The loop when the provider rejects a poll. *)
Lemma pollUntilDone_rejected w progress e : forall rest cur r,
  done cur = false ->
  Forall (fun o => done o = false) rest ->
  scripted w (sdk_calls r) rest ->
  sdk_answer w (sdk_calls r + List.length rest) = Thrown e ->
  interp_state (handle w) (pollUntilDone progress cur) r
  ≈ Ret ({| sdk_calls := S (sdk_calls r + List.length rest);
            log := log r ++ flat_map (round progress) (cur :: rest) |},
         Thrown e).
Proof.
  induction rest as [|nxt rest IH]; intros cur r Hcur Hrest Hscript Hlast;
    unfold pollUntilDone; rewrite unfold_iter; cbv beta; rewrite Hcur;
    rewrite !bind_bind;
    rewrite run_call; cbn; rewrite bind_ret_l; cbn;
    rewrite bind_bind, run_call; cbn; rewrite bind_ret_l; cbn;
    rewrite bind_bind, run_call; cbn; rewrite bind_ret_l; cbn.
  - rewrite Nat.add_0_r in Hlast. rewrite Hlast.
    rewrite !bind_ret_l, interp_state_ret.
    unfold answered, record. cbn.
    rewrite Nat.add_0_r, <- !app_assoc. cbn. reflexivity.
  - cbn in Hscript. destruct Hscript as [Hans Hscript]. rewrite Hans.
    rewrite bind_ret_l, interp_state_tau, tau_eutt.
    match goal with
    | |- context [ITree.iter ?body nxt] =>
        change (ITree.iter body nxt) with (pollUntilDone progress nxt)
    end.
    inversion Hrest as [|? ? Hnxt Hrest']; subst.
    rewrite IH; auto.
    + cbn. rewrite <- !app_assoc. cbn.
      replace (S (S (sdk_calls r + List.length rest)))
        with (S (sdk_calls r + S (List.length rest))) by lia.
      reflexivity.
    + cbn. rewrite <- Hlast. f_equal. cbn. lia.
Qed.

Lemma generateVideo_finished w API_KEY key params wd pending final :
  truthy API_KEY = Some key ->
  scripted w 0 (pending ++ [final]) ->
  Forall (fun o => done o = false) pending ->
  done final = true ->
  forall link,
    truthy (video_uri final) = Some link ->
    match fetch_answer w (link ++ "&key=" ++ key)%string with
    | Thrown e =>
        run w (generateVideo API_KEY params (initiating wd) (progress wd)
                 (complete wd) (label wd))
        ≈ Ret ({| sdk_calls := S (List.length pending);
                  log := polled_log params (initiating wd) (progress wd) pending
                         ++ [Progressed (complete wd);
                             Fetched (link ++ "&key=" ++ key)%string;
                             Logged (label wd) e] |},
               Thrown e)
    | Returned response =>
        if ok response then
          match blob_answer w response with
          | Thrown e =>
              run w (generateVideo API_KEY params (initiating wd) (progress wd)
                       (complete wd) (label wd))
              ≈ Ret ({| sdk_calls := S (List.length pending);
                        log := polled_log params (initiating wd) (progress wd) pending
                               ++ [Progressed (complete wd);
                                   Fetched (link ++ "&key=" ++ key)%string;
                                   ReadBlob response;
                                   Logged (label wd) e] |},
                     Thrown e)
          | Returned blob =>
              run w (generateVideo API_KEY params (initiating wd) (progress wd)
                       (complete wd) (label wd))
              ≈ Ret ({| sdk_calls := S (List.length pending);
                        log := polled_log params (initiating wd) (progress wd) pending
                               ++ [Progressed (complete wd);
                                   Fetched (link ++ "&key=" ++ key)%string;
                                   ReadBlob response;
                                   MadeURL blob] |},
                     Returned (object_url w blob))
          end
        else
          run w (generateVideo API_KEY params (initiating wd) (progress wd)
                   (complete wd) (label wd))
          ≈ Ret ({| sdk_calls := S (List.length pending);
                    log := polled_log params (initiating wd) (progress wd) pending
                           ++ [Progressed (complete wd);
                               Fetched (link ++ "&key=" ++ key)%string;
                               Logged (label wd)
                                 ("Failed to fetch video: " ++ statusText response)%string] |},
                 Thrown ("Failed to fetch video: " ++ statusText response)%string)
    end.
Proof.
  intros Hkey Hscript Hpending Hdone link Hlink.
  pose proof (generateVideo_polls w API_KEY key params wd pending final
                Hkey Hscript Hpending Hdone) as Hpolls.
  destruct (fetch_answer w (link ++ "&key=" ++ key)%string) as [response|e] eqn:Hf;
    [destruct (ok response) eqn:Hok;
       [destruct (blob_answer w response) as [blob|e] eqn:Hb|]|];
    rewrite Hpolls; unfold tryCatch, after_polling, await; rewrite Hlink;
    repeat (first [ rewrite bind_bind
                  | rewrite run_call; cbn -[String.append]
                  | rewrite bind_ret_l; cbn -[String.append]
                  | rewrite Hf | rewrite Hok | rewrite Hb ]);
    rewrite ?interp_state_ret; unfold record, polled_log;
    cbn -[String.append]; rewrite <- ?app_assoc; reflexivity.
Qed.

Lemma generateVideo_rejected w API_KEY key params wd pending e :
  truthy API_KEY = Some key ->
  scripted w 0 pending ->
  Forall (fun o => done o = false) pending ->
  sdk_answer w (List.length pending) = Thrown e ->
  run w (generateVideo API_KEY params (initiating wd) (progress wd)
           (complete wd) (label wd))
  ≈ Ret ({| sdk_calls := S (List.length pending);
            log := polled_log params (initiating wd) (progress wd) pending
                   ++ [Logged (label wd) e] |},
         Thrown e).
Proof.
  intros Hkey Hscript Hpending Hlast.
  unfold run, generateVideo, getAiInstance. rewrite Hkey.
  unfold tryCatch, await.
  rewrite !bind_bind.
  rewrite run_call. cbn -[String.append]. rewrite bind_ret_l. cbn -[String.append].
  rewrite bind_bind, run_call. cbn -[String.append].
  rewrite bind_ret_l. cbn -[String.append].
  destruct pending as [|first rest].
  - cbn in Hlast. rewrite Hlast.
    rewrite bind_ret_l, run_call. cbn -[String.append].
    rewrite bind_ret_l, interp_state_ret. reflexivity.
  - cbn in Hscript. destruct Hscript as [Hans Hscript]. rewrite Hans.
    inversion Hpending as [|? ? Hfirst Hrest]; subst.
    rewrite bind_bind, interp_state_bind.
    rewrite (pollUntilDone_rejected w (progress wd) e rest first); auto.
    rewrite bind_ret_l. cbn -[String.append].
    rewrite bind_ret_l, run_call. cbn -[String.append].
    rewrite bind_ret_l, interp_state_ret.
    unfold record, polled_log. cbn -[String.append].
    rewrite <- ?app_assoc. cbn -[String.append].
    reflexivity.
Qed.

Lemma generateVideo_without_key w API_KEY params wd :
  truthy API_KEY = None ->
  run w (generateVideo API_KEY params (initiating wd) (progress wd)
           (complete wd) (label wd))
  ≈ Ret ({| sdk_calls := 0; log := [] |},
         Thrown "API_KEY is not defined. Please ensure it is set as an environment variable.").
Proof.
  intros Hkey. unfold run, generateVideo, getAiInstance. rewrite Hkey.
  rewrite interp_state_ret. reflexivity.
Qed.

(** X21.  When the job ends with a link and the video can be fetched and
    read, each method returns the object URL made of the video; after the
    polls it reports completion, fetches the link with the key appended, reads
    the body and makes the URL, and calls nothing else. *)
Theorem X21_video_is_fetched_with_the_key :
  forall (w : World) (API_KEY : option string) (key link : string)
         (prompt imageBytes imageMimeType : string)
         (aspectRatio : AspectRatio) (resolution : Resolution)
         (pending : list Operation) (final : Operation)
         (response : Response) (blob : Blob),
    truthy API_KEY = Some key ->
    scripted w 0 (pending ++ [final]) ->
    Forall (fun o => done o = false) pending ->
    done final = true ->
    truthy (video_uri final) = Some link ->
    fetch_answer w (link ++ "&key=" ++ key)%string = Returned response ->
    ok response = true ->
    blob_answer w response = Returned blob ->
    both_end w API_KEY prompt imageBytes imageMimeType aspectRatio resolution
      (S (List.length pending)) (Returned (object_url w blob))
      (fun params wd =>
         polled_log params (initiating wd) (progress wd) pending
           ++ [Progressed (complete wd);
               Fetched (link ++ "&key=" ++ key)%string;
               ReadBlob response;
               MadeURL blob]).
Proof.
  intros w API_KEY key link prompt imageBytes imageMimeType aspectRatio
         resolution pending final response blob
         Hkey Hscript Hpending Hdone Hlink Hf Hok Hb.
  split.
  - pose proof (generateVideo_finished w API_KEY key
                  (textParams prompt aspectRatio resolution) text_wording
                  pending final Hkey Hscript Hpending Hdone link Hlink) as H.
    rewrite Hf, Hok, Hb in H. exact H.
  - pose proof (generateVideo_finished w API_KEY key
                  (imageParams prompt imageBytes imageMimeType aspectRatio resolution)
                  image_wording
                  pending final Hkey Hscript Hpending Hdone link Hlink) as H.
    rewrite Hf, Hok, Hb in H. exact H.
Qed.

(** X21, witness: one poll finds the job running, the next finds the link. *)
Lemma X21_witness :
  both_end (serving good_response) (Some "secret"%string)
    "a cat"%string "image"%string "image/png"%string AR_16_9 Res_720p
    2 (Returned "blob:video"%string)
    (fun params wd =>
       polled_log params (initiating wd) (progress wd) [running]
         ++ [Progressed (complete wd);
             Fetched "https://v/1?x=1&key=secret"%string;
             ReadBlob good_response;
             MadeURL 42%nat]).
Proof.
  apply (X21_video_is_fetched_with_the_key
           (serving good_response) (Some "secret"%string) "secret"%string
           "https://v/1?x=1"%string
           "a cat"%string "image"%string "image/png"%string AR_16_9 Res_720p
           [running] finished_with_link good_response 42%nat).
  - reflexivity.
  - cbn. repeat split.
  - repeat constructor.
  - reflexivity.
  - reflexivity.
  - reflexivity.
  - reflexivity.
  - reflexivity.
Defined.

(** X22.  Without an API key, missing or empty, each method raises the
    API_KEY error at once: nothing is reported, requested, polled or
    fetched, and nothing is written to the console. *)
Theorem X22_no_key_no_call :
  forall (w : World) (API_KEY : option string)
         (prompt imageBytes imageMimeType : string)
         (aspectRatio : AspectRatio) (resolution : Resolution),
    truthy API_KEY = None ->
    both_end w API_KEY prompt imageBytes imageMimeType aspectRatio resolution
      0 (Thrown "API_KEY is not defined. Please ensure it is set as an environment variable.")
      (fun _ _ => []).
Proof.
  intros w API_KEY prompt imageBytes imageMimeType aspectRatio resolution Hkey.
  split.
  - exact (generateVideo_without_key w API_KEY
             (textParams prompt aspectRatio resolution) text_wording Hkey).
  - exact (generateVideo_without_key w API_KEY
             (imageParams prompt imageBytes imageMimeType aspectRatio resolution)
             image_wording Hkey).
Qed.

(** X22, witness: the key is the empty string. *)
Lemma X22_witness :
  both_end example_world (Some EmptyString)
    "a cat"%string "image"%string "image/png"%string AR_16_9 Res_720p
    0 (Thrown "API_KEY is not defined. Please ensure it is set as an environment variable.")
    (fun _ _ => []).
Proof.
  apply X22_no_key_no_call. reflexivity.
Defined.

(** X23.  When the provider rejects a call, the request itself or a poll
    after some reports of a job not done, each method writes the error to the
    console and raises it again: no further poll, no fetch, no second
    request. *)
Theorem X23_rejected_call_is_raised_again :
  forall (w : World) (API_KEY : option string) (key e : string)
         (prompt imageBytes imageMimeType : string)
         (aspectRatio : AspectRatio) (resolution : Resolution)
         (pending : list Operation),
    truthy API_KEY = Some key ->
    scripted w 0 pending ->
    Forall (fun o => done o = false) pending ->
    sdk_answer w (List.length pending) = Thrown e ->
    both_end w API_KEY prompt imageBytes imageMimeType aspectRatio resolution
      (S (List.length pending)) (Thrown e)
      (fun params wd =>
         polled_log params (initiating wd) (progress wd) pending
           ++ [Logged (label wd) e]).
Proof.
  intros w API_KEY key e prompt imageBytes imageMimeType aspectRatio resolution
         pending Hkey Hscript Hpending Hlast.
  split.
  - exact (generateVideo_rejected w API_KEY key
             (textParams prompt aspectRatio resolution) text_wording pending e
             Hkey Hscript Hpending Hlast).
  - exact (generateVideo_rejected w API_KEY key
             (imageParams prompt imageBytes imageMimeType aspectRatio resolution)
             image_wording pending e Hkey Hscript Hpending Hlast).
Qed.

(** X23, witness: the request and one poll are answered, the second poll is
    rejected. *)
Lemma X23_witness :
  both_end (failing_after 2) (Some "secret"%string)
    "a cat"%string "image"%string "image/png"%string AR_16_9 Res_720p
    3 (Thrown "Requested entity was not found.")
    (fun params wd =>
       polled_log params (initiating wd) (progress wd) [running; running]
         ++ [Logged (label wd) "Requested entity was not found."]).
Proof.
  apply (X23_rejected_call_is_raised_again
           (failing_after 2) (Some "secret"%string) "secret"%string
           "Requested entity was not found."%string
           "a cat"%string "image"%string "image/png"%string AR_16_9 Res_720p
           [running; running]).
  - reflexivity.
  - cbn. repeat split.
  - repeat constructor.
  - reflexivity.
Defined.

(** X24.  When the video is fetched and the response is not ok, each method
    raises "Failed to fetch video: " followed by the status text, after
    writing it to the console; the body is not read and no URL is made. *)
Theorem X24_failed_fetch_is_raised :
  forall (w : World) (API_KEY : option string) (key link : string)
         (prompt imageBytes imageMimeType : string)
         (aspectRatio : AspectRatio) (resolution : Resolution)
         (pending : list Operation) (final : Operation) (response : Response),
    truthy API_KEY = Some key ->
    scripted w 0 (pending ++ [final]) ->
    Forall (fun o => done o = false) pending ->
    done final = true ->
    truthy (video_uri final) = Some link ->
    fetch_answer w (link ++ "&key=" ++ key)%string = Returned response ->
    ok response = false ->
    both_end w API_KEY prompt imageBytes imageMimeType aspectRatio resolution
      (S (List.length pending))
      (Thrown ("Failed to fetch video: " ++ statusText response)%string)
      (fun params wd =>
         polled_log params (initiating wd) (progress wd) pending
           ++ [Progressed (complete wd);
               Fetched (link ++ "&key=" ++ key)%string;
               Logged (label wd)
                 ("Failed to fetch video: " ++ statusText response)%string]).
Proof.
  intros w API_KEY key link prompt imageBytes imageMimeType aspectRatio
         resolution pending final response
         Hkey Hscript Hpending Hdone Hlink Hf Hok.
  split.
  - pose proof (generateVideo_finished w API_KEY key
                  (textParams prompt aspectRatio resolution) text_wording
                  pending final Hkey Hscript Hpending Hdone link Hlink) as H.
    rewrite Hf, Hok in H. exact H.
  - pose proof (generateVideo_finished w API_KEY key
                  (imageParams prompt imageBytes imageMimeType aspectRatio resolution)
                  image_wording
                  pending final Hkey Hscript Hpending Hdone link Hlink) as H.
    rewrite Hf, Hok in H. exact H.
Qed.

(** X24, witness: the link answers "Forbidden". *)
Lemma X24_witness :
  both_end (serving bad_response) (Some "secret"%string)
    "a cat"%string "image"%string "image/png"%string AR_16_9 Res_720p
    2 (Thrown "Failed to fetch video: Forbidden")
    (fun params wd =>
       polled_log params (initiating wd) (progress wd) [running]
         ++ [Progressed (complete wd);
             Fetched "https://v/1?x=1&key=secret"%string;
             Logged (label wd) "Failed to fetch video: Forbidden"]).
Proof.
  apply (X24_failed_fetch_is_raised
           (serving bad_response) (Some "secret"%string) "secret"%string
           "https://v/1?x=1"%string
           "a cat"%string "image"%string "image/png"%string AR_16_9 Res_720p
           [running] finished_with_link bad_response).
  - reflexivity.
  - cbn. repeat split.
  - repeat constructor.
  - reflexivity.
  - reflexivity.
  - reflexivity.
  - reflexivity.
Defined.

End VideoMoreFacts.

(* ------------------------------------------------------------------ *)
(** ** The request handlers and the loading counter *)

Section HandlerFacts.

Import VideoGeneration.

Lemma bracket (n : Z) :
  (0 <= n)%Z ->
  LoadingContext.decrementLoading (LoadingContext.incrementLoading n) = n.
Proof.
  unfold LoadingContext.decrementLoading, LoadingContext.incrementLoading. lia.
Qed.

Lemma bracket_twice (n : Z) :
  (0 <= n)%Z ->
  LoadingContext.decrementLoading
    (LoadingContext.decrementLoading (LoadingContext.incrementLoading n))
  = Z.max 0 (n - 1).
Proof.
  intros Hn. rewrite bracket by exact Hn. reflexivity.
Qed.

End HandlerFacts.

(** X25.  A grounding request with a query leaves the shared loading counter
    where it found it, whether the service resolves or rejects, on every path
    but one: a Maps request without a location decrements before returning
    and again in the finally block, so the counter ends one below where it
    was (clamped at 0), and no service call is made.  The handler always ends
    with its own loading flag off. *)
Theorem X25_maps_without_location_decrements_twice :
  forall (answer : VideoGeneration.Outcome GroundingFeature.Result)
         (s : GroundingFeature.State),
    (0 <= GroundingFeature.activeRequests s)%Z ->
    JsString.trim (GroundingFeature.prompt s) <> EmptyString ->
    let s' := GroundingFeature.handleGroundingSearch answer s in
    GroundingFeature.isLoading s' = false /\
    match GroundingFeature.searchType s, GroundingFeature.userLocation s with
    | GroundingFeature.maps, None =>
        GroundingFeature.activeRequests s'
        = Z.max 0 (GroundingFeature.activeRequests s - 1)
        /\ GroundingFeature.calls s' = GroundingFeature.calls s
    | _, _ =>
        GroundingFeature.activeRequests s' = GroundingFeature.activeRequests s
    end.
Proof.
  intros answer s Hn Hprompt s'. subst s'.
  unfold GroundingFeature.handleGroundingSearch.
  destruct (String.eqb_spec (JsString.trim (GroundingFeature.prompt s)) EmptyString)
    as [Hempty | _]; [contradiction |].
  destruct s as [p r urls loading err type loc active log].
  cbn in Hn.
  destruct type; [| destruct loc]; destruct answer; cbn;
    rewrite ?bracket_twice, ?bracket by exact Hn; auto.
Qed.

(** X25, witness: another request is in flight (the counter is 1) when a
    Maps query is sent without a location: the counter ends at 0. *)
Lemma X25_witness :
  let s := {| GroundingFeature.prompt := "pizza";
              GroundingFeature.response := None;
              GroundingFeature.groundingUrls := [];
              GroundingFeature.isLoading := false;
              GroundingFeature.error := None;
              GroundingFeature.searchType := GroundingFeature.maps;
              GroundingFeature.userLocation := None;
              GroundingFeature.activeRequests := 1;
              GroundingFeature.calls := [] |} in
  let s' := GroundingFeature.handleGroundingSearch
              (VideoGeneration.Thrown "unused") s in
  GroundingFeature.isLoading s' = false /\
  GroundingFeature.activeRequests s' = 0%Z /\
  GroundingFeature.calls s' = [].
Proof.
  exact (X25_maps_without_location_decrements_twice
           (VideoGeneration.Thrown "unused")
           {| GroundingFeature.prompt := "pizza";
              GroundingFeature.response := None;
              GroundingFeature.groundingUrls := [];
              GroundingFeature.isLoading := false;
              GroundingFeature.error := None;
              GroundingFeature.searchType := GroundingFeature.maps;
              GroundingFeature.userLocation := None;
              GroundingFeature.activeRequests := 1;
              GroundingFeature.calls := [] |}
           ltac:(cbn; lia) ltac:(vm_compute; discriminate)).
Defined.

(* ------------------------------------------------------------------ *)
(** ** The text-to-speech handler *)

Section TTSFacts.

Import GeminiService TTSFeature TTSProperties.

Variables (rate channels : positive) (atobMessage rangeMessage : string).

(** The handler, when [generateSpeech] rejects. *)
Lemma rejected_speech message s :
  JsString.trim (text s) <> EmptyString ->
  handleGenerateAndPlaySpeech rate channels atobMessage rangeMessage
    (VideoGeneration.Thrown message) s
  = {| text := text s;
       selectedVoice := selectedVoice s;
       isLoading := false;
       error := Some ("Failed to generate speech: "
                      ++ JsString.or_else message "Unknown error.")%string;
       audioContextRef := audioContextRef s;
       audioSourceRef := None;
       created := created s;
       calls := calls s ++ released s
                ++ [generateSpeech (text s) (selectedVoice s);
                    console_error "Text-to-Speech failed:" message] |}.
Proof.
  intros Htext. unfold handleGenerateAndPlaySpeech.
  destruct (String.eqb_spec (JsString.trim (text s)) EmptyString)
    as [Hempty | _]; [contradiction |].
  destruct s as [t voice loading err [ctx|] [source|] n log];
    cbn; rewrite <- ?app_assoc; reflexivity.
Qed.

(** The handler, when [generateSpeech] resolves to audio that decodes. *)
Lemma played_speech base64Audio bytes audioBuffer s :
  JsString.trim (text s) <> EmptyString ->
  decode base64Audio = Some bytes ->
  decodeAudioData bytes rate channels = Some audioBuffer ->
  handleGenerateAndPlaySpeech rate channels atobMessage rangeMessage
    (VideoGeneration.Returned base64Audio) s
  = let source := {| node := S (created s); buffer := audioBuffer |} in
    {| text := text s;
       selectedVoice := selectedVoice s;
       isLoading := false;
       error := None;
       audioContextRef := Some (created s);
       audioSourceRef := Some source;
       created := S (S (created s));
       calls := calls s ++ released s
                ++ [generateSpeech (text s) (selectedVoice s);
                    new_AudioContext (created s) rate;
                    source_connect source (created s);
                    source_start source] |}.
Proof.
  intros Htext Hbytes Hbuffer. unfold handleGenerateAndPlaySpeech.
  destruct (String.eqb_spec (JsString.trim (text s)) EmptyString)
    as [Hempty | _]; [contradiction |].
  unfold attempt, playSpeech. rewrite Hbytes, Hbuffer.
  destruct s as [t voice loading err [ctx|] [source|] n log];
    cbn; rewrite <- ?app_assoc; reflexivity.
Qed.

(** The handler, when the audio has an odd number of bytes. *)
Lemma odd_speech base64Audio bytes s :
  JsString.trim (text s) <> EmptyString ->
  decode base64Audio = Some bytes ->
  decodeAudioData bytes rate channels = None ->
  handleGenerateAndPlaySpeech rate channels atobMessage rangeMessage
    (VideoGeneration.Returned base64Audio) s
  = {| text := text s;
       selectedVoice := selectedVoice s;
       isLoading := false;
       error := Some ("Failed to generate speech: "
                      ++ JsString.or_else rangeMessage "Unknown error.")%string;
       audioContextRef := Some (created s);
       audioSourceRef := None;
       created := S (created s);
       calls := calls s ++ released s
                ++ [generateSpeech (text s) (selectedVoice s);
                    new_AudioContext (created s) rate;
                    console_error "Text-to-Speech failed:" rangeMessage] |}.
Proof.
  intros Htext Hbytes Hbuffer. unfold handleGenerateAndPlaySpeech.
  destruct (String.eqb_spec (JsString.trim (text s)) EmptyString)
    as [Hempty | _]; [contradiction |].
  unfold attempt, playSpeech. rewrite Hbytes, Hbuffer.
  destruct s as [t voice loading err [ctx|] [source|] n log];
    cbn; rewrite <- ?app_assoc; reflexivity.
Qed.

End TTSFacts.

(** X26.  A context once in the cell is closed at the start of every run and
    stays in the cell when the run fails: two runs in a row in which
    [generateSpeech] rejects close the same context twice.  The second run
    stops no source, the first having emptied that cell. *)
Theorem X26_failed_speech_closes_the_same_context_again :
  forall (rate channels : positive) (atobMessage rangeMessage : string)
         (first second : string) (ctx : TTSFeature.AudioContext)
         (s : TTSFeature.State),
    JsString.trim (TTSFeature.text s) <> EmptyString ->
    TTSFeature.audioContextRef s = Some ctx ->
    let handler :=
      TTSFeature.handleGenerateAndPlaySpeech rate channels atobMessage rangeMessage in
    let s' := handler (VideoGeneration.Thrown second)
                (handler (VideoGeneration.Thrown first) s) in
    TTSFeature.audioContextRef s' = Some ctx /\
    TTSFeature.audioSourceRef s' = None /\
    TTSFeature.isLoading s' = false /\
    TTSFeature.error s'
    = Some ("Failed to generate speech: "
            ++ JsString.or_else second "Unknown error.")%string /\
    TTSFeature.calls s'
    = TTSFeature.calls s ++ TTSProperties.released s
      ++ [TTSFeature.generateSpeech (TTSFeature.text s) (TTSFeature.selectedVoice s);
          TTSFeature.console_error "Text-to-Speech failed:" first;
          TTSFeature.audioContext_close ctx;
          TTSFeature.generateSpeech (TTSFeature.text s) (TTSFeature.selectedVoice s);
          TTSFeature.console_error "Text-to-Speech failed:" second].
Proof.
  intros rate channels atobMessage rangeMessage first second ctx s Htext Hctx
         handler s'.
  subst s' handler.
  rewrite (rejected_speech rate channels atobMessage rangeMessage first s Htext).
  rewrite rejected_speech by exact Htext.
  unfold TTSProperties.released at 1. cbn. rewrite Hctx.
  repeat split. rewrite <- !app_assoc. reflexivity.
Qed.

(** X26, witness: a source is playing on context 0 when the first run
    starts. *)
Lemma X26_witness :
  let playing :=
    {| TTSFeature.text := "hello";
       TTSFeature.selectedVoice := "Zephyr";
       TTSFeature.isLoading := false;
       TTSFeature.error := None;
       TTSFeature.audioContextRef := Some 0%nat;
       TTSFeature.audioSourceRef :=
         Some {| TTSFeature.node := 1%nat;
                 TTSFeature.buffer :=
                   {| GeminiService.numberOfChannels := 1;
                      GeminiService.length := 0;
                      GeminiService.sampleRate := 24000;
                      GeminiService.channelData := [[]] |} |};
       TTSFeature.created := 2;
       TTSFeature.calls := [] |} in
  let handler := TTSFeature.handleGenerateAndPlaySpeech 24000 1 "bad" "odd" in
  let s' := handler (VideoGeneration.Thrown "quota")
              (handler (VideoGeneration.Thrown EmptyString) playing) in
  TTSFeature.audioContextRef s' = Some 0%nat /\
  TTSFeature.audioSourceRef s' = None /\
  TTSFeature.isLoading s' = false /\
  TTSFeature.error s' = Some "Failed to generate speech: quota"%string /\
  TTSFeature.calls s'
  = [TTSFeature.source_stop
       {| TTSFeature.node := 1%nat;
          TTSFeature.buffer :=
            {| GeminiService.numberOfChannels := 1;
               GeminiService.length := 0;
               GeminiService.sampleRate := 24000;
               GeminiService.channelData := [[]] |} |};
     TTSFeature.audioContext_close 0%nat;
     TTSFeature.generateSpeech "hello" "Zephyr";
     TTSFeature.console_error "Text-to-Speech failed:" EmptyString;
     TTSFeature.audioContext_close 0%nat;
     TTSFeature.generateSpeech "hello" "Zephyr";
     TTSFeature.console_error "Text-to-Speech failed:" "quota"].
Proof.
  refine (X26_failed_speech_closes_the_same_context_again
            24000 1 "bad" "odd" EmptyString "quota" 0%nat _ _ _).
  - vm_compute. discriminate.
  - reflexivity.
Defined.

(** X27.  Whatever even number of bytes the service sends in base64, enough
    for one frame at least (the context allocates no empty buffer), the
    handler plays it: it makes a fresh context, decodes the bytes into a
    buffer of half as many samples per run of channels, connects and starts
    one new source carrying that buffer, and keeps context and source in
    their cells, with no error. *)
Theorem X27_speech_is_played_on_a_fresh_context :
  forall (rate channels : positive) (atobMessage rangeMessage : string)
         (bytes : GeminiService.Uint8Array) (s : TTSFeature.State),
    JsString.trim (TTSFeature.text s) <> EmptyString ->
    Nat.even (List.length bytes) = true ->
    (0 < List.length bytes / 2 / Pos.to_nat channels)%nat ->
    exists audioBuffer : GeminiService.AudioBuffer,
      GeminiService.decodeAudioData bytes rate channels = Some audioBuffer /\
      GeminiService.length audioBuffer
      = (List.length bytes / 2 / Pos.to_nat channels)%nat /\
      let source := {| TTSFeature.node := S (TTSFeature.created s);
                       TTSFeature.buffer := audioBuffer |} in
      let s' := TTSFeature.handleGenerateAndPlaySpeech
                  rate channels atobMessage rangeMessage
                  (VideoGeneration.Returned (GeminiService.encode bytes)) s in
      TTSFeature.audioContextRef s' = Some (TTSFeature.created s) /\
      TTSFeature.audioSourceRef s' = Some source /\
      TTSFeature.error s' = None /\
      TTSFeature.isLoading s' = false /\
      TTSFeature.calls s'
      = TTSFeature.calls s ++ TTSProperties.released s
        ++ [TTSFeature.generateSpeech (TTSFeature.text s) (TTSFeature.selectedVoice s);
            TTSFeature.new_AudioContext (TTSFeature.created s) rate;
            TTSFeature.source_connect source (TTSFeature.created s);
            TTSFeature.source_start source].
Proof.
  intros rate channels atobMessage rangeMessage bytes s Htext Heven _.
  pose proof (Int16Array_of_buffer_parity bytes) as Hparity.
  destruct (GeminiService.Int16Array_of_buffer bytes) as [vs|] eqn:Hvs.
  2:{ rewrite <- Nat.negb_even, Heven in Hparity. discriminate. }
  destruct Hparity as (_ & Hlen & _).
  assert (Hbuffer : exists audioBuffer,
             GeminiService.decodeAudioData bytes rate channels = Some audioBuffer
             /\ GeminiService.length audioBuffer
                = (List.length vs / Pos.to_nat channels)%nat).
  { unfold GeminiService.decodeAudioData. rewrite Hvs. eexists. split; reflexivity. }
  destruct Hbuffer as (audioBuffer & Hbuffer & Hframes).
  exists audioBuffer. split; [exact Hbuffer |]. split.
  - rewrite Hframes, Hlen. f_equal.
    rewrite Nat.mul_comm. symmetry. apply Nat.div_mul. discriminate.
  - cbv zeta.
    rewrite (played_speech rate channels atobMessage rangeMessage
               (GeminiService.encode bytes) bytes audioBuffer s Htext
               (decode_encode bytes) Hbuffer).
    cbn. repeat split.
Qed.

(** X27, witness: four bytes, two samples on one channel. *)
Lemma X27_witness :
  exists audioBuffer : GeminiService.AudioBuffer,
    GeminiService.decodeAudioData [x00; x40; x00; xc0] 24000 1 = Some audioBuffer /\
    GeminiService.length audioBuffer = (4 / 2 / Pos.to_nat 1)%nat /\
    let source := {| TTSFeature.node := 1;
                     TTSFeature.buffer := audioBuffer |} in
    let s' := TTSFeature.handleGenerateAndPlaySpeech 24000 1 "bad" "odd"
                (VideoGeneration.Returned
                   (GeminiService.encode [x00; x40; x00; xc0]))
                TTSProperties.speaking in
    TTSFeature.audioContextRef s' = Some 0%nat /\
    TTSFeature.audioSourceRef s' = Some source /\
    TTSFeature.error s' = None /\
    TTSFeature.isLoading s' = false /\
    TTSFeature.calls s'
    = [] ++ []
      ++ [TTSFeature.generateSpeech "hello" "Zephyr";
          TTSFeature.new_AudioContext 0%nat 24000;
          TTSFeature.source_connect source 0%nat;
          TTSFeature.source_start source].
Proof.
  refine (X27_speech_is_played_on_a_fresh_context
            24000 1 "bad" "odd" [x00; x40; x00; xc0] TTSProperties.speaking _ _ _).
  - vm_compute. discriminate.
  - reflexivity.
  - vm_compute. repeat constructor.
Defined.

(** X28.  Audio of an odd number of bytes is an error after the fact: the
    fresh context has been made and put in its cell, no source is made or
    started, and the message shown is the platform's for the typed array.
    The context is left open until the next run closes it. *)
Theorem X28_odd_speech_leaves_an_idle_context :
  forall (rate channels : positive) (atobMessage rangeMessage : string)
         (bytes : GeminiService.Uint8Array) (s : TTSFeature.State),
    JsString.trim (TTSFeature.text s) <> EmptyString ->
    Nat.odd (List.length bytes) = true ->
    let s' := TTSFeature.handleGenerateAndPlaySpeech
                rate channels atobMessage rangeMessage
                (VideoGeneration.Returned (GeminiService.encode bytes)) s in
    TTSFeature.audioContextRef s' = Some (TTSFeature.created s) /\
    TTSFeature.audioSourceRef s' = None /\
    TTSFeature.isLoading s' = false /\
    TTSFeature.error s'
    = Some ("Failed to generate speech: "
            ++ JsString.or_else rangeMessage "Unknown error.")%string /\
    TTSFeature.calls s'
    = TTSFeature.calls s ++ TTSProperties.released s
      ++ [TTSFeature.generateSpeech (TTSFeature.text s) (TTSFeature.selectedVoice s);
          TTSFeature.new_AudioContext (TTSFeature.created s) rate;
          TTSFeature.console_error "Text-to-Speech failed:" rangeMessage].
Proof.
  intros rate channels atobMessage rangeMessage bytes s Htext Hodd s'. subst s'.
  pose proof (Int16Array_of_buffer_parity bytes) as Hparity.
  destruct (GeminiService.Int16Array_of_buffer bytes) as [vs|] eqn:Hvs.
  { destruct Hparity as (Heven & _). congruence. }
  rewrite (odd_speech rate channels atobMessage rangeMessage
             (GeminiService.encode bytes) bytes s Htext (decode_encode bytes)).
  - cbn. repeat split.
  - unfold GeminiService.decodeAudioData. rewrite Hvs. reflexivity.
Qed.

(** X28, witness: three bytes. *)
Lemma X28_witness :
  let s' := TTSFeature.handleGenerateAndPlaySpeech 24000 1 "bad" "odd"
              (VideoGeneration.Returned (GeminiService.encode [x00; x40; x00]))
              TTSProperties.speaking in
  TTSFeature.audioContextRef s' = Some 0%nat /\
  TTSFeature.audioSourceRef s' = None /\
  TTSFeature.isLoading s' = false /\
  TTSFeature.error s' = Some "Failed to generate speech: odd"%string /\
  TTSFeature.calls s'
  = [] ++ []
    ++ [TTSFeature.generateSpeech "hello" "Zephyr";
        TTSFeature.new_AudioContext 0%nat 24000;
        TTSFeature.console_error "Text-to-Speech failed:" "odd"].
Proof.
  refine (X28_odd_speech_leaves_an_idle_context
            24000 1 "bad" "odd" [x00; x40; x00] TTSProperties.speaking _ _).
  - vm_compute. discriminate.
  - reflexivity.
Defined.

(* ------------------------------------------------------------------ *)
(** ** Reading a file, and the video page *)

Section BlobFacts.

Import Base64 BlobReader HandlerProperties.

Lemma split_without sep s :
  has sep s = false -> split sep s = [s].
Proof.
  unfold has. induction s as [|c rest IH]; intros H.
  - reflexivity.
  - cbn in H. apply orb_false_elim in H. destruct H as [Hc Hrest].
    cbn [split]. rewrite Ascii.eqb_sym, Hc, (IH Hrest). reflexivity.
Qed.

Lemma split_at sep a b :
  has sep a = false ->
  split sep (a ++ String sep b)%string = a :: split sep b.
Proof.
  unfold has. induction a as [|c rest IH]; intros H.
  - cbn. rewrite Ascii.eqb_refl. reflexivity.
  - cbn in H. apply orb_false_elim in H. destruct H as [Hc Hrest].
    cbn [split String.append]. rewrite Ascii.eqb_sym, Hc, (IH Hrest). reflexivity.
Qed.

Lemma sextet_char_no_comma n : Ascii.eqb ","%char (sextet_char n) = false.
Proof.
  unfold sextet_char.
  destruct (nth_in_or_default (N.to_nat n) alphabet pad) as [Hin | ->];
    [| reflexivity].
  revert Hin. generalize (nth (N.to_nat n) alphabet pad). intros c Hin.
  assert (Hall : forallb (fun c => negb (Ascii.eqb ","%char c)) alphabet = true)
    by reflexivity.
  apply (proj1 (forallb_forall _ _) Hall) in Hin.
  now apply negb_true_iff in Hin.
Qed.

Lemma btoa_without_comma binary : has ","%char (btoa binary) = false.
Proof.
  unfold has, btoa. rewrite list_ascii_of_string_of_list_ascii.
  rewrite existsb_app. apply orb_false_intro.
  - induction (sextets_of_bytes _) as [|n ns IH]; [reflexivity |].
    cbn [map existsb]. rewrite sextet_char_no_comma. exact IH.
  - unfold padding. destruct (Nat.modulo _ 4) as [|[|[|[|k]]]]; reflexivity.
Qed.

Lemma btoa_of_some c rest : btoa (String c rest) <> EmptyString.
Proof.
  unfold btoa. cbn [list_ascii_of_string map].
  destruct (map N_of_ascii (list_ascii_of_string rest)) as [|b [|d more]];
    cbn [sextets_of_bytes map app string_of_list_ascii]; discriminate.
Qed.

End BlobFacts.

Section VideoPageFacts.

Import ITree.ITree ITree.ITreeFacts.
Import VideoGeneration VideoProperties VideoMore.
Import BlobReader VideoGenerationFeature HandlerProperties.

Lemma setLoadingMessage_twice m m' s :
  setLoadingMessage m' (setLoadingMessage m s) = setLoadingMessage m' s.
Proof. destruct s; reflexivity. Qed.

Lemma progressed_message r : forall s,
  exists m, progressed r s = setLoadingMessage m s.
Proof.
  unfold progressed. induction (log r) as [|entry rest IH]; intros s.
  - exists (loadingMessage s). destruct s; reflexivity.
  - cbn [fold_left]. destruct entry;
      try (destruct (IH s) as (m & Hm); exists m; exact Hm).
    destruct (IH (setLoadingMessage message s)) as (m & Hm).
    exists m. rewrite Hm. apply setLoadingMessage_twice.
Qed.

Lemma catch_after_message err m s :
  catch err (setLoadingMessage m s) = catch err s.
Proof.
  destruct s. unfold catch.
  destruct (message_of err) as [[|c rest]|]; cbn -[JsString.includes String.append];
    try reflexivity.
  destruct (JsString.includes _ _); reflexivity.
Qed.

Lemma settled_thrown r e s :
  settled (r, Thrown e) s = finally (catch (Error e) s).
Proof.
  unfold settled. cbn [fst snd].
  destruct (progressed_message r s) as (m & ->).
  now rewrite catch_after_message.
Qed.

(** X30.  However an attempt to make a video fails, on an image that cannot
    be read or on a call the provider rejects, the page ends the same way: no
    video, its loading flag off, the shared counter where it was, the message
    "Video generation failed.", the failure written to the console, and an
    error that names the reason only when the reason is an Error with a
    message (an unreadable image shows "Unknown error.").  The key is marked
    as not selected exactly when the message has "Requested entity was not
    found." in it. *)
Theorem X30_failed_attempt_ends_the_same_way :
  forall (w : World) (API_KEY : option string)
         (s : State) (err : Reason),
    apiKeySelected s = true ->
    (0 <= activeRequests s)%Z ->
    fails w API_KEY s err ->
    handleGenerateVideo w API_KEY s
    ≈ (Ret
         {| prompt := prompt s;
            selectedImageFile :=
              selectedImageFile s;
            aspectRatio := aspectRatio s;
            resolution := resolution s;
            generatedVideoUrl := None;
            isLoading := false;
            loadingMessage := "Video generation failed.";
            error := Some (shown err);
            apiKeySelected :=
              negb (key_issue err);
            activeRequests :=
              activeRequests s;
            console :=
              console s
              ++ [("Video generation failed:"%string, message_of err)] |}).
Proof.
  intros w API_KEY s err Hselected Hactive Hfails.
  assert (Hend : forall s0,
             apiKeySelected s0 = true ->
             finally
               (catch err
                  (incrementLoading
                     (setGeneratedVideoUrl None
                        (setError None
                           (setLoadingMessage
                              "Starting video generation..."
                              (setIsLoading true s0))))))
             = {| prompt := prompt s0;
                  selectedImageFile :=
                    selectedImageFile s0;
                  aspectRatio :=
                    aspectRatio s0;
                  resolution :=
                    resolution s0;
                  generatedVideoUrl := None;
                  isLoading := false;
                  loadingMessage := "Video generation failed.";
                  error := Some (shown err);
                  apiKeySelected :=
                    negb (key_issue err);
                  activeRequests :=
                    LoadingContext.decrementLoading
                      (LoadingContext.incrementLoading
                         (activeRequests s0));
                  console :=
                    console s0
                    ++ [("Video generation failed:"%string,
                         message_of err)] |}).
  { intros s0 Hs0. destruct s0 as [p file ratio res url loading msg e0 sel active log].
    cbn in Hs0. subst sel.
    unfold catch, shown, key_issue.
    destruct err as [[|c rest] | value |]; try reflexivity.
    cbn -[JsString.includes String.append].
    destruct (JsString.includes _ _); reflexivity. }
  unfold handleGenerateVideo.
  rewrite Hselected. cbn [negb].
  destruct Hfails as [file err Hfile Hread | key e pending [_ Hready] Hkey Hscript Hpending Hlast].
  - rewrite Hfile, Bool.andb_false_r.
    replace (selectedImageFile _) with (Some file)
      by (destruct s; cbn in *; congruence).
    rewrite Hread, (Hend s Hselected), bracket by exact Hactive.
    rewrite Hfile. reflexivity.
  - assert (Hguard :
              ((JsString.trim (prompt s) =? EmptyString)%string
               && match selectedImageFile s with
                  | Some _ => false
                  | None => true
                  end)%bool = false).
    { destruct (selectedImageFile s).
      - apply Bool.andb_false_r.
      - destruct (String.eqb_spec
                    (JsString.trim (prompt s)) EmptyString);
          [contradiction | reflexivity]. }
    rewrite Hguard.
    replace (selectedImageFile
               (incrementLoading _))
      with (selectedImageFile s)
      by (destruct s; reflexivity).
    destruct (selectedImageFile s) as [file|] eqn:Hfile.
    + destruct Hready as (base64Image & ->).
      unfold generateVideoFromImage.
      rewrite (generateVideo_rejected w API_KEY key _ image_wording
                 pending e Hkey Hscript Hpending Hlast).
      rewrite bind_ret_l, settled_thrown, (Hend s Hselected),
        bracket by exact Hactive.
      rewrite Hfile. reflexivity.
    + unfold generateVideoFromText.
      rewrite (generateVideo_rejected w API_KEY key _ text_wording
                 pending e Hkey Hscript Hpending Hlast).
      rewrite bind_ret_l, settled_thrown, (Hend s Hselected),
        bracket by exact Hactive.
      rewrite Hfile. reflexivity.
Qed.

(** X30, witness: the provider answers the request and one poll, then
    rejects the next poll because the key is not known. *)
Lemma X30_witness :
  handleGenerateVideo (failing_after 2) (Some "secret"%string) asking
  ≈ (Ret
       {| prompt := "a cat";
          selectedImageFile := None;
          aspectRatio := AR_16_9;
          resolution := Res_720p;
          generatedVideoUrl := None;
          isLoading := false;
          loadingMessage := "Video generation failed.";
          error :=
            Some "Video generation failed due to an API key issue. Please re-select your API key."%string;
          apiKeySelected := false;
          activeRequests := 1;
          console :=
            [("Video generation failed:"%string,
              Some "Requested entity was not found."%string)] |}).
Proof.
  refine (X30_failed_attempt_ends_the_same_way
            (failing_after 2) (Some "secret"%string) asking
            (Error "Requested entity was not found.") _ _ _).
  - reflexivity.
  - cbn. lia.
  - apply (rejected _ _ _ "secret"%string "Requested entity was not found."%string
             [running; running]).
    + split; [reflexivity | vm_compute; discriminate].
    + reflexivity.
    + cbn. repeat split.
    + repeat constructor.
    + reflexivity.
Defined.

End VideoPageFacts.


(** X29.  From a data URL whose payload is the base64 of a file,
    [blobToBase64] resolves to that payload, whatever the header before the
    comma; for an empty file the payload is empty and the promise is
    rejected, with a plain string. *)
Theorem X29_blobToBase64_gives_the_payload :
  forall (header binary : string),
    HandlerProperties.has ","%char header = false ->
    BlobReader.blobToBase64
      {| BlobReader.onerror_fired := false;
         BlobReader.result :=
           Some (header ++ String ","%char (Base64.btoa binary))%string |}
    = match binary with
      | EmptyString =>
          BlobReader.Rejected (BlobReader.plain "Failed to convert blob to base64")
      | _ => BlobReader.Resolved (Base64.btoa binary)
      end.
Proof.
  intros header binary Hheader.
  unfold BlobReader.blobToBase64. cbn [BlobReader.onerror_fired BlobReader.result].
  rewrite (split_at _ _ _ Hheader), (split_without _ _ (btoa_without_comma binary)).
  cbn [nth_error].
  destruct binary as [|c rest]; [reflexivity |].
  pose proof (btoa_of_some c rest) as Hsome.
  destruct (Base64.btoa (String c rest)); [contradiction | reflexivity].
Qed.

(** X29, witness: a file of the three bytes "abc". *)
Lemma X29_witness :
  BlobReader.blobToBase64
    {| BlobReader.onerror_fired := false;
       BlobReader.result :=
         Some ("data:image/png;base64" ++ String ","%char (Base64.btoa "abc"))%string |}
  = BlobReader.Resolved (Base64.btoa "abc").
Proof.
  apply (X29_blobToBase64_gives_the_payload "data:image/png;base64" "abc").
  reflexivity.
Defined.
